(** * Moderation cog of ggBot: a shallow embedding and its properties

    The development follows [src/cogs/moderation.py].  Every slash command
    of the [Moderation] cog is a program in a small state-and-exception
    monad over a [World]: the persistent store, the list of calls issued
    to the chat platform, and the acknowledgement flag of the interaction.
    What the platform answers to each call is read from an [Env].

    Text is modelled as ASCII text: [str.strip], [str.isdigit],
    [str.lower], [str.title] and [int] are Python's on strings of ASCII
    characters, and statements about arbitrary input text say so with
    [PyStr.is_ascii].  The bytes of other characters are carried along
    in the fixed texts of messages only. *)

From Stdlib Require Import ZArith List String Ascii Bool Lia DecimalString.
Import ListNotations.
Local Open Scope string_scope.
Local Open Scope Z_scope.
Set Warnings "-register-all".

(** ** Python text primitives *)

Module PyStr.

(** The characters of ASCII text. *)
Definition is_ascii_char (c : ascii) : bool := (nat_of_ascii c <? 128)%nat.

Fixpoint is_ascii (s : string) : bool :=
  match s with
  | EmptyString => true
  | String c s' => is_ascii_char c && is_ascii s'
  end.

(** Whitespace as [str.strip()] sees it in the ASCII range:
    TAB, LF, VT, FF, CR, FS, GS, RS, US and space. *)
Definition is_space (c : ascii) : bool :=
  let n := nat_of_ascii c in
  ((9 <=? n) && (n <=? 13) || (28 <=? n) && (n <=? 32))%nat.

Definition is_digit (c : ascii) : bool :=
  let n := nat_of_ascii c in ((48 <=? n) && (n <=? 57))%nat.

Fixpoint lstrip (s : string) : string :=
  match s with
  | String c s' => if is_space c then lstrip s' else s
  | EmptyString => EmptyString
  end.

(** [rstrip] keeps a character when it is not a space or when something
    survives to its right. *)
Fixpoint rstrip (s : string) : string :=
  match s with
  | String c s' =>
      match rstrip s' with
      | EmptyString => if is_space c then EmptyString else String c EmptyString
      | r => String c r
      end
  | EmptyString => EmptyString
  end.

(** [s.strip()] *)
Definition strip (s : string) : string := rstrip (lstrip s).

(** [s.replace(old, new)] for a non-empty [old]: scan from the left, and
    at each occurrence of [old] emit [new] and jump over the occurrence.
    [skip] counts the characters of the occurrence still to jump. *)
Fixpoint replace_from (old new : string) (skip : nat) (s : string) : string :=
  match s with
  | EmptyString => EmptyString
  | String c s' =>
      match skip with
      | S k => replace_from old new k s'
      | O =>
          if prefix old s
          then new ++ replace_from old new (Nat.pred (String.length old)) s'
          else String c (replace_from old new O s')
      end
  end.

(** With an empty [old] Python inserts [new] around every character; the
    cog only calls [replace] with non-empty patterns and an empty [new],
    for which that case is the identity. *)
Definition replace (old new s : string) : string :=
  match old with
  | EmptyString => s
  | _ => replace_from old new O s
  end.

Fixpoint all_digits (s : string) : bool :=
  match s with
  | EmptyString => true
  | String c s' => is_digit c && all_digits s'
  end.

(** [s.isdigit()]: at least one character, and all of them digits. *)
Definition isdigit (s : string) : bool :=
  match s with
  | EmptyString => false
  | _ => all_digits s
  end.

Definition digit_value (c : ascii) : Z := Z.of_nat (nat_of_ascii c) - 48.

Fixpoint digits_value (acc : Z) (s : string) : Z :=
  match s with
  | EmptyString => acc
  | String c s' => digits_value (10 * acc + digit_value c) s'
  end.

(** Digits with single underscores between them, as [int] accepts. *)
Fixpoint int_body (acc : Z) (prev_digit : bool) (s : string) : option Z :=
  match s with
  | EmptyString => if prev_digit then Some acc else None
  | String c s' =>
      if is_digit c then int_body (10 * acc + digit_value c) true s'
      else if (Ascii.eqb c "_" && prev_digit)%bool then
        match s' with
        | String d _ => if is_digit d then int_body acc false s' else None
        | EmptyString => None
        end
      else None
  end.

(** Whitespace as [int()] skips it in ASCII text: TAB, LF, VT, FF, CR
    and space, without the separators FS, GS, RS and US that
    [str.strip()] removes. *)
Definition is_c_space (c : ascii) : bool :=
  let n := nat_of_ascii c in
  ((9 <=? n) && (n <=? 13) || (n =? 32))%nat.

Fixpoint c_lstrip (s : string) : string :=
  match s with
  | String c s' => if is_c_space c then c_lstrip s' else s
  | EmptyString => EmptyString
  end.

(** The digits and separators in front of [s], and what follows them. *)
Fixpoint numeral_span (s : string) : string * string :=
  match s with
  | String c s' =>
      if (is_digit c || Ascii.eqb c "_")%bool then
        let (numeral, rest) := numeral_span s' in (String c numeral, rest)
      else (EmptyString, s)
  | EmptyString => (EmptyString, EmptyString)
  end.

Fixpoint digit_count (s : string) : nat :=
  match s with
  | EmptyString => O
  | String c s' => if is_digit c then S (digit_count s') else digit_count s'
  end.

(** The limit [int()] puts on the digits of a decimal numeral
    ([sys.get_int_max_str_digits()], 4300 unless changed). *)
Definition int_max_str_digits : nat := 4300.

(** [str(n)] for an integer. *)
Definition of_Z (z : Z) : string := NilZero.string_of_int (Z.to_int z).

(** [int(s)] on a string, in the order the interpreter goes through
    it: whitespace in front, an optional sign, then the digits with
    their separators; these are checked against the limit before what
    follows them is looked at, which may only be whitespace.  The left
    side is the message of the [ValueError]; the string is shown in it
    as [repr] shows a string of printable characters without quotes or
    backslashes. *)
Definition int_parse (s : string) : string + Z :=
  let invalid : string + Z :=
    inl ("invalid literal for int() with base 10: '" ++ s ++ "'") in
  let r := c_lstrip s in
  let (negative, body) :=
    match r with
    | String "-" b => (true, b)
    | String "+" b => (false, b)
    | _ => (false, r)
    end in
  let (numeral, rest) := numeral_span body in
  match int_body 0 false numeral with
  | None => invalid
  | Some v =>
      if (int_max_str_digits <? digit_count numeral)%nat then
        inl ("Exceeds the limit (4300 digits) for integer string conversion: value has "
             ++ of_Z (Z.of_nat (digit_count numeral))
             ++ " digits; use sys.set_int_max_str_digits() to increase the limit")
      else
        match c_lstrip rest with
        | EmptyString => inr (if negative then - v else v)
        | _ => invalid
        end
  end.

(** [int(s)], with [None] for the [ValueError]. *)
Definition int_of_string (s : string) : option Z :=
  match int_parse s with
  | inr z => Some z
  | inl _ => None
  end.

Definition lower_char (c : ascii) : ascii :=
  let n := nat_of_ascii c in
  if ((65 <=? n) && (n <=? 90))%nat then ascii_of_nat (n + 32) else c.

(** [s.lower()] on ASCII text *)
Fixpoint lower (s : string) : string :=
  match s with
  | EmptyString => EmptyString
  | String c s' => String (lower_char c) (lower s')
  end.

End PyStr.

(** ** Python values, as the configuration and the store rows hold them *)

Inductive PyVal : Type :=
| PyNone
| PyBool (b : bool)
| PyInt (z : Z)
| PyStr (s : string)
| PyList (xs : list PyVal)
| PyDict (kvs : list (string * PyVal)).

Module Py.

(** Truth value of an object, as [if x], [not x] and [x or y] use it. *)
Definition truthy (v : PyVal) : bool :=
  match v with
  | PyNone => false
  | PyBool b => b
  | PyInt z => negb (z =? 0)
  | PyStr s => negb (String.eqb s "")
  | PyList xs => match xs with [] => false | _ => true end
  | PyDict kvs => match kvs with [] => false | _ => true end
  end.

(** [a or b] *)
Definition or_ (a b : PyVal) : PyVal := if truthy a then a else b.

Fixpoint lookup (k : string) (kvs : list (string * PyVal)) : option PyVal :=
  match kvs with
  | [] => None
  | (k', v) :: rest => if String.eqb k k' then Some v else lookup k rest
  end.

(** [d.get(k)]: [None] when the key is missing. *)
Definition get (k : string) (kvs : list (string * PyVal)) : PyVal :=
  match lookup k kvs with Some v => v | None => PyNone end.

(** [d.get(k, default)] *)
Definition get_default (k : string) (default : PyVal) (kvs : list (string * PyVal)) : PyVal :=
  match lookup k kvs with Some v => v | None => default end.

(** [repr(v)]; a string is shown between single quotes, without the
    escapes Python adds for quotes and control characters. *)
Fixpoint repr (v : PyVal) : string :=
  match v with
  | PyNone => "None"
  | PyBool true => "True"
  | PyBool false => "False"
  | PyInt z => PyStr.of_Z z
  | PyStr s => "'" ++ s ++ "'"
  | PyList xs =>
      "[" ++ (fix items (l : list PyVal) : string :=
                match l with
                | [] => ""
                | x :: l' =>
                    match l' with
                    | [] => repr x
                    | _ => repr x ++ ", " ++ items l'
                    end
                end) xs ++ "]"
  | PyDict kvs =>
      "{" ++ (fix items (l : list (string * PyVal)) : string :=
                match l with
                | [] => ""
                | (k, x) :: l' =>
                    match l' with
                    | [] => "'" ++ k ++ "': " ++ repr x
                    | _ => "'" ++ k ++ "': " ++ repr x ++ ", " ++ items l'
                    end
                end) kvs ++ "}"
  end.

(** [str(v)], also what an f-string placeholder prints. *)
Definition str (v : PyVal) : string :=
  match v with
  | PyStr s => s
  | _ => repr v
  end.

(** The text a value holds is ASCII text. *)
Definition is_ascii_value (v : PyVal) : bool :=
  match v with
  | PyStr s => PyStr.is_ascii s
  | _ => true
  end.

(** [int(v)]; [None] stands for the [TypeError] or [ValueError] raised. *)
Definition int (v : PyVal) : option Z :=
  match v with
  | PyInt z => Some z
  | PyBool b => Some (if b then 1 else 0)
  | PyStr s => PyStr.int_of_string s
  | _ => None
  end.

End Py.

(** ** Exceptions *)

Inductive ExnClass : Type :=
| Forbidden | NotFound | HTTPException      (* discord.* *)
| MissingPermissions                          (* app_commands.* *)
| TimeoutError                                (* asyncio.TimeoutError *)
| KeyError | TypeError | ValueError | OverflowError | AttributeError
| OtherException.

Record Exn : Type := mkExn { ex_class : ExnClass; ex_text : string }.

Definition ExnClass_eqb (a b : ExnClass) : bool :=
  match a, b with
  | Forbidden, Forbidden | NotFound, NotFound | HTTPException, HTTPException
  | MissingPermissions, MissingPermissions | TimeoutError, TimeoutError
  | KeyError, KeyError | TypeError, TypeError | ValueError, ValueError
  | OverflowError, OverflowError
  | AttributeError, AttributeError | OtherException, OtherException => true
  | _, _ => false
  end.

(** [isinstance(e, cls)]: [discord.Forbidden] and [discord.NotFound]
    derive from [discord.HTTPException]. *)
Definition isinstance (e : Exn) (cls : ExnClass) : bool :=
  ExnClass_eqb (ex_class e) cls ||
  match cls, ex_class e with
  | HTTPException, Forbidden | HTTPException, NotFound => true
  | _, _ => false
  end.

(** ** Discord objects *)

Record Member : Type := mkMember {
  m_id : Z;
  m_name : string;       (* [str(member)] *)
  top_role : Z           (* rank of the highest role in the guild's role order *)
}.

Definition mention (id : Z) : string := "<@" ++ PyStr.of_Z id ++ ">".

Record Guild : Type := mkGuild {
  g_id : Z;
  g_name : string;
  owner_id : Z;
  owner : option Member;     (* [guild.owner]: the owner when the member cache resolves it *)
  g_channels : list Z        (* channels [guild.get_channel] resolves *)
}.

(** [member == guild.owner]: members are equal when their ids are, and a
    member never equals [None]. *)
Definition member_is (member : Member) (o : option Member) : bool :=
  match o with
  | Some m => m_id member =? m_id m
  | None => false
  end.

Inductive Invoker : Type :=
| AsUser (uid : Z) (name : string)     (* a bare [discord.User] *)
| AsMember (m : Member).

Definition invoker_id (u : Invoker) : Z :=
  match u with AsUser uid _ => uid | AsMember m => m_id m end.

Inductive Channel : Type :=
| NoChannel                       (* [interaction.channel is None] *)
| ChannelWithoutPurge (id : Z)
| ChannelWithPurge (id : Z).

Record Interaction : Type := mkInteraction {
  guild : option Guild;
  user : Invoker;
  channel : Channel
}.

Inductive Color : Type := Orange | Red | Green | Blue | Blurple.

Record Embed : Type := mkEmbed {
  title : option string;
  description : option string;
  color : Color;
  fields : list (string * string)     (* name, value; all added with inline=False *)
}.

(** [utils/embeds.py] *)
Definition create_success_embed (message : string) : Embed :=
  mkEmbed None (Some ("✅ " ++ message)) Green [].

Definition create_error_embed (message : string) : Embed :=
  mkEmbed None (Some ("❌ " ++ message)) Red [].

(** The keyword arguments of a send: [content], [embed], [ephemeral] and
    whether a [ConfirmView] is attached. *)
Record Payload : Type := mkPayload {
  content : option string;
  embed : option Embed;
  ephemeral : bool;
  view : bool
}.

Definition text_payload (s : string) (eph : bool) : Payload := mkPayload (Some s) None eph false.
Definition embed_payload (e : Embed) (eph : bool) : Payload := mkPayload None (Some e) eph false.

(** ** The persistent store *)

Record WarningRecord : Type := mkWarning {
  wr_id : Z;
  wr_guild : Z;
  wr_member : Z;
  wr_moderator : Z;
  wr_reason : string;
  wr_timestamp : Z
}.

Record ActionLogEntry : Type := mkAction {
  al_guild : Z;
  al_action : string;
  al_target : Z;
  al_moderator : Z;
  al_reason : option string
}.

Record ServerSettings : Type := mkSettings {
  log_channel : option Z;
  welcome_channel : option Z
}.

Record Store : Type := mkStore {
  warnings_table : list WarningRecord;          (* newest first *)
  action_log : list ActionLogEntry;             (* newest first *)
  settings_table : list (Z * ServerSettings);
  clock : Z;                                    (* next identifier and timestamp *)
  has_delete_warning : bool;                    (* [hasattr(db, "delete_warning")] *)
  has_remove_warning : bool                     (* [hasattr(db, "remove_warning")] *)
}.

Module Db.

Definition with_warnings (st : Store) (ws : list WarningRecord) : Store :=
  mkStore ws (action_log st) (settings_table st) (clock st)
          (has_delete_warning st) (has_remove_warning st).

Definition of_member (g m : Z) (w : WarningRecord) : bool :=
  (wr_guild w =? g) && (wr_member w =? m).

(** Modelled from the spec: the store module of the bot is not among the
    sources.  [getServerSettings(guildId)] returns the guild's record, or
    a default, empty record when no row exists; it never fails for a
    missing row. *)
Definition get_server_settings (g : Z) (st : Store) : ServerSettings :=
  match find (fun r => fst r =? g) (settings_table st) with
  | Some r => snd r
  | None => mkSettings None None
  end.

(** Modelled from the spec: the store module is not among the sources.
    [logAction(guildId, action, targetId, moderatorId, reason|absent)]
    adds one audit row. *)
Definition log_action (g : Z) (action : string) (target moderator : Z)
    (reason : option string) (st : Store) : Store :=
  mkStore (warnings_table st) (mkAction g action target moderator reason :: action_log st)
          (settings_table st) (clock st) (has_delete_warning st) (has_remove_warning st).

(** Modelled from the spec: the store module is not among the sources.
    [addWarning(guildId, memberId, moderatorId, reason)] creates one
    Warning Record with a fresh identifier and the creation time. *)
Definition add_warning (g m moderator : Z) (reason : string) (st : Store) : Store :=
  mkStore (mkWarning (clock st) g m moderator reason (clock st) :: warnings_table st)
          (action_log st) (settings_table st) (clock st + 1)
          (has_delete_warning st) (has_remove_warning st).

Definition member_warnings (g m : Z) (st : Store) : list WarningRecord :=
  filter (of_member g m) (warnings_table st).

(** Modelled from the spec: the store module is not among the sources.
    [getWarningCount(guildId, memberId)] is the number of the member's
    Warning Records in the guild. *)
Definition get_warning_count (g m : Z) (st : Store) : Z :=
  Z.of_nat (List.length (member_warnings g m st)).

Definition row (w : WarningRecord) : list (string * PyVal) :=
  [("id", PyInt (wr_id w)); ("guild_id", PyInt (wr_guild w));
   ("user_id", PyInt (wr_member w)); ("mod_id", PyInt (wr_moderator w));
   ("reason", PyStr (wr_reason w)); ("timestamp", PyInt (wr_timestamp w))].

(** Modelled from the spec: the store module is not among the sources.
    [getWarnings(guildId, memberId)] is the ordered list of the member's
    records, newest first, each as a mapping. *)
Definition get_warnings (g m : Z) (st : Store) : list (list (string * PyVal)) :=
  map row (member_warnings g m st).

(** Modelled from the spec: the store module is not among the sources.
    [clearWarnings(guildId, memberId)] deletes every Warning Record of
    the member in the guild and returns the count removed. *)
Definition clear_warnings (g m : Z) (st : Store) : Z * Store :=
  (get_warning_count g m st,
   with_warnings st (filter (fun w => negb (of_member g m w)) (warnings_table st))).

(** Modelled from the spec: the store module is not among the sources.
    [deleteWarning(guildId, warningId)], the precise deletion by
    identifier. *)
Definition delete_warning (g : Z) (wid : PyVal) (st : Store) : Store :=
  match wid with
  | PyInt z =>
      with_warnings st
        (filter (fun w => negb ((wr_guild w =? g) && (wr_id w =? z))) (warnings_table st))
  | _ => st
  end.

Fixpoint remove_first (p : WarningRecord -> bool) (ws : list WarningRecord) : list WarningRecord :=
  match ws with
  | [] => []
  | w :: rest => if p w then rest else w :: remove_first p rest
  end.

(** Modelled from the spec: the store module is not among the sources.
    [removeWarning(guildId, memberId)], the coarse capability: remove a
    warning for this member (the most recent one). *)
Definition remove_warning (g m : Z) (st : Store) : Store :=
  with_warnings st (remove_first (of_member g m) (warnings_table st)).

End Db.

(** ** The world a command runs in *)

(** Calls made on the chat platform through the library, in the order
    they are made.  A send is listed when the message is handed to the
    platform; the other calls are listed when the method is called, and
    whether it returns or raises is read from the [Env]. *)
Inductive Event : Type :=
| EDefer (eph : bool)                                   (* [interaction.response.defer] *)
| ESend (followup : bool) (p : Payload)                 (* [response.send_message] / [followup.send] *)
| EConfirmWait                                          (* [view.wait()] *)
| EOriginalResponse                                     (* [interaction.original_response()] *)
| EEdit (c : option string) (e : option Embed)          (* [msg.edit(..., view=None)] *)
| EKick (target : Z) (reason : string)                  (* [member.kick] *)
| EBan (target : Z) (reason : string)                   (* [member.ban] *)
| ETimeout (target : Z) (minutes : option Z) (reason : string)   (* [member.timeout] *)
| EFetchUser (uid : Z)                                  (* [bot.fetch_user] *)
| EUnban (uid : Z)                                      (* [guild.unban] *)
| EDirectMessage (target : Z) (e : Embed)               (* [member.send] *)
| EChannelSend (channel : Z) (e : Embed)                (* [channel.send] in the log channel *)
| EPurge (channel : Z) (limit : Z).                     (* [channel.purge] *)

Record World : Type := mkWorld {
  store : Store;
  calls : list Event;
  responded : bool          (* [interaction.response.is_done()] *)
}.

Definition init_world (st : Store) : World := mkWorld st [] false.

Inductive DbOp : Type :=
| OpGetServerSettings | OpLogAction | OpAddWarning | OpGetWarningCount
| OpGetWarnings | OpClearWarnings | OpDeleteWarning | OpRemoveWarning.

(** How a store coroutine ends: in time, later than the ten seconds
    [_db_call] allows, or with an exception. *)
Inductive DbOutcome : Type := DbOk | DbSlow | DbRaises (e : Exn).

Inductive ConfirmOutcome : Type := Accepted | Declined | TimedOut.

(** What the surroundings answer during one invocation.  [None] in an
    outcome field means the call returns normally. *)
Record Env : Type := mkEnv {
  bot_config : option PyVal;            (* [bot.config]; [None] when the attribute is missing *)
  db_outcome : DbOp -> DbOutcome;
  defer_outcome : option Exn;
  kick_outcome : option Exn;
  ban_outcome : option Exn;
  timeout_outcome : option Exn;
  fetch_user_outcome : option Exn;
  unban_outcome : option Exn;
  dm_outcome : option Exn;
  modlog_send_outcome : option Exn;
  original_response_outcome : option Exn;
  confirm_outcome : ConfirmOutcome;
  purge_outcome : Exn + Z               (* number of messages deleted *)
}.

Inductive Result (A : Type) : Type :=
| Ret (a : A)
| Raise (e : Exn).
Arguments Ret {A} a.
Arguments Raise {A} e.

(** A coroutine: it runs from a world to a result and the world it leaves. *)
Definition M (A : Type) : Type := World -> Result A * World.

Definition ret {A} (a : A) : M A := fun w => (Ret a, w).

Definition raise {A} (e : Exn) : M A := fun w => (Raise e, w).

Definition bind {A B} (m : M A) (k : A -> M B) : M B :=
  fun w => match m w with
           | (Ret a, w') => k a w'
           | (Raise e, w') => (Raise e, w')
           end.

Declare Scope cog_scope.
Delimit Scope cog_scope with cog.
Notation "x <- m ;; k" := (bind m (fun x => k))
  (at level 100, m at next level, right associativity) : cog_scope.
Notation "m ;; k" := (bind m (fun _ => k))
  (at level 100, right associativity) : cog_scope.
Local Open Scope cog_scope.

(** [try: m except ...]: [h e] is the body of the first clause that
    matches [e], if any. *)
Definition try_except {A} (m : M A) (h : Exn -> option (M A)) : M A :=
  fun w => match m w with
           | (Ret a, w') => (Ret a, w')
           | (Raise e, w') =>
               match h e with
               | Some k => k w'
               | None => (Raise e, w')
               end
           end.

Definition emit (ev : Event) : M unit :=
  fun w => (Ret tt, mkWorld (store w) (calls w ++ [ev])%list (responded w)).

Definition is_done : M bool := fun w => (Ret (responded w), w).

Definition set_done : M unit := fun w => (Ret tt, mkWorld (store w) (calls w) true).

(** A call to the platform: it is issued, then returns or raises. *)
Definition platform (ev : Event) (outcome : option Exn) : M unit :=
  emit ev ;;
  match outcome with
  | None => ret tt
  | Some e => raise e
  end.

(** A store coroutine awaited directly: a slow one is simply waited for. *)
Definition db_read {A} (env : Env) (op : DbOp) (f : Store -> A) : M A :=
  match db_outcome env op with
  | DbRaises e => raise e
  | _ => fun w => (Ret (f (store w)), w)
  end.

Definition db_write (env : Env) (op : DbOp) (f : Store -> Store) : M unit :=
  match db_outcome env op with
  | DbRaises e => raise e
  | _ => fun w => (Ret tt, mkWorld (f (store w)) (calls w) (responded w))
  end.

(** [_db_call]: the same coroutine under [asyncio.wait_for(..., 10.0)];
    a slow one is cancelled and [asyncio.TimeoutError] is raised. *)
Definition _db_call {A} (env : Env) (op : DbOp) (f : Store -> A * Store) : M A :=
  match db_outcome env op with
  | DbRaises e => raise e
  | DbSlow => raise (mkExn TimeoutError "")
  | DbOk => fun w => let (a, st) := f (store w) in
                     (Ret a, mkWorld st (calls w) (responded w))
  end.

(** [_defer] *)
Definition _defer (env : Env) (eph : bool) : M unit :=
  done <- is_done ;;
  if done then ret tt
  else try_except
         (platform (EDefer eph) (defer_outcome env) ;; set_done)
         (fun _ => Some (ret tt)).

(** [interaction.followup.send(...)] without a [view] argument.  The
    platform is taken to accept the messages sent on the interaction. *)
Definition followup_send (p : Payload) : M unit := emit (ESend true p).

(** What the library does with [view=None], which is not the default
    of its [view] parameter.  [InteractionResponse.send_message] posts
    the message and then asks the view whether it is finished, before
    it marks the interaction as responded; [Webhook.send], behind
    [interaction.followup], refuses a view that is not a [View] before
    it sends anything. *)
Definition no_view_after_response : Exn :=
  mkExn AttributeError "'NoneType' object has no attribute 'is_finished'".

Definition no_view_in_followup : Exn :=
  mkExn TypeError "expected view parameter to be of type View not NoneType".

(** [interaction.response.send_message(..., view=view)], where [view p]
    tells a [ConfirmView] from [None]. *)
Definition send_message (p : Payload) : M unit :=
  emit (ESend false p) ;;
  if view p then set_done else raise no_view_after_response.

(** [interaction.followup.send(..., view=view)] *)
Definition followup_send_view (p : Payload) : M unit :=
  if view p then emit (ESend true p) else raise no_view_in_followup.

(** [_respond]: the initial response if none was made, else a followup.
    It always passes its [view] on, and [view] is [None] unless the
    caller gives one, which only the prompt of [ban] does. *)
Definition _respond (p : Payload) : M unit :=
  done <- is_done ;;
  if done then followup_send_view p else send_message p.

(** [_post_modlog] *)
Definition _post_modlog (env : Env) (g : Guild) (e : Embed) : M unit :=
  settings <- db_read env OpGetServerSettings (Db.get_server_settings (g_id g)) ;;
  match log_channel settings with
  | None => ret tt
  | Some channel_id =>
      if channel_id =? 0 then ret tt
      else if existsb (Z.eqb channel_id) (g_channels g)
      then try_except
             (platform (EChannelSend channel_id e) (modlog_send_outcome env))
             (fun _ => Some (ret tt))
      else ret tt
  end.

Definition guild_only : Payload :=
  text_payload "❌ This command can only be used in a server." true.

Definition error_reply (message : string) : Payload :=
  embed_payload (create_error_embed message) true.

(** [member.top_role >= author.top_role and author.id != guild.owner_id] *)
Definition outranked (g : Guild) (author member : Member) : bool :=
  (top_role member >=? top_role author) && negb (m_id author =? owner_id g).

Definition by_line (verb : string) (author : Member) : string :=
  " | " ++ verb ++ " by " ++ m_name author ++ " (" ++ PyStr.of_Z (m_id author) ++ ")".

(** ** The commands *)

Definition kick (env : Env) (i : Interaction) (member : Member) (reason : string) : M unit :=
  match guild i, user i with
  | Some g, AsMember author =>
      if member_is member (owner g) then
        _respond (error_reply "You cannot kick the server owner.")
      else if outranked g author member then
        _respond (error_reply "You cannot kick someone with a higher or equal role.")
      else
        _defer env true ;;
        try_except
          (platform (EKick (m_id member) (reason ++ by_line "Kicked" author)) (kick_outcome env) ;;
           db_write env OpLogAction
             (Db.log_action (g_id g) "kick" (m_id member) (m_id author) (Some reason)) ;;
           let embed :=
             mkEmbed (Some "Member Kicked")
               (Some (mention (m_id member) ++ " has been kicked.
**Moderator:** " ++ mention (m_id author) ++ "
**Reason:** " ++ reason))
               Orange [] in
           _respond (embed_payload embed false) ;;
           _post_modlog env g embed)
          (fun e =>
             if isinstance e Forbidden then
               Some (_respond (error_reply "I don't have permission to kick this member."))
             else if isinstance e HTTPException then
               Some (_respond (error_reply "Kick failed due to a Discord API error."))
             else None)
  | _, _ => _respond guild_only
  end.

Definition ban (env : Env) (i : Interaction) (member : Member) (reason : string) : M unit :=
  match guild i, user i with
  | Some g, AsMember author =>
      if member_is member (owner g) then
        _respond (error_reply "You cannot ban the server owner.")
      else if outranked g author member then
        _respond (error_reply "You cannot ban someone with a higher or equal role.")
      else
        _respond (mkPayload (Some ("Are you sure you want to ban " ++ mention (m_id member) ++ "?"))
                            None true true) ;;
        emit EConfirmWait ;;
        msg <- try_except
                 (platform EOriginalResponse (original_response_outcome env) ;; ret true)
                 (fun _ => Some (ret false)) ;;
        match confirm_outcome env with
        | Accepted =>
            let report (err : string) : M unit :=
              if msg then emit (EEdit (Some err) None)
              else _respond (error_reply err) in
            try_except
              (platform (EBan (m_id member) (reason ++ by_line "Banned" author)) (ban_outcome env) ;;
               db_write env OpLogAction
                 (Db.log_action (g_id g) "ban" (m_id member) (m_id author) (Some reason)) ;;
               let embed :=
                 mkEmbed (Some "Member Banned")
                   (Some (mention (m_id member) ++ " has been banned.
**Moderator:** " ++ mention (m_id author) ++ "
**Reason:** " ++ reason))
                   Red [] in
               (if msg then emit (EEdit None (Some embed))
                else _respond (embed_payload embed true)) ;;
               _post_modlog env g embed)
              (fun e =>
                 if isinstance e Forbidden then
                   Some (report "❌ I don't have permission to ban this member.")
                 else if isinstance e HTTPException then
                   Some (report "❌ Ban failed due to a Discord API error.")
                 else None)
        | _ =>
            if msg then emit (EEdit (Some "❌ Ban cancelled.") None) else ret tt
        end
  | _, _ => _respond guild_only
  end.

(** [user_id.strip().replace("<@", "").replace(">", "").replace("!", "")] *)
Definition clean_user_id (user_id : string) : string :=
  PyStr.replace "!" "" (PyStr.replace ">" "" (PyStr.replace "<@" "" (PyStr.strip user_id))).

Definition unban (env : Env) (i : Interaction) (user_id : string) : M unit :=
  match guild i, user i with
  | Some g, AsMember author =>
      let cleaned := clean_user_id user_id in
      if negb (PyStr.isdigit cleaned) then
        _respond (error_reply "Please provide a valid user ID.")
      else
        _defer env true ;;
        match PyStr.int_parse cleaned with
        | inl message => raise (mkExn ValueError message)
        | inr uid =>
            try_except
              (platform (EFetchUser uid) (fetch_user_outcome env) ;;
               platform (EUnban uid) (unban_outcome env) ;;
               db_write env OpLogAction
                 (Db.log_action (g_id g) "unban" uid (m_id author) None) ;;
               let embed :=
                 mkEmbed (Some "User Unbanned")
                   (Some (mention uid ++ " has been unbanned.
**Moderator:** " ++ mention (m_id author)))
                   Green [] in
               _respond (embed_payload embed false) ;;
               _post_modlog env g embed)
              (fun e =>
                 if isinstance e NotFound then
                   Some (_respond (error_reply "User not found or not banned."))
                 else if isinstance e Forbidden then
                   Some (_respond (error_reply "I don't have permission to unban users."))
                 else if isinstance e HTTPException then
                   Some (_respond (error_reply "Unban failed due to a Discord API error."))
                 else None)
        end
  | _, _ => _respond guild_only
  end.

(** *** Configuration access *)

Definition type_name (v : PyVal) : string :=
  match v with
  | PyNone => "NoneType" | PyBool _ => "bool" | PyInt _ => "int"
  | PyStr _ => "str" | PyList _ => "list" | PyDict _ => "dict"
  end.

(** [(getattr(self.bot, "config", {}) or {}).get("moderation", {})],
    followed by the [isinstance(mod_cfg, dict)] fall-back. *)
Definition moderation_section (env : Env) : M (list (string * PyVal)) :=
  let cfg := match bot_config env with
             | Some c => Py.or_ c (PyDict [])
             | None => PyDict []
             end in
  match cfg with
  | PyDict kvs =>
      match Py.get_default "moderation" (PyDict []) kvs with
      | PyDict mod_cfg => ret mod_cfg
      | _ => ret []
      end
  | other =>
      raise (mkExn AttributeError ("'" ++ type_name other ++ "' object has no attribute 'get'"))
  end.

(** [v[k]] with a string key: a lookup in a mapping; a sequence wants an
    integer index, and the other values have no subscript. *)
Definition subscript (v : PyVal) (k : string) : M PyVal :=
  match v with
  | PyDict kvs =>
      match Py.lookup k kvs with
      | Some x => ret x
      | None => raise (mkExn KeyError ("'" ++ k ++ "'"))
      end
  | PyStr _ => raise (mkExn TypeError "string indices must be integers, not 'str'")
  | PyList _ => raise (mkExn TypeError "list indices must be integers or slices, not str")
  | other => raise (mkExn TypeError ("'" ++ type_name other ++ "' object is not subscriptable"))
  end.

(** [self.bot.config[section][key]] *)
Definition config_item (env : Env) (section key : string) : M PyVal :=
  match bot_config env with
  | None => raise (mkExn AttributeError "'Bot' object has no attribute 'config'")
  | Some cfg => sec <- subscript cfg section ;; subscript sec key
  end.

(** [try: int(mod_cfg.get(key, default)) except Exception: default] *)
Definition int_setting (mod_cfg : list (string * PyVal)) (key : string) (default : Z) : Z :=
  match Py.int (Py.get_default key (PyInt default) mod_cfg) with
  | Some z => z
  | None => default
  end.

(** [timedelta(minutes=v)]: integers only.  The days, [m // 1440], must
    fit a C [int] and then be no more than 999999999 either way. *)
Definition timedelta_minutes (v : PyVal) : M Z :=
  let check (m : Z) : M Z :=
    let days := m / 1440 in
    if (days <? - 2 ^ 31) || (2 ^ 31 - 1 <? days) then
      raise (mkExn OverflowError "Python int too large to convert to C int")
    else if Z.abs days <=? 999999999 then ret m
    else raise (mkExn OverflowError
                  ("days=" ++ PyStr.of_Z days ++ "; must have magnitude <= 999999999")) in
  match v with
  | PyInt m => check m
  | PyBool b => check (if b then 1 else 0)
  | other =>
      raise (mkExn TypeError
               ("unsupported type for timedelta minutes component: " ++ type_name other))
  end.

Definition reached (warn_threshold : Z) : string :=
  "Reached " ++ PyStr.of_Z warn_threshold ++ " warnings".

(** The last part of [warn], under its comment "Auto action": what the
    configured threshold asks for once the count is known. *)
Definition threshold_action (env : Env) (member : Member) (warning_count : Z) : M unit :=
  mod_cfg <- moderation_section env ;;
  let warn_threshold := int_setting mod_cfg "warn_threshold" 0 in
  let auto_action :=
    PyStr.lower (Py.str (Py.get_default "warn_threshold_action" (PyStr "none") mod_cfg)) in
  if (warn_threshold <=? 0) || String.eqb auto_action "none" then ret tt
  else if (warning_count >=? warn_threshold) && negb (String.eqb auto_action "none") then
    let announce (what : string) : M unit :=
      followup_send
        (text_payload ("⚠️ " ++ mention (m_id member) ++ " has been " ++ what
                       ++ " for reaching " ++ PyStr.of_Z warn_threshold ++ " warnings.")
                      false) in
    let forbidden (what : string) (e : Exn) : option (M unit) :=
      if isinstance e Forbidden then
        Some (followup_send (error_reply ("I don't have permission to " ++ what ++ " this member.")))
      else None in
    if String.eqb auto_action "timeout" then
      duration <- config_item env "moderation" "warn_threshold_timeout_duration" ;;
      try_except
        (td <- timedelta_minutes duration ;;
         platform (ETimeout (m_id member) (Some td) (reached warn_threshold))
                  (timeout_outcome env) ;;
         announce "timed out")
        (forbidden "timeout")
    else if String.eqb auto_action "kick" then
      try_except
        (platform (EKick (m_id member) (reached warn_threshold)) (kick_outcome env) ;;
         announce "kicked")
        (forbidden "kick")
    else if String.eqb auto_action "ban" then
      try_except
        (platform (EBan (m_id member) (reached warn_threshold)) (ban_outcome env) ;;
         announce "banned")
        (forbidden "ban")
    else ret tt
  else ret tt.

(** The embeds of [warn]: the public one and the one sent to the member. *)
Definition warned_embed (author member : Member) (warning_count : Z) (reason : string) : Embed :=
  mkEmbed (Some "Member Warned")
    (Some (mention (m_id member) ++ " has been warned.
**Total Warnings:** " ++ PyStr.of_Z warning_count ++ "
**Moderator:** " ++ mention (m_id author) ++ "
**Reason:** " ++ reason))
    Orange [].

Definition warning_dm (g : Guild) (warning_count : Z) (reason : string) : Embed :=
  mkEmbed (Some ("Warning in " ++ g_name g))
    (Some ("**Reason:** " ++ reason ++ "
**Total Warnings:** " ++ PyStr.of_Z warning_count))
    Orange [].

Definition warn (env : Env) (i : Interaction) (member : Member) (reason : string) : M unit :=
  match guild i, user i with
  | Some g, AsMember author =>
      if outranked g author member then
        _respond (error_reply "You cannot warn someone with a higher or equal role.")
      else
        _defer env true ;;
        db_write env OpAddWarning
          (Db.add_warning (g_id g) (m_id member) (m_id author) reason) ;;
        db_write env OpLogAction
          (Db.log_action (g_id g) "warn" (m_id member) (m_id author) (Some reason)) ;;
        warning_count <- db_read env OpGetWarningCount
                           (Db.get_warning_count (g_id g) (m_id member)) ;;
        let embed := warned_embed author member warning_count reason in
        _respond (embed_payload embed false) ;;
        _post_modlog env g embed ;;
        (* Try DM *)
        try_except
          (platform (EDirectMessage (m_id member) (warning_dm g warning_count reason))
                    (dm_outcome env))
          (fun _ => Some (ret tt)) ;;
        threshold_action env member warning_count
  | _, _ => _respond guild_only
  end.

(** One field of the [warnings] listing, for the row numbered [n]. *)
Definition warning_field (n : Z) (warning : list (string * PyVal)) : string * string :=
  let mod_id := Py.get "mod_id" warning in
  let mod_name := if Py.truthy mod_id then "<@" ++ Py.str mod_id ++ ">" else "Unknown" in
  ("Warning " ++ PyStr.of_Z n,
   "**Reason:** " ++ Py.str (Py.or_ (Py.get "reason" warning) (PyStr "No reason")) ++ "
**By:** " ++ mod_name ++ "
**Date:** " ++ Py.str (Py.get "timestamp" warning)).

(** [for i, warning in enumerate(rows, n)] *)
Fixpoint warning_fields (n : Z) (rows : list (list (string * PyVal))) : list (string * string) :=
  match rows with
  | [] => []
  | r :: rest => warning_field n r :: warning_fields (n + 1) rest
  end.

Definition warnings (env : Env) (i : Interaction) (member : Member) : M unit :=
  match guild i with
  | Some g =>
      _defer env true ;;
      fetched <- try_except
                   (rows <- _db_call env OpGetWarnings
                              (fun st => (Db.get_warnings (g_id g) (m_id member) st, st)) ;;
                    ret (Some rows))
                   (fun e =>
                      if isinstance e TimeoutError then
                        Some (_respond (error_reply
                                          "DB timed out while fetching warnings. Try again.") ;;
                              ret None)
                      else None) ;;
      match fetched with
      | None => ret tt
      | Some [] => _respond (text_payload (mention (m_id member) ++ " has no warnings.") true)
      | Some rows =>
          let embed :=
            mkEmbed (Some ("Warnings for " ++ m_name member))
              (Some ("Total warnings: " ++ PyStr.of_Z (Z.of_nat (List.length rows))))
              Orange (warning_fields 1 (firstn 10 rows)) in
          _respond (embed_payload embed true)
      end
  | None => _respond guild_only
  end.

Definition clearwarnings (env : Env) (i : Interaction) (member : Member) : M unit :=
  match guild i with
  | Some g =>
      _defer env true ;;
      fetched <- try_except
                   (cleared <- _db_call env OpClearWarnings
                                 (Db.clear_warnings (g_id g) (m_id member)) ;;
                    ret (Some cleared))
                   (fun e =>
                      if isinstance e TimeoutError then
                        Some (_respond (error_reply
                                          "DB timed out while clearing warnings. Try again.") ;;
                              ret None)
                      else None) ;;
      match fetched with
      | None => ret tt
      | Some cleared =>
          _respond (text_payload ("✅ Cleared " ++ PyStr.of_Z cleared ++ " warning(s) for "
                                  ++ mention (m_id member) ++ ".") true)
      end
  | None => _respond guild_only
  end.

Definition timeout (env : Env) (i : Interaction) (member : Member) (duration : Z)
    (reason : string) : M unit :=
  match guild i, user i with
  | Some g, AsMember author =>
      if outranked g author member then
        _respond (error_reply "You cannot timeout someone with a higher or equal role.")
      else
        _defer env true ;;
        try_except
          (td <- timedelta_minutes (PyInt duration) ;;
           platform (ETimeout (m_id member) (Some td) (reason ++ by_line "Timed out" author))
                    (timeout_outcome env) ;;
           db_write env OpLogAction
             (Db.log_action (g_id g) "timeout" (m_id member) (m_id author) (Some reason)) ;;
           let embed :=
             mkEmbed (Some "Member Timed Out")
               (Some (mention (m_id member) ++ " has been timed out for "
                      ++ PyStr.of_Z duration ++ " minutes.
**Moderator:** " ++ mention (m_id author) ++ "
**Reason:** " ++ reason))
               Orange [] in
           _respond (embed_payload embed false) ;;
           _post_modlog env g embed)
          (fun e =>
             if isinstance e Forbidden then
               Some (_respond (error_reply "I don't have permission to timeout this member."))
             else if isinstance e HTTPException then
               Some (_respond (error_reply "Timeout failed due to a Discord API error."))
             else None)
  | _, _ => _respond guild_only
  end.

Definition untimeout (env : Env) (i : Interaction) (member : Member) : M unit :=
  match guild i, user i with
  | Some g, AsMember author =>
      _defer env true ;;
      try_except
        (platform (ETimeout (m_id member) None
                     ("Timeout removed by " ++ m_name author ++ " ("
                      ++ PyStr.of_Z (m_id author) ++ ")"))
                  (timeout_outcome env) ;;
         db_write env OpLogAction
           (Db.log_action (g_id g) "untimeout" (m_id member) (m_id author) None) ;;
         let embed :=
           mkEmbed (Some "Timeout Removed")
             (Some ("Timeout removed from " ++ mention (m_id member) ++ ".
**Moderator:** " ++ mention (m_id author)))
             Green [] in
         _respond (embed_payload embed false) ;;
         _post_modlog env g embed)
        (fun e =>
           if isinstance e Forbidden then
             Some (_respond (error_reply "I don't have permission to remove timeout."))
           else if isinstance e HTTPException then
             Some (_respond (error_reply "Untimeout failed due to a Discord API error."))
           else None)
  | _, _ => _respond guild_only
  end.

(** [mute] and [unmute] call [self.timeout(...)] and
    [self.untimeout(...)].  Inside the cog these names are the
    [app_commands.Command] objects the decorator made of the handlers,
    and a [Command] cannot be called: both raise before anything else
    happens. *)
Definition command_not_callable : Exn :=
  mkExn TypeError "'Command' object is not callable".

Definition mute (env : Env) (i : Interaction) (member : Member) (duration : Z)
    (reason : string) : M unit :=
  raise command_not_callable.

Definition unmute (env : Env) (i : Interaction) (member : Member) : M unit :=
  raise command_not_callable.

Definition is_none (v : PyVal) : bool :=
  match v with PyNone => true | _ => false end.

(** [hasattr(self.bot.db, ...)] for the two deletion methods. *)
Definition db_capabilities : M (bool * bool) :=
  fun w => (Ret (has_delete_warning (store w), has_remove_warning (store w)), w).

Definition unwarn (env : Env) (i : Interaction) (member : Member) : M unit :=
  match guild i with
  | Some g =>
      _defer env true ;;
      rows <- db_read env OpGetWarnings (Db.get_warnings (g_id g) (m_id member)) ;;
      match rows with
      | [] => _respond (error_reply "That member has no warnings.")
      | latest :: _ =>
          let wid := Py.or_ (Py.or_ (Py.get "id" latest) (Py.get "warning_id" latest))
                            (Py.get "_id" latest) in
          let finish : M unit :=
            new_count <- db_read env OpGetWarningCount
                           (Db.get_warning_count (g_id g) (m_id member)) ;;
            db_write env OpLogAction
              (Db.log_action (g_id g) "unwarn" (m_id member) (invoker_id (user i))
                             (Some "Removed latest warning")) ;;
            _respond (embed_payload
                        (create_success_embed
                           ("Removed 1 warning from " ++ mention (m_id member) ++ ". Now: "
                            ++ PyStr.of_Z new_count ++ "."))
                        true) in
          caps <- db_capabilities ;;
          if negb (is_none wid) && fst caps then
            db_write env OpDeleteWarning (Db.delete_warning (g_id g) wid) ;; finish
          else if snd caps then
            db_write env OpRemoveWarning (Db.remove_warning (g_id g) (m_id member)) ;; finish
          else
            _respond (error_reply
                        "Unwarn is not supported by your DB backend. Use /clearwarnings instead.")
      end
  | None => _respond guild_only
  end.

Definition features_embed : Embed :=
       (mkEmbed (Some "Bot Features (loaded from this cog)")
          (Some "**Moderation (slash):**
- /kick (role checks, DB log, optional modlog)
- /ban (confirmation UI, DB log, optional modlog)
- /unban (by user ID/mention, DB log, optional modlog)
- /warn (stores warnings, DB log, DM attempt, optional threshold auto-action)
- /warnings (view warnings)
- /clearwarnings (admin-only)
- /timeout, /untimeout (DB log, optional modlog)

**Operational:**
- Optional slash command sync on cog load (config-driven)
- Shared app-command error handler (safe followups)
- Modlog posting to configured log channel
")
          Blurple []).

Definition features (i : Interaction) : M unit :=
  _respond (embed_payload features_embed true).

(** [interaction.response.defer(ephemeral=True)], called directly: a
    failure is not swallowed, and a second acknowledgement is refused. *)
Definition response_defer (env : Env) (eph : bool) : M unit :=
  done <- is_done ;;
  if done then
    raise (mkExn OtherException "This interaction has already been responded to before")
  else platform (EDefer eph) (defer_outcome env) ;; set_done.

Definition channel_purge (env : Env) (channel_id limit : Z) : M Z :=
  emit (EPurge channel_id limit) ;;
  match purge_outcome env with
  | inl e => raise e
  | inr deleted => ret deleted
  end.

Definition purge (env : Env) (i : Interaction) (amount : Z) : M unit :=
  match guild i with
  | Some g =>
      mod_cfg <- moderation_section env ;;
      let max_amount := int_setting mod_cfg "max_purge_amount" 100 in
      if amount >? max_amount then
        _respond (error_reply ("Max purge amount is " ++ PyStr.of_Z max_amount ++ "."))
      else
        response_defer env true ;;
        match channel i with
        | ChannelWithPurge channel_id =>
            try_except
              (deleted <- channel_purge env channel_id amount ;;
               followup_send
                 (embed_payload
                    (create_success_embed ("Deleted **" ++ PyStr.of_Z deleted ++ "** messages."))
                    true) ;;
               db_write env OpLogAction
                 (Db.log_action (g_id g) "purge" (invoker_id (user i)) (invoker_id (user i))
                                (Some ("Purged " ++ PyStr.of_Z deleted ++ " messages"))))
              (fun e =>
                 if isinstance e Forbidden then
                   Some (followup_send
                           (error_reply "I don't have permission to delete messages here."))
                 else if isinstance e HTTPException then
                   Some (followup_send
                           (error_reply "Failed to delete messages. Messages might be too old."))
                 else None)
        | _ =>
            followup_send (error_reply "This command can only be used in a text-based channel.")
        end
  | None => _respond guild_only
  end.

(** [on_app_command_error], with [error] already unwrapped to the
    exception the handler raised. *)
Definition on_app_command_error (error : Exn) : M unit :=
  if isinstance error MissingPermissions then
    _respond (text_payload "❌ You don’t have permission to use this command." true)
  else
    _respond (text_payload ("❌ Error: " ++ ex_text error) true).

(** A command as the dispatcher runs it: an exception that leaves the
    handler goes to the error handler registered for every command. *)
Definition invoke (command : M unit) : M unit :=
  try_except command (fun e => Some (on_app_command_error e)).

(** All thirteen slash commands with their arguments. *)
Inductive Command : Type :=
| Kick (member : Member) (reason : string)
| Ban (member : Member) (reason : string)
| Unban (user_id : string)
| Warn (member : Member) (reason : string)
| Warnings (member : Member)
| ClearWarnings (member : Member)
| Timeout (member : Member) (duration : Z) (reason : string)
| Untimeout (member : Member)
| Mute (member : Member) (duration : Z) (reason : string)
| Unmute (member : Member)
| Unwarn (member : Member)
| Features
| Purge (amount : Z).

Definition handler (env : Env) (i : Interaction) (c : Command) : M unit :=
  match c with
  | Kick m r => kick env i m r
  | Ban m r => ban env i m r
  | Unban u => unban env i u
  | Warn m r => warn env i m r
  | Warnings m => warnings env i m
  | ClearWarnings m => clearwarnings env i m
  | Timeout m d r => timeout env i m d r
  | Untimeout m => untimeout env i m
  | Mute m d r => mute env i m d r
  | Unmute m => unmute env i m
  | Unwarn m => unwarn env i m
  | Features => features i
  | Purge a => purge env i a
  end.

(** Running the handler of a command on a fresh interaction over the
    store [st], for an invocation that passed the command's permission
    check. *)
Definition run (env : Env) (i : Interaction) (c : Command) (st : Store) : Result unit * World :=
  invoke (handler env i c) (init_world st).

(** The permissions the commands ask for with
    [@app_commands.checks.has_permissions(...)]. *)
Inductive Permission : Type :=
| KickMembers | BanMembers | ModerateMembers | Administrator | ManageMessages.

Definition permission_name (p : Permission) : string :=
  match p with
  | KickMembers => "Kick Members"
  | BanMembers => "Ban Members"
  | ModerateMembers => "Moderate Members"
  | Administrator => "Administrator"
  | ManageMessages => "Manage Messages"
  end.

(** The decorator of each command; [features] has none. *)
Definition required (c : Command) : option Permission :=
  match c with
  | Kick _ _ => Some KickMembers
  | Ban _ _ | Unban _ => Some BanMembers
  | Warn _ _ | Warnings _ | Timeout _ _ _ | Untimeout _ | Mute _ _ _ | Unmute _
  | Unwarn _ => Some ModerateMembers
  | ClearWarnings _ => Some Administrator
  | Purge _ => Some ManageMessages
  | Features => None
  end.

(** The check runs before the handler: [granted] is what
    [interaction.permissions] holds for the invoker, and a missing
    permission raises [MissingPermissions]. *)
Definition has_permissions (granted : Permission -> bool) (c : Command) : M unit :=
  match required c with
  | Some p =>
      if granted p then ret tt
      else raise (mkExn MissingPermissions
                    ("You are missing " ++ permission_name p
                     ++ " permission(s) to run this command."))
  | None => ret tt
  end.


(** ** Replies of the guards *)

Definition hierarchy_error (verb : string) : Payload :=
  error_reply ("You cannot " ++ verb ++ " someone with a higher or equal role.").

Definition owner_error (verb : string) : Payload :=
  error_reply ("You cannot " ++ verb ++ " the server owner.").

Definition invalid_user_id : Payload := error_reply "Please provide a valid user ID.".

Definition unwarn_unsupported : Payload :=
  error_reply "Unwarn is not supported by your DB backend. Use /clearwarnings instead.".

Definition is_send (ev : Event) : bool :=
  match ev with ESend _ _ => true | _ => false end.

(** A run that rejects with [p]: the first call is [p], sent as the
    initial response, every call is a message on the interaction, and
    the store is as it was. *)
Definition rejects (outcome : Result unit * World) (st : Store) (p : Payload) : Prop :=
  hd_error (calls (snd outcome)) = Some (ESend false p) /\
  forallb is_send (calls (snd outcome)) = true /\
  store (snd outcome) = st.

(** What [on_app_command_error] says for the exception [e]. *)
Definition reported (e : Exn) : Payload :=
  if isinstance e MissingPermissions then
    text_payload "❌ You don’t have permission to use this command." true
  else text_payload ("❌ Error: " ++ ex_text e) true.

(** Calls that act on a member, a user or a channel's messages. *)
Definition is_moderation_call (ev : Event) : bool :=
  match ev with
  | EKick _ _ | EBan _ _ | ETimeout _ _ _ | EUnban _ | EPurge _ _ => true
  | _ => false
  end.

Definition moderation_calls (w : World) : list Event := filter is_moderation_call (calls w).

Definition is_ban_call (ev : Event) : bool :=
  match ev with EBan _ _ => true | _ => false end.

Definition ban_calls (w : World) : list Event := filter is_ban_call (calls w).

(** Whether the deferral went through. *)
Definition acknowledged (env : Env) : bool :=
  match defer_outcome env with None => true | Some _ => false end.

(** The store answers the operation without raising. *)
Definition db_works (env : Env) (op : DbOp) : Prop :=
  forall e, db_outcome env op <> DbRaises e.

(** What [_post_modlog] sends, given the settings it read. *)
Definition modlog_events (g : Guild) (st : Store) (e : Embed) : list Event :=
  match log_channel (Db.get_server_settings (g_id g) st) with
  | None => []
  | Some c => if c =? 0 then []
              else if existsb (Z.eqb c) (g_channels g) then [EChannelSend c e] else []
  end.


(** ** Sample inputs *)

Module Sample.

Definition owner_m : Member := mkMember 100 "olga" 9.
Definition mod_m : Member := mkMember 200 "max" 5.
Definition peer_m : Member := mkMember 201 "pia" 5.
Definition user_m : Member := mkMember 300 "uri" 1.

Definition guild0 : Guild := mkGuild 1 "lounge" 100 (Some owner_m) [55].

Definition by_mod : Interaction := mkInteraction (Some guild0) (AsMember mod_m) (ChannelWithPurge 7).
Definition by_owner : Interaction := mkInteraction (Some guild0) (AsMember owner_m) (ChannelWithPurge 7).
Definition by_stranger : Interaction := mkInteraction (Some guild0) (AsUser 400 "sam") (ChannelWithPurge 7).
Definition in_dm : Interaction := mkInteraction None (AsUser 400 "sam") (ChannelWithPurge 7).

(** A store with both deletion methods and nothing recorded. *)
Definition empty_store : Store := mkStore [] [] [] 1 true true.

(** The same store with one warning against [user_m]. *)
Definition one_warning : Store := Db.add_warning 1 300 200 "spam" empty_store.

(** Every call goes through, the store answers in time, the moderator
    accepts the confirmation, and there is no configuration. *)
Definition calm : Env :=
  mkEnv None (fun _ => DbOk) None None None None None None None None None Accepted (inr 0).

Definition with_config (cfg : PyVal) (env : Env) : Env :=
  mkEnv (Some cfg) (db_outcome env) (defer_outcome env) (kick_outcome env) (ban_outcome env)
        (timeout_outcome env) (fetch_user_outcome env) (unban_outcome env) (dm_outcome env)
        (modlog_send_outcome env) (original_response_outcome env) (confirm_outcome env)
        (purge_outcome env).

Definition with_ban_outcome (o : option Exn) (env : Env) : Env :=
  mkEnv (bot_config env) (db_outcome env) (defer_outcome env) (kick_outcome env) o
        (timeout_outcome env) (fetch_user_outcome env) (unban_outcome env) (dm_outcome env)
        (modlog_send_outcome env) (original_response_outcome env) (confirm_outcome env)
        (purge_outcome env).

Definition with_db (f : DbOp -> DbOutcome) (env : Env) : Env :=
  mkEnv (bot_config env) f (defer_outcome env) (kick_outcome env) (ban_outcome env)
        (timeout_outcome env) (fetch_user_outcome env) (unban_outcome env) (dm_outcome env)
        (modlog_send_outcome env) (original_response_outcome env) (confirm_outcome env)
        (purge_outcome env).

Definition missing_permissions : Exn := mkExn Forbidden "403 Forbidden (error code: 50013): Missing Permissions".

End Sample.

(** ** Observations on coroutines *)

(** [emits P m]: whatever the world, [m] only adds calls to the end of
    the list of calls, and every call it adds satisfies [P]. *)
Definition emits (P : Event -> bool) {A} (m : M A) : Prop :=
  forall w, exists l, calls (snd (m w)) = (calls w ++ l)%list /\ forallb P l = true.

Definition any_call (ev : Event) : bool := true.

(** The store once [warn] has recorded the warning and the action. *)
Definition warned_store (g : Guild) (author member : Member) (reason : string) (st : Store) : Store :=
  Db.log_action (g_id g) "warn" (m_id member) (m_id author) (Some reason)
    (Db.add_warning (g_id g) (m_id member) (m_id author) reason st).

(** The count the warn command reads back after recording a warning. *)
Definition updated_count (g : Guild) (author member : Member) (reason : string) (st : Store) : Z :=
  Db.get_warning_count (g_id g) (m_id member) (warned_store g author member reason st).

Module Sample3.

(** [warn_threshold=3], [warn_threshold_action="timeout"],
    [warn_threshold_timeout_duration=60]. *)
Definition config : PyVal :=
  PyDict [("moderation",
           PyDict [("warn_threshold", PyInt 3);
                   ("warn_threshold_action", PyStr "timeout");
                   ("warn_threshold_timeout_duration", PyInt 60)])].

Definition env : Env := Sample.with_config config Sample.calm.

(** The store after the command ran on [st]. *)
Definition after (c : Command) (st : Store) : Store :=
  store (snd (run env Sample.by_mod c st)).

Definition warned (c : Command) (st : Store) : list Event :=
  moderation_calls (snd (run env Sample.by_mod c st)).

Definition w1 : Store := after (Warn Sample.user_m "spam") Sample.empty_store.
Definition w2 : Store := after (Warn Sample.user_m "spam") w1.
Definition w3 : Store := after (Warn Sample.user_m "spam") w2.

End Sample3.

(** Whether [interaction.original_response()] returned the prompt. *)
Definition prompt_fetched (env : Env) : bool :=
  match original_response_outcome env with None => true | Some _ => false end.

(** The confirmation prompt of [ban]. *)
Definition ban_prompt (member : Member) : Payload :=
  mkPayload (Some ("Are you sure you want to ban " ++ mention (m_id member) ++ "?"))
            None true true.

(** The calls of [ban] up to the moderator's decision. *)
Definition ban_prompted (member : Member) : list Event :=
  [ESend false (ban_prompt member); EConfirmWait; EOriginalResponse].

(** The call [ban] issues once the moderator accepted. *)
Definition ban_call (author member : Member) (reason : string) : Event :=
  EBan (m_id member) (reason ++ by_line "Banned" author).

(** The audit row of a ban. *)
Definition ban_entry (g : Guild) (author member : Member) (reason : string) : ActionLogEntry :=
  mkAction (g_id g) "ban" (m_id member) (m_id author) (Some reason).

Definition not_ban_call (ev : Event) : bool := negb (is_ban_call ev).

(** [keeps_store m]: [m] leaves the persistent store as it found it. *)
Definition keeps_store {A} (m : M A) : Prop :=
  forall w, store (snd (m w)) = store w.

(** A platform call whose issue has been recorded: only its answer is
    left to come. *)
Definition answer (o : option Exn) : M unit :=
  match o with
  | None => ret tt
  | Some e => raise e
  end.

Module Sample5.

(** A threshold and the action "timeout", and no
    [warn_threshold_timeout_duration]. *)
Definition config : PyVal :=
  PyDict [("moderation",
           PyDict [("warn_threshold", PyInt 1);
                   ("warn_threshold_action", PyStr "timeout")])].

Definition env : Env := Sample.with_config config Sample.calm.

End Sample5.

Module Sample6.

(** The settings read of the store fails; everything else goes through. *)
Definition db (op : DbOp) : DbOutcome :=
  match op with
  | OpGetServerSettings => DbRaises (mkExn OtherException "database is locked")
  | _ => DbOk
  end.

Definition env : Env := Sample.with_db db Sample.calm.

Definition kicked : Embed :=
  mkEmbed (Some "Member Kicked")
    (Some "<@300> has been kicked.
**Moderator:** <@200>
**Reason:** spam")
    Orange [].

End Sample6.

(** The answer of a successful [unwarn] that leaves [new_count] warnings. *)
Definition unwarned (member : Member) (new_count : Z) : Payload :=
  embed_payload
    (create_success_embed
       ("Removed 1 warning from " ++ mention (m_id member) ++ ". Now: "
        ++ PyStr.of_Z new_count ++ "."))
    true.

Module Sample7.

(** Stores holding one warning against [Sample.user_m]: one with only
    the coarse removal, one with no way to delete. *)
Definition coarse_only : Store :=
  mkStore (warnings_table Sample.one_warning) [] [] 2 false true.

Definition no_deletion : Store :=
  mkStore (warnings_table Sample.one_warning) [] [] 2 false false.

End Sample7.






(** ** The cleaning of a user identifier, in the words of the claims *)

Module Cleaning.

(** The whitespace of ASCII text: TAB, LF, VT, FF, CR, the separators
    FS, GS, RS, US, and the space. *)
Definition whitespace : list ascii :=
  map ascii_of_nat [9; 10; 11; 12; 13; 28; 29; 30; 31; 32]%nat.

Definition is_whitespace (c : ascii) : bool := existsb (Ascii.eqb c) whitespace.

(** Dropping the whitespace in front. *)
Fixpoint drop_leading (l : list ascii) : list ascii :=
  match l with
  | c :: l' => if is_whitespace c then drop_leading l' else l
  | [] => []
  end.

(** Stripping the surrounding whitespace: in front, and, read
    backwards, behind. *)
Definition stripped (s : string) : string :=
  string_of_list_ascii
    (rev (drop_leading (rev (drop_leading (list_ascii_of_string s))))).

(** Deleting every occurrence of the one-character string [c]. *)
Fixpoint delete_char (c : ascii) (s : string) : string :=
  match s with
  | EmptyString => EmptyString
  | String x s' => if Ascii.eqb x c then delete_char c s' else String x (delete_char c s')
  end.

(** Deleting every occurrence of "<@", read from the left. *)
Fixpoint delete_mention (s : string) : string :=
  match s with
  | EmptyString => EmptyString
  | String x s' =>
      match s' with
      | String y s'' =>
          if Ascii.eqb x "<" && Ascii.eqb y "@" then delete_mention s''
          else String x (delete_mention s')
      | EmptyString => String x EmptyString
      end
  end.

(** Stripping the surrounding whitespace, then deleting every "<@",
    every ">" and every "!". *)
Definition decorations_deleted (s : string) : string :=
  delete_char "!" (delete_char ">" (delete_mention (stripped s))).





End Cleaning.

From Stdlib Require DecimalPos.

(** ** Further observations on the moderation commands *)

(** What [_respond] comes to when it is given no view: after a
    response or a deferral nothing is sent; before, the message is sent
    and the interaction stays unmarked.  Either way it raises. *)
Definition unanswered {A} (p : Payload) : M A :=
  fun w =>
    if responded w then (Raise no_view_in_followup, w)
    else (Raise no_view_after_response,
          mkWorld (store w) (calls w ++ [ESend false p]) false).

(** The end of a run whose handler stopped at an answer [p] given
    through [_respond] without a view: the error handler takes the
    exception and fails the same way. *)
Definition lost_answer (p : Payload) (w : World) : Result unit * World :=
  invoke (unanswered p) w.

(** What a run leaves behind that got as far as the answer [p], given
    through [_respond] without a view after [_defer] and the calls
    [cs]: the store [st] and an exception.  After a deferral that went
    through nothing is sent; after one that failed, [p] is handed to
    the platform as the initial response. *)
Definition answer_lost (env : Env) (outcome : Result unit * World) (st : Store)
    (cs : list Event) (p : Payload) : Prop :=
  store (snd outcome) = st /\
  (exists e, fst outcome = Raise e) /\
  (if acknowledged env then calls (snd outcome) = EDefer true :: cs
   else exists rest,
          calls (snd outcome) = (EDefer true :: cs ++ ESend false p :: rest)%list).

(** [never_returns m]: [m] ends with an exception from every world. *)
Definition never_returns {A} (m : M A) : Prop :=
  forall w, exists e, fst (m w) = Raise e.

Definition is_purge_call (ev : Event) : bool :=
  match ev with EPurge _ _ => true | _ => false end.

Definition not_moderation_call (ev : Event) : bool := negb (is_moderation_call ev).

(** The answer of [purge] to a request above the configured maximum. *)
Definition purge_too_many (max_amount : Z) : Payload :=
  error_reply ("Max purge amount is " ++ PyStr.of_Z max_amount ++ ".").

(** The public answer of a successful [kick]. *)
Definition kicked_embed (author member : Member) (reason : string) : Embed :=
  mkEmbed (Some "Member Kicked")
    (Some (mention (m_id member) ++ " has been kicked.
**Moderator:** " ++ mention (m_id author) ++ "
**Reason:** " ++ reason))
    Orange [].

(** The embed of a successful [ban]. *)
Definition banned_embed (author member : Member) (reason : string) : Embed :=
  mkEmbed (Some "Member Banned")
    (Some (mention (m_id member) ++ " has been banned.
**Moderator:** " ++ mention (m_id author) ++ "
**Reason:** " ++ reason))
    Red [].

(** The world in which an accepted ban, issued and recorded, has
    edited its prompt into the result and turns to the log channel. *)
Definition banned_world (g : Guild) (author member : Member) (reason : string) (st : Store)
    : World :=
  mkWorld (Db.log_action (g_id g) "ban" (m_id member) (m_id author) (Some reason) st)
          (ban_prompted member
           ++ [ban_call author member reason;
               EEdit None (Some (banned_embed author member reason))])
          true.



(** The commands whose every path ends in [_respond] without a view,
    or in an exception raised before: all of them but [ban], which
    edits its prompt, and [purge], which answers through
    [interaction.followup.send]. *)
Definition ends_in_respond (c : Command) : bool :=
  match c with
  | Ban _ _ | Purge _ => false
  | _ => true
  end.

Module Sample2.

(** The guild of [Sample.guild0] when its owner is not in the member
    cache: [guild.owner] is [None], [guild.owner_id] is still 100. *)
Definition uncached : Guild := mkGuild 1 "lounge" 100 None [55].

(** The owner, whose highest role is below the moderator's. *)
Definition low_owner : Member := mkMember 100 "olga" 2.

Definition by_mod : Interaction :=
  mkInteraction (Some uncached) (AsMember Sample.mod_m) (ChannelWithPurge 7).

End Sample2.

Module Sample8.

(** [max_purge_amount=50]. *)
Definition config : PyVal := PyDict [("moderation", PyDict [("max_purge_amount", PyInt 50)])].

Definition env : Env := Sample.with_config config Sample.calm.

End Sample8.

(** Whether [purge] gets as far as deleting: the amount is within the
    configured maximum, the acknowledgement goes through, and the
    channel can purge. *)
Definition purge_goes_ahead (env : Env) (i : Interaction) (max_amount amount : Z) : option Z :=
  if amount >? max_amount then None
  else match defer_outcome env, channel i with
       | None, ChannelWithPurge c => Some c
       | _, _ => None
       end.

Module Sample9.

(** [max_purge_amount=50], and the platform deletes 42 messages. *)
Definition env : Env :=
  Sample.with_config Sample8.config
    (mkEnv None (fun _ => DbOk) None None None None None None None None None Accepted (inr 42)).

End Sample9.

(** The names of the fields of a warnings listing with [n] entries. *)
Definition warning_names (n : nat) : list string :=
  map (fun j => "Warning " ++ PyStr.of_Z (Z.of_nat j)) (seq 1 n).

(** The answer of [clearwarnings]. *)
Definition cleared_reply (member : Member) (cleared : Z) : Payload :=
  text_payload ("✅ Cleared " ++ PyStr.of_Z cleared ++ " warning(s) for "
                ++ mention (m_id member) ++ ".") true.

Definition no_warnings_reply (member : Member) : Payload :=
  text_payload (mention (m_id member) ++ " has no warnings.") true.

Module Sample10.

(** [n] warnings against [Sample.user_m], recorded one after the other. *)
Fixpoint warned_times (n : nat) : Store :=
  match n with
  | O => Sample.empty_store
  | S k => Db.add_warning 1 300 200 "spam" (warned_times k)
  end.

(** The deferral fails; every other call goes through. *)
Definition undeferred : Env :=
  mkEnv None (fun _ => DbOk) (Some (mkExn HTTPException "503 Service Unavailable"))
        None None None None None None None None Accepted (inr 0).

End Sample10.



(** The shape shared by kick, timeout and untimeout after their guards:
    the platform call, the audit row, the public answer and the copy to
    the log channel, under handlers that answer with an error. *)
Definition logged_action (env : Env) (g : Guild) (ev : Event) (o : option Exn)
    (entry : Store -> Store) (embed : Embed) : M unit :=
  (platform ev o ;;
   db_write env OpLogAction entry ;;
   _respond (embed_payload embed false) ;;
   _post_modlog env g embed)%cog.

(** The answer to a failed platform call: the message of the handler
    that catches the exception, or the report of the error handler. *)
Definition failure_reply (on_failure : Exn -> option string) (e : Exn) : Payload :=
  match on_failure e with
  | Some message => error_reply message
  | None => reported e
  end.

(** The two handlers of kick, timeout, untimeout and purge. *)
Definition forbidden_or_http (forbidden http : string) (e : Exn) : option string :=
  if isinstance e Forbidden then Some forbidden
  else if isinstance e HTTPException then Some http
  else None.

Definition timed_out_embed (author member : Member) (duration : Z) (reason : string) : Embed :=
  mkEmbed (Some "Member Timed Out")
    (Some (mention (m_id member) ++ " has been timed out for "
           ++ PyStr.of_Z duration ++ " minutes.
**Moderator:** " ++ mention (m_id author) ++ "
**Reason:** " ++ reason))
    Orange [].

Definition timeout_removed_embed (author member : Member) : Embed :=
  mkEmbed (Some "Timeout Removed")
    (Some ("Timeout removed from " ++ mention (m_id member) ++ ".
**Moderator:** " ++ mention (m_id author)))
    Green [].

(** The three handlers of unban, in the order of the source. *)
Definition unban_failures (e : Exn) : option string :=
  if isinstance e NotFound then Some "User not found or not banned."
  else if isinstance e Forbidden then Some "I don't have permission to unban users."
  else if isinstance e HTTPException then Some "Unban failed due to a Discord API error."
  else None.

Definition unbanned_embed (author : Member) (uid : Z) : Embed :=
  mkEmbed (Some "User Unbanned")
    (Some (mention uid ++ " has been unbanned.
**Moderator:** " ++ mention (m_id author)))
    Green [].

Module Sample11.

Definition unknown_user : Exn := mkExn NotFound "404 Not Found (error code: 10013): Unknown User".

(** The user cannot be fetched. *)
Definition env : Env :=
  mkEnv None (fun _ => DbOk) None None None None (Some unknown_user) None None None None
        Accepted (inr 0).

End Sample11.

(** The number a decimal numeral denotes, read from the left. *)
Fixpoint uint_value (acc : Z) (d : Decimal.uint) : Z :=
  match d with
  | Decimal.Nil => acc
  | Decimal.D0 l => uint_value (10 * acc) l
  | Decimal.D1 l => uint_value (10 * acc + 1) l
  | Decimal.D2 l => uint_value (10 * acc + 2) l
  | Decimal.D3 l => uint_value (10 * acc + 3) l
  | Decimal.D4 l => uint_value (10 * acc + 4) l
  | Decimal.D5 l => uint_value (10 * acc + 5) l
  | Decimal.D6 l => uint_value (10 * acc + 6) l
  | Decimal.D7 l => uint_value (10 * acc + 7) l
  | Decimal.D8 l => uint_value (10 * acc + 8) l
  | Decimal.D9 l => uint_value (10 * acc + 9) l
  end.

(** [c * n] *)
Fixpoint repeat_char (c : ascii) (n : nat) : string :=
  match n with
  | O => EmptyString
  | S k => String c (repeat_char c k)
  end.


(** The ways the spec lists to write a user identifier: the bare
    number, the mention and the nickname mention. *)
Definition written_ids (uid : Z) : list string :=
  [PyStr.of_Z uid; "<@" ++ PyStr.of_Z uid ++ ">"; "<@!" ++ PyStr.of_Z uid ++ ">"].

(** * The setup cog ([cogs/setup.py]) *)

(** The two fields of a Server Settings record that the cog updates,
    which the source names by the keys "log_channel" and
    "welcome_channel". *)
Inductive SettingKey : Type := LogChannelKey | WelcomeChannelKey.

Definition key_name (k : SettingKey) : string :=
  match k with
  | LogChannelKey => "log_channel"
  | WelcomeChannelKey => "welcome_channel"
  end.

Module SettingsDb.

Definition set_field (k : SettingKey) (value : Z) (s : ServerSettings) : ServerSettings :=
  match k with
  | LogChannelKey => mkSettings (Some value) (welcome_channel s)
  | WelcomeChannelKey => mkSettings (log_channel s) (Some value)
  end.

Fixpoint update_rows (g : Z) (k : SettingKey) (value : Z) (rows : list (Z * ServerSettings))
    : list (Z * ServerSettings) :=
  match rows with
  | [] => [(g, set_field k value (mkSettings None None))]
  | r :: rest =>
      if fst r =? g then (g, set_field k value (snd r)) :: rest
      else r :: update_rows g k value rest
  end.

(** Modelled from the spec: the store module is not among the sources.
    [updateServerSetting(guildId, key, value)] is the per-field update
    of the guild's Server Settings record: it sets that one field, in
    the record of that guild, which it creates when no row exists. *)
Definition update_server_setting (g : Z) (k : SettingKey) (value : Z) (st : Store) : Store :=
  mkStore (warnings_table st) (action_log st) (update_rows g k value (settings_table st))
          (clock st) (has_delete_warning st) (has_remove_warning st).

End SettingsDb.

(** [channel.mention] of a guild channel. *)
Definition channel_mention (id : Z) : string := "<#" ++ PyStr.of_Z id ++ ">".

Module SetupCog.

(** [_defer], as the moderation cog has it. *)
Definition _defer (env : Env) (eph : bool) : M unit :=
  done <- is_done ;;
  if done then ret tt
  else try_except
         (platform (EDefer eph) (defer_outcome env) ;; set_done)
         (fun _ => Some (ret tt)).

(** [interaction.guild.id]: the handlers read it without a guard. *)
Definition guild_id (i : Interaction) : M Z :=
  match guild i with
  | Some g => ret (g_id g)
  | None => raise (mkExn AttributeError "'NoneType' object has no attribute 'id'")
  end.

(** [await self.bot.db.update_server_setting(...)], awaited directly:
    [update] is how the coroutine ends. *)
Definition update_server_setting (update : DbOutcome) (g : Z) (k : SettingKey) (value : Z)
    : M unit :=
  match update with
  | DbRaises e => raise e
  | _ => fun w => (Ret tt, mkWorld (SettingsDb.update_server_setting g k value (store w))
                             (calls w) (responded w))
  end.

Definition setup_logchannel (env : Env) (update : DbOutcome) (i : Interaction) (channel : Z)
    : M unit :=
  _defer env true ;;
  g <- guild_id i ;;
  update_server_setting update g LogChannelKey channel ;;
  followup_send
    (embed_payload
       (create_success_embed ("Mod log channel set to " ++ channel_mention channel ++ "!")) true).

Definition setup_welcomechannel (env : Env) (update : DbOutcome) (i : Interaction) (channel : Z)
    : M unit :=
  _defer env true ;;
  g <- guild_id i ;;
  update_server_setting update g WelcomeChannelKey channel ;;
  followup_send
    (embed_payload
       (create_success_embed ("Welcome channel set to " ++ channel_mention channel ++ "!")) true).

(** [guild.get_channel(id).mention if ... else "Not set"], for a stored
    value [settings.get(key)]: a missing or zero value is not looked
    up, and a channel the guild does not resolve gives [None]. *)
Definition shown_channel (g : Guild) (stored : option Z) : string :=
  match stored with
  | None => "Not set"
  | Some id =>
      if id =? 0 then "Not set"
      else if existsb (Z.eqb id) (g_channels g) then channel_mention id
      else "Not set"
  end.

Definition config_embed (g : Guild) (settings : ServerSettings) : Embed :=
  mkEmbed (Some "⚙️ Server Configuration") None Blue
          [("Mod Log Channel", shown_channel g (log_channel settings));
           ("Welcome Channel", shown_channel g (welcome_channel settings))].

Definition setup_config (env : Env) (i : Interaction) : M unit :=
  _defer env true ;;
  match guild i with
  | None => raise (mkExn AttributeError "'NoneType' object has no attribute 'id'")
  | Some g =>
      settings <- db_read env OpGetServerSettings (Db.get_server_settings (g_id g)) ;;
      followup_send (embed_payload (config_embed g settings) true)
  end.

(** [cog_app_command_error], with [error] already unwrapped to the
    exception behind a [CommandInvokeError]. *)
Definition cog_app_command_error (error : Exn) : M unit :=
  done <- is_done ;;
  let send (p : Payload) : M unit :=
    if done then followup_send p else (emit (ESend false p) ;; set_done) in
  if isinstance error MissingPermissions then
    send (embed_payload (create_error_embed "You need Administrator permission.") true)
  else
    send (embed_payload (create_error_embed (ex_text error)) true).

Inductive Command : Type :=
| LogChannel (channel : Z)
| WelcomeChannel (channel : Z)
| Config.

Definition handler (env : Env) (update : DbOutcome) (i : Interaction) (c : Command) : M unit :=
  match c with
  | LogChannel channel => setup_logchannel env update i channel
  | WelcomeChannel channel => setup_welcomechannel env update i channel
  | Config => setup_config env i
  end.

(** [@app_commands.checks.has_permissions(administrator=True)]: the
    check runs before the handler and raises [MissingPermissions] for an
    invoker without the permission. *)
Definition has_permissions (administrator : bool) : M unit :=
  if administrator then ret tt
  else raise (mkExn MissingPermissions
                "You are missing Administrator permission(s) to run this command.").

(** A setup command as the dispatcher runs it on a fresh interaction:
    the check, then the handler, and an exception of either goes to the
    cog's error handler. *)
Definition run (env : Env) (update : DbOutcome) (administrator : bool) (i : Interaction)
    (c : Command) (st : Store) : Result unit * World :=
  try_except (has_permissions administrator ;; handler env update i c)
             (fun e => Some (cog_app_command_error e)) (init_world st).

Definition confirmation (k : SettingKey) (channel : Z) : Payload :=
  embed_payload
    (create_success_embed
       (match k with
        | LogChannelKey => "Mod log channel set to "
        | WelcomeChannelKey => "Welcome channel set to "
        end ++ channel_mention channel ++ "!")) true.

Definition command_of (k : SettingKey) (channel : Z) : Command :=
  match k with
  | LogChannelKey => LogChannel channel
  | WelcomeChannelKey => WelcomeChannel channel
  end.

End SetupCog.

(** The settings row of a guild among [rows], or the empty record. *)
Definition row_of (g : Z) (rows : list (Z * ServerSettings)) : ServerSettings :=
  match find (fun r => fst r =? g) rows with
  | Some r => snd r
  | None => mkSettings None None
  end.

(** The field of a settings record behind a key. *)
Definition field_of (k : SettingKey) (s : ServerSettings) : option Z :=
  match k with
  | LogChannelKey => log_channel s
  | WelcomeChannelKey => welcome_channel s
  end.

Definition other_key (k : SettingKey) : SettingKey :=
  match k with
  | LogChannelKey => WelcomeChannelKey
  | WelcomeChannelKey => LogChannelKey
  end.

Module Sample13.

(** A guild whose channels 55 and 56 resolve. *)
Definition guild2 : Guild := mkGuild 1 "lounge" 100 (Some Sample.owner_m) [55; 56].

Definition by_admin : Interaction :=
  mkInteraction (Some guild2) (AsMember Sample.owner_m) (ChannelWithPurge 7).

Definition store_down : Exn := mkExn OtherException "database is locked".

End Sample13.

(** * Registration of the commands at load ([cog_load]) *)

(** Calls to [bot.tree.sync]: for every guild, or for one. *)
Inductive SyncCall : Type :=
| SyncGlobal
| SyncGuild (gid : Z).

(** The loop over [guild_ids], from the [n]-th sync call on.
    [sync_outcome k] is how the [k]-th call to [tree.sync] ends.  An
    exception of [int(gid)] or of a sync leaves the loop, and the
    [except Exception: pass] around it drops the exception. *)
Fixpoint sync_guilds (sync_outcome : nat -> option Exn) (n : nat) (guild_ids : list PyVal)
    : list SyncCall :=
  match guild_ids with
  | [] => []
  | gid :: rest =>
      match Py.int gid with
      | None => []
      | Some id =>
          SyncGuild id ::
          match sync_outcome n with
          | None => sync_guilds sync_outcome (S n) rest
          | Some _ => []
          end
      end
  end.

(** [cog_load]: the sync calls it issues.  It returns normally on every
    path.  The configuration holds lists, not tuples. *)
Definition cog_load (env : Env) (sync_outcome : nat -> option Exn) : list SyncCall :=
  let cfg := match bot_config env with
             | Some c => Py.or_ c (PyDict [])
             | None => PyDict []
             end in
  let discord_cfg := match cfg with
                     | PyDict kvs => Py.get_default "discord" (PyDict []) kvs
                     | _ => PyDict []
                     end in
  match discord_cfg with
  | PyDict d =>
      if negb (Py.truthy (Py.get "sync_app_commands" d)) then []
      else
        match Py.get "sync_guild_ids" d with
        | PyList (gid :: rest) => sync_guilds sync_outcome 0 (gid :: rest)
        | _ => [SyncGlobal]
        end
  | _ => []
  end.

(** A configuration that enables the sync for the listed guilds. *)
Definition sync_config (guild_ids : list Z) : PyVal :=
  PyDict [("discord", PyDict [("sync_app_commands", PyBool true);
                              ("sync_guild_ids", PyList (map PyInt guild_ids))])].

Definition is_global (c : SyncCall) : bool :=
  match c with SyncGlobal => true | SyncGuild _ => false end.

(** * The embed factory ([utils/embeds.py]) *)

Module PyTitle.

Definition is_upper (c : ascii) : bool :=
  let n := nat_of_ascii c in ((65 <=? n) && (n <=? 90))%nat.

Definition is_lower (c : ascii) : bool :=
  let n := nat_of_ascii c in ((97 <=? n) && (n <=? 122))%nat.

Definition is_cased (c : ascii) : bool := is_upper c || is_lower c.

Definition upper_char (c : ascii) : ascii :=
  if is_lower c then ascii_of_nat (nat_of_ascii c - 32) else c.

(** [s.title()] on ASCII text: a letter that follows a letter is lowered, any other
    letter is raised, and the rest is kept. *)
Fixpoint title_from (previous_is_cased : bool) (s : string) : string :=
  match s with
  | EmptyString => EmptyString
  | String c s' =>
      if is_cased c then
        String (if previous_is_cased then PyStr.lower_char c else upper_char c)
               (title_from true s')
      else String c (title_from false s')
  end.

Definition title (s : string) : string := title_from false s.

End PyTitle.

(** An embed whose fields carry their [inline] flag. *)
Record FieldEmbed : Type := mkFieldEmbed {
  fe_title : option string;
  fe_description : option string;
  fe_color : Color;
  fe_fields : list (string * string * bool)     (* name, value, inline *)
}.

Module EmbedFactory.

Definition success (title description : string) : FieldEmbed :=
  mkFieldEmbed (Some title) (Some description) Green [].

Definition error (title description : string) : FieldEmbed :=
  mkFieldEmbed (Some title) (Some description) Red [].

Definition info (title description : string) : FieldEmbed :=
  mkFieldEmbed (Some title) (Some description) Blue [].

Definition warning (title description : string) : FieldEmbed :=
  mkFieldEmbed (Some title) (Some description) Orange [].

Definition moderation_action (action : string) (moderator target : Member)
    (reason : option string) : FieldEmbed :=
  mkFieldEmbed
    (Some ("Moderation: " ++ PyTitle.title action)) None Orange
    ([("Target", mention (m_id target), true);
      ("Moderator", mention (m_id moderator), true)]
     ++ match reason with
        | Some r => if String.eqb r "" then [] else [("Reason", r, false)]
        | None => []
        end).

End EmbedFactory.

Definition create_info_embed (message : string) : Embed :=
  mkEmbed None (Some ("ℹ️ " ++ message)) Blue [].

Definition create_mod_embed (action : string) (moderator target : Member)
    (reason : option string) : FieldEmbed :=
  EmbedFactory.moderation_action action moderator target reason.

(** Letters raised: [s.upper()]. *)
Fixpoint upper (s : string) : string :=
  match s with
  | EmptyString => EmptyString
  | String c s' => String (PyTitle.upper_char c) (upper s')
  end.
(** * Properties *)

(** ** Text primitives on samples *)

Example strip_ex : PyStr.strip "  <@12>  " = "<@12>".
Proof. reflexivity. Qed.

Example replace_ex : PyStr.replace "<@" "" "a<@b<<@@c" = "ab<@c".
Proof. reflexivity. Qed.

Example of_Z_ex : PyStr.of_Z 305 = "305" /\ PyStr.of_Z (-7) = "-7" /\ PyStr.of_Z 0 = "0".
Proof. repeat split. Qed.

Example int_ex : PyStr.int_of_string " -1_000 " = Some (-1000)
  /\ PyStr.int_of_string "3.5" = None /\ PyStr.int_of_string "" = None
  /\ PyStr.int_of_string "1__0" = None /\ PyStr.int_of_string "007" = Some 7
  /\ PyStr.int_of_string "1_" = None /\ PyStr.int_of_string "_1" = None
  /\ PyStr.int_of_string "- 5" = None /\ PyStr.int_of_string "1 2" = None
  /\ PyStr.int_of_string "+12
" = Some 12.
Proof. repeat split. Qed.

(** The limit on the digits comes before the look at what follows
    them: 4301 digits and a letter exceed the limit, and a letter
    among the digits makes an invalid literal. *)
Example int_limit_ex :
  PyStr.int_parse (repeat_char "1" 4301 ++ "x")
  = inl ("Exceeds the limit (4300 digits) for integer string conversion: value has 4301 digits; use sys.set_int_max_str_digits() to increase the limit") /\
  PyStr.int_parse "12x34" = inl "invalid literal for int() with base 10: '12x34'" /\
  PyStr.int_parse (repeat_char "0" 4300) = inr 0.
Proof. repeat split; vm_compute; reflexivity. Qed.

(** [int] does not skip the separators FS to US, which [strip] removes. *)
Example int_separator_ex :
  PyStr.strip (String (ascii_of_nat 31) "60") = "60" /\
  PyStr.int_of_string (String (ascii_of_nat 31) "60") = None /\
  PyStr.int_of_string (String (ascii_of_nat 11) "60") = Some 60.
Proof. repeat split. Qed.

Example timedelta_ex :
  fst (timedelta_minutes (PyInt (2 ^ 53)) (init_world Sample.empty_store))
  = Raise (mkExn OverflowError "Python int too large to convert to C int") /\
  fst (timedelta_minutes (PyInt 1440000000000) (init_world Sample.empty_store))
  = Raise (mkExn OverflowError "days=1000000000; must have magnitude <= 999999999") /\
  fst (timedelta_minutes (PyInt (-1439999998560)) (init_world Sample.empty_store))
  = Ret (-1439999998560).
Proof. repeat split. Qed.

(** ** Running a coroutine step by step *)

Lemma bind_ret_eq {A B} (m : M A) (k : A -> M B) (w w' : World) (a : A) :
  m w = (Ret a, w') -> bind m k w = k a w'.
Proof. intros H. unfold bind. now rewrite H. Qed.

Lemma bind_raise_eq {A B} (m : M A) (k : A -> M B) (w w' : World) (e : Exn) :
  m w = (Raise e, w') -> bind m k w = (Raise e, w').
Proof. intros H. unfold bind. now rewrite H. Qed.

Lemma emit_eq (ev : Event) (w : World) :
  emit ev w = (Ret tt, mkWorld (store w) (calls w ++ [ev]) (responded w)).
Proof. reflexivity. Qed.

(** [_respond] with a view sends; without one it raises. *)
Lemma respond_view_eq (p : Payload) (w : World) :
  view p = true ->
  _respond p w = (Ret tt, mkWorld (store w) (calls w ++ [ESend (responded w) p]) true).
Proof.
  intros H. unfold _respond, bind, is_done, followup_send_view, send_message, bind, emit, set_done.
  destruct w as [st cs d]; cbn [responded store calls]. rewrite H.
  destruct d; reflexivity.
Qed.

Lemma respond_eq (p : Payload) (w : World) :
  view p = false -> _respond p w = unanswered p w.
Proof.
  intros H. unfold _respond, unanswered, bind, is_done, followup_send_view, send_message,
    bind, emit, raise.
  destruct w as [st cs d]; cbn [responded store calls]. rewrite H.
  destruct d; reflexivity.
Qed.

(** What follows a [_respond] without a view is never run. *)
Lemma respond_then {B} (p : Payload) (k : unit -> M B) (w : World) :
  view p = false -> bind (_respond p) k w = unanswered p w.
Proof.
  intros H. unfold bind. rewrite (respond_eq p w H). unfold unanswered.
  destruct (responded w); reflexivity.
Qed.

Lemma error_handler_eq (e : Exn) (w : World) :
  on_app_command_error e w = unanswered (reported e) w.
Proof.
  unfold on_app_command_error, reported.
  destruct (isinstance e MissingPermissions); now apply respond_eq.
Qed.

Lemma invoke_ret (m : M unit) (w w' : World) :
  m w = (Ret tt, w') -> invoke m w = (Ret tt, w').
Proof. intros H. unfold invoke, try_except. now rewrite H. Qed.

Lemma invoke_raise (m : M unit) (w w' : World) (e : Exn) :
  m w = (Raise e, w') -> invoke m w = unanswered (reported e) w'.
Proof. intros H. unfold invoke, try_except. rewrite H. apply error_handler_eq. Qed.

Lemma invoke_eq (m k : M unit) (w w1 : World) :
  m w = k w1 -> invoke m w = invoke k w1.
Proof. intros H. unfold invoke, try_except. now rewrite H. Qed.

Lemma defer_eq (env : Env) (eph : bool) (w : World) :
  _defer env eph w =
  (Ret tt, if responded w then w
           else mkWorld (store w) (calls w ++ [EDefer eph]) (acknowledged env)).
Proof.
  unfold _defer, acknowledged, bind, is_done, try_except, platform, bind, emit.
  destruct w as [st cs d]; simpl.
  destruct d; [reflexivity|].
  destruct (defer_outcome env); reflexivity.
Qed.

Lemma db_write_eq (env : Env) (op : DbOp) (f : Store -> Store) (w : World) :
  db_works env op ->
  db_write env op f w = (Ret tt, mkWorld (f (store w)) (calls w) (responded w)).
Proof.
  intros H. unfold db_write.
  destruct (db_outcome env op) eqn:E; try reflexivity.
  now elim (H e).
Qed.

Lemma db_read_eq {A} (env : Env) (op : DbOp) (f : Store -> A) (w : World) :
  db_works env op -> db_read env op f w = (Ret (f (store w)), w).
Proof.
  intros H. unfold db_read.
  destruct (db_outcome env op) eqn:E; try reflexivity.
  now elim (H e).
Qed.

(** A best-effort call, [try: call except Exception: pass]: issued,
    and its failure dropped. *)
Lemma best_effort_eq (ev : Event) (o : option Exn) (w : World) :
  try_except (platform ev o) (fun _ => Some (ret tt)) w =
  (Ret tt, mkWorld (store w) (calls w ++ [ev]) (responded w)).
Proof. destruct o; reflexivity. Qed.

Lemma post_modlog_eq (env : Env) (g : Guild) (e : Embed) (w : World) :
  db_works env OpGetServerSettings ->
  _post_modlog env g e w =
  (Ret tt, mkWorld (store w) (calls w ++ modlog_events g (store w) e) (responded w)).
Proof.
  intros H. unfold _post_modlog, modlog_events.
  erewrite bind_ret_eq by (now apply db_read_eq).
  destruct w as [st cs d]; simpl.
  destruct (log_channel _) as [c|]; [|now rewrite app_nil_r].
  destruct (c =? 0); [now rewrite app_nil_r|].
  destruct (existsb _ _); [|now rewrite app_nil_r].
  apply best_effort_eq.
Qed.

(** The store read is the one step of [_post_modlog] outside any [try]. *)
Lemma post_modlog_raises (env : Env) (g : Guild) (e : Embed) (w : World) (ex : Exn) :
  db_outcome env OpGetServerSettings = DbRaises ex ->
  _post_modlog env g e w = (Raise ex, w).
Proof. intros H. unfold _post_modlog, db_read, bind. now rewrite H. Qed.

(** A guarded platform call is first issued; its answer then decides
    between the rest of the block and the handlers. *)
Lemma platform_first {A} (ev : Event) (o : option Exn) (k : unit -> M A) h (w : World) :
  try_except (bind (platform ev o) k) h w
  = try_except (bind (answer o) k) h (mkWorld (store w) (calls w ++ [ev]) (responded w)).
Proof. destruct o; reflexivity. Qed.

Ltac tidy := cbn [store calls responded init_world fst snd app].

(** Runs the first coroutine of a sequence with the equation that
    describes it. *)
Ltac step :=
  erewrite bind_ret_eq
    by first [ apply defer_eq | apply emit_eq | apply best_effort_eq
             | apply respond_view_eq; reflexivity
             | apply db_write_eq; assumption | apply db_read_eq; assumption
             | apply post_modlog_eq; assumption ];
  tidy.

(** ** Rejections *)

Lemma outranked_true (g : Guild) (author member : Member) :
  top_role member >= top_role author -> m_id author <> owner_id g ->
  outranked g author member = true.
Proof.
  intros Hr Ho. unfold outranked.
  apply andb_true_intro; split.
  - apply Z.geb_le. lia.
  - apply negb_true_iff, Z.eqb_neq, Ho.
Qed.

Lemma outranked_iff (g : Guild) (author member : Member) :
  outranked g author member = true <->
  top_role member >= top_role author /\ m_id author <> owner_id g.
Proof.
  unfold outranked. rewrite andb_true_iff, negb_true_iff, Z.eqb_neq, Z.geb_le. lia.
Qed.

(** A guard that answers on a fresh interaction: the answer is sent,
    the library raises, and the error handler sends its report the
    same way. *)
Lemma respond_fresh (p : Payload) (st : Store) :
  view p = false ->
  invoke (_respond p) (init_world st)
  = (Raise no_view_after_response,
     mkWorld st [ESend false p; ESend false (reported no_view_after_response)] false).
Proof.
  intros H. erewrite invoke_raise by (rewrite (respond_eq p _ H); reflexivity).
  reflexivity.
Qed.

Lemma respond_rejects (p : Payload) (st : Store) :
  view p = false -> rejects (invoke (_respond p) (init_world st)) st p.
Proof. intros H. rewrite (respond_fresh p st H). repeat split. Qed.

Lemma sends_are_quiet (l : list Event) :
  forallb is_send l = true -> filter is_moderation_call l = [].
Proof.
  induction l as [|ev l IH]; [reflexivity|].
  simpl. intros H. apply andb_true_iff in H. destruct H as [Hev Hl].
  destruct ev; try discriminate Hev. simpl. auto.
Qed.

(** A rejection makes no moderation call. *)
Lemma rejects_quiet (outcome : Result unit * World) (st : Store) (p : Payload) :
  rejects outcome st p -> moderation_calls (snd outcome) = [].
Proof. intros [_ [H _]]. now apply sends_are_quiet. Qed.

(** ** Calls are only ever added *)

Section Emits.

Variable P : Event -> bool.

Lemma emits_ret {A} (a : A) : emits P (ret a).
Proof. intros w. exists []. now rewrite app_nil_r. Qed.

Lemma emits_raise {A} (e : Exn) : emits P (@raise A e).
Proof. intros w. exists []. now rewrite app_nil_r. Qed.

Lemma emits_emit (ev : Event) : P ev = true -> emits P (emit ev).
Proof. intros H w. exists [ev]. simpl. now rewrite H. Qed.

Lemma emits_bind {A B} (m : M A) (k : A -> M B) :
  emits P m -> (forall a, emits P (k a)) -> emits P (bind m k).
Proof.
  intros Hm Hk w. unfold bind.
  destruct (Hm w) as [l [El Pl]].
  destruct (m w) as [[a|e] w']; simpl in *.
  - destruct (Hk a w') as [l' [El' Pl']].
    exists (l ++ l')%list. rewrite El', El, app_assoc, forallb_app, Pl, Pl'. auto.
  - exists l. auto.
Qed.

Lemma emits_try {A} (m : M A) (h : Exn -> option (M A)) :
  emits P m ->
  (forall e, match h e with Some k => emits P k | None => True end) ->
  emits P (try_except m h).
Proof.
  intros Hm Hh w. unfold try_except.
  destruct (Hm w) as [l [El Pl]].
  destruct (m w) as [[a|e] w']; simpl in *.
  - exists l. auto.
  - specialize (Hh e). destruct (h e) as [k|]; simpl.
    + destruct (Hh w') as [l' [El' Pl']].
      exists (l ++ l')%list. rewrite El', El, app_assoc, forallb_app, Pl, Pl'. auto.
    + exists l. auto.
Qed.

Lemma emits_is_done : emits P is_done.
Proof. intros w. exists []. now rewrite app_nil_r. Qed.

Lemma emits_set_done : emits P set_done.
Proof. intros w. exists []. simpl. now rewrite app_nil_r. Qed.

Lemma emits_caps : emits P db_capabilities.
Proof. intros w. exists []. simpl. now rewrite app_nil_r. Qed.

Lemma emits_db_read {A} env op (f : Store -> A) : emits P (db_read env op f).
Proof.
  intros w. exists []. unfold db_read.
  destruct (db_outcome env op); simpl; now rewrite app_nil_r.
Qed.

Lemma emits_db_write env op f : emits P (db_write env op f).
Proof.
  intros w. exists []. unfold db_write.
  destruct (db_outcome env op); simpl; now rewrite app_nil_r.
Qed.

Lemma emits_db_call {A} env op (f : Store -> A * Store) : emits P (_db_call env op f).
Proof.
  intros w. exists []. unfold _db_call.
  destruct (db_outcome env op); simpl; try destruct (f (store w)); simpl; now rewrite app_nil_r.
Qed.

Lemma emits_answer (o : option Exn) : emits P (answer o).
Proof. destruct o; [apply emits_raise | apply emits_ret]. Qed.

Lemma emits_platform ev o : P ev = true -> emits P (platform ev o).
Proof.
  intros H. apply emits_bind; [now apply emits_emit|].
  intros _. destruct o; [apply emits_raise | apply emits_ret].
Qed.

Lemma emits_unanswered {A} p : P (ESend false p) = true -> emits P (@unanswered A p).
Proof.
  intros H w. unfold unanswered. destruct (responded w); cbn [snd calls].
  - exists []. now rewrite app_nil_r.
  - exists [ESend false p]. cbn. now rewrite H.
Qed.

Lemma emits_respond p : (forall d, P (ESend d p) = true) -> emits P (_respond p).
Proof.
  intros H. unfold _respond, followup_send_view, send_message.
  apply emits_bind; [apply emits_is_done|]. intros d.
  destruct d.
  - destruct (view p); [now apply emits_emit | apply emits_raise].
  - apply emits_bind; [now apply emits_emit|]. intros _.
    destruct (view p); [apply emits_set_done | apply emits_raise].
Qed.

(** The code after a [_respond] without a view is dead: only the
    message counts. *)
Lemma emits_respond_then {B} p (k : unit -> M B) :
  view p = false -> P (ESend false p) = true -> emits P (bind (_respond p) k).
Proof.
  intros Hv H w. rewrite (respond_then p k w Hv). now apply emits_unanswered.
Qed.

Lemma emits_defer env eph : P (EDefer eph) = true -> emits P (_defer env eph).
Proof.
  intros H. apply emits_bind; [apply emits_is_done|]. intros [|]; [apply emits_ret|].
  apply emits_try.
  - apply emits_bind; [now apply emits_platform | intros _; apply emits_set_done].
  - intros _. apply emits_ret.
Qed.

Lemma emits_post_modlog env g e :
  (forall c, P (EChannelSend c e) = true) -> emits P (_post_modlog env g e).
Proof.
  intros H. apply emits_bind; [apply emits_db_read|]. intros s.
  destruct (log_channel s) as [c|]; [|apply emits_ret].
  destruct (c =? 0); [apply emits_ret|].
  destruct (existsb _ _); [|apply emits_ret].
  apply emits_try; [now apply emits_platform | intros _; apply emits_ret].
Qed.

Lemma emits_error_handler e :
  (forall d p, P (ESend d p) = true) -> emits P (on_app_command_error e).
Proof.
  intros H. unfold on_app_command_error.
  destruct (isinstance e MissingPermissions); apply emits_respond; auto.
Qed.

Lemma emits_invoke (command : M unit) :
  (forall d p, P (ESend d p) = true) -> emits P command -> emits P (invoke command).
Proof.
  intros H Hc. apply emits_try; [assumption|].
  intros e. now apply emits_error_handler.
Qed.

End Emits.

(** Breaks a coroutine down along its binds, handlers and branches. *)
Ltac emits_step :=
  match goal with
  | |- emits _ (bind (_respond _) _) =>
      first [ apply emits_respond_then; reflexivity | apply emits_bind; [|intros] ]
  | |- emits _ (bind _ _) => apply emits_bind; [|intros]
  | |- emits _ (try_except _ _) => apply emits_try; [|intros]
  | |- emits _ (ret _) => apply emits_ret
  | |- emits _ (raise _) => apply emits_raise
  | |- emits _ (emit _) => apply emits_emit; reflexivity
  | |- emits _ (followup_send _) => apply emits_emit; reflexivity
  | |- emits _ (platform _ _) => apply emits_platform; reflexivity
  | |- emits _ (answer _) => apply emits_answer
  | |- emits _ (_respond _) => apply emits_respond; intros; reflexivity
  | |- emits _ (_defer _ _) => apply emits_defer; reflexivity
  | |- emits _ (_post_modlog _ _ _) => apply emits_post_modlog; intros; reflexivity
  | |- emits _ (db_read _ _ _) => apply emits_db_read
  | |- emits _ (db_write _ _ _) => apply emits_db_write
  | |- emits _ (_db_call _ _ _) => apply emits_db_call
  | |- emits _ db_capabilities => apply emits_caps
  | |- emits _ is_done => apply emits_is_done
  | |- emits _ set_done => apply emits_set_done
  | |- emits _ (match ?x with _ => _ end) => destruct x
  | |- match (if ?b then _ else _) with _ => _ end => destruct b
  | |- match Some _ with _ => _ end => cbv beta iota
  | |- match None with _ => _ end => exact I
  | |- True => exact I
  end.

Ltac emits_auto := cbv zeta; repeat emits_step.

(** Every handler only adds calls. *)
Lemma handler_grows (env : Env) (i : Interaction) (c : Command) :
  emits any_call (handler env i c).
Proof.
  destruct c; unfold handler, kick, ban, unban, warn, warnings, clearwarnings, timeout,
    untimeout, mute, unmute, unwarn, features, purge, timeout, untimeout,
    threshold_action, moderation_section, config_item, subscript, timedelta_minutes, response_defer,
    channel_purge; emits_auto.
Qed.

Lemma emits_filter (P Q : Event -> bool) {A} (m : M A) (w : World) :
  emits P m -> (forall ev, P ev = true -> Q ev = false) ->
  filter Q (calls (snd (m w))) = filter Q (calls w).
Proof.
  intros H HPQ. destruct (H w) as [l [El Pl]]. rewrite El, filter_app.
  replace (filter Q l) with (@nil Event); [apply app_nil_r|].
  clear El. induction l as [|ev l IH]; [reflexivity|].
  cbn in *. apply andb_true_iff in Pl. destruct Pl as [Pev Pl].
  rewrite (HPQ ev Pev). auto.
Qed.

(** ** Coroutines that leave the store alone *)

Lemma keeps_ret {A} (a : A) : keeps_store (ret a).
Proof. intros w. reflexivity. Qed.

Lemma keeps_raise {A} (e : Exn) : keeps_store (@raise A e).
Proof. intros w. reflexivity. Qed.

Lemma keeps_bind {A B} (m : M A) (k : A -> M B) :
  keeps_store m -> (forall a, keeps_store (k a)) -> keeps_store (bind m k).
Proof.
  intros Hm Hk w. unfold bind. specialize (Hm w).
  destruct (m w) as [[a|e] w']; simpl in *; [|assumption].
  now rewrite Hk.
Qed.

Lemma keeps_try {A} (m : M A) (h : Exn -> option (M A)) :
  keeps_store m ->
  (forall e, match h e with Some k => keeps_store k | None => True end) ->
  keeps_store (try_except m h).
Proof.
  intros Hm Hh w. unfold try_except. specialize (Hm w).
  destruct (m w) as [[a|e] w']; simpl in *; [assumption|].
  specialize (Hh e). destruct (h e) as [k|]; simpl; [|assumption].
  now rewrite Hh.
Qed.

Lemma keeps_emit (ev : Event) : keeps_store (emit ev).
Proof. intros w. reflexivity. Qed.

Lemma keeps_answer (o : option Exn) : keeps_store (answer o).
Proof. intros w. destruct o; reflexivity. Qed.

Lemma keeps_unanswered {A} (p : Payload) : keeps_store (@unanswered A p).
Proof. intros w. unfold unanswered. destruct (responded w); reflexivity. Qed.

Lemma keeps_respond (p : Payload) : keeps_store (_respond p).
Proof.
  intros w. unfold _respond, bind, is_done, followup_send_view, send_message, bind, emit,
    set_done, raise.
  destruct (responded w), (view p); reflexivity.
Qed.

Lemma keeps_respond_then {B} (p : Payload) (k : unit -> M B) :
  view p = false -> keeps_store (bind (_respond p) k).
Proof. intros Hv w. rewrite (respond_then p k w Hv). apply keeps_unanswered. Qed.

Lemma keeps_db_read {A} env op (f : Store -> A) : keeps_store (db_read env op f).
Proof. intros w. unfold db_read. destruct (db_outcome env op); reflexivity. Qed.

Lemma keeps_platform ev o : keeps_store (platform ev o).
Proof. intros w. destruct o; reflexivity. Qed.

Lemma keeps_is_done : keeps_store is_done.
Proof. intros w. reflexivity. Qed.

Lemma keeps_set_done : keeps_store set_done.
Proof. intros w. reflexivity. Qed.

Lemma keeps_followup p : keeps_store (followup_send p).
Proof. intros w. reflexivity. Qed.

Lemma keeps_defer env eph : keeps_store (_defer env eph).
Proof. intros w. rewrite defer_eq. cbn [snd]. now destruct (responded w). Qed.

Lemma keeps_post_modlog env g e : keeps_store (_post_modlog env g e).
Proof.
  apply keeps_bind; [apply keeps_db_read|]. intros s.
  destruct (log_channel s) as [c|]; [|apply keeps_ret].
  destruct (c =? 0); [apply keeps_ret|].
  destruct (existsb _ _); [|apply keeps_ret].
  apply keeps_try; [apply keeps_platform | intros _; apply keeps_ret].
Qed.

Lemma keeps_error_handler e : keeps_store (on_app_command_error e).
Proof.
  unfold on_app_command_error.
  destruct (isinstance e MissingPermissions); apply keeps_respond.
Qed.

Lemma keeps_invoke (command : M unit) : keeps_store command -> keeps_store (invoke command).
Proof.
  intros H. apply keeps_try; [assumption|]. intros e. apply keeps_error_handler.
Qed.

Lemma keeps_moderation_section env : keeps_store (moderation_section env).
Proof.
  intros w. unfold moderation_section.
  destruct (bot_config env) as [c|]; [|reflexivity].
  destruct (Py.or_ c (PyDict [])); try reflexivity.
  destruct (Py.get_default "moderation" (PyDict []) kvs); reflexivity.
Qed.

Ltac keeps_step :=
  match goal with
  | |- keeps_store (bind (_respond _) _) =>
      first [ apply keeps_respond_then; reflexivity | apply keeps_bind; [|intros] ]
  | |- keeps_store (bind _ _) => apply keeps_bind; [|intros]
  | |- keeps_store (try_except _ _) => apply keeps_try; [|intros]
  | |- keeps_store (invoke _) => apply keeps_invoke
  | |- keeps_store (ret _) => apply keeps_ret
  | |- keeps_store (raise _) => apply keeps_raise
  | |- keeps_store (emit _) => apply keeps_emit
  | |- keeps_store (answer _) => apply keeps_answer
  | |- keeps_store (platform _ _) => apply keeps_platform
  | |- keeps_store (_respond _) => apply keeps_respond
  | |- keeps_store (_defer _ _) => apply keeps_defer
  | |- keeps_store (followup_send _) => apply keeps_followup
  | |- keeps_store is_done => apply keeps_is_done
  | |- keeps_store set_done => apply keeps_set_done
  | |- keeps_store (moderation_section _) => apply keeps_moderation_section
  | |- keeps_store (_post_modlog _ _ _) => apply keeps_post_modlog
  | |- keeps_store (db_read _ _ _) => apply keeps_db_read
  | |- keeps_store (match ?x with _ => _ end) => destruct x
  | |- match (if ?b then _ else _) with _ => _ end => destruct b
  | |- match Some _ with _ => _ end => cbv beta iota
  | |- match None with _ => _ end => exact I
  | |- True => exact I
  end.

Ltac keeps_auto := cbv zeta; repeat keeps_step.

(** ** Coroutines that never return *)

Lemma unanswered_never {A} (p : Payload) : never_returns (@unanswered A p).
Proof. intros w. unfold unanswered. destruct (responded w); eexists; reflexivity. Qed.

Lemma unanswered_raises {A} (p : Payload) (w : World) :
  exists e, fst (@unanswered A p w) = Raise e /\ isinstance e HTTPException = false.
Proof. unfold unanswered. destruct (responded w); eexists; split; reflexivity. Qed.

(** Whatever the handler does, a run that raises ends in the error
    handler, which raises as well. *)
Lemma invoke_never (m : M unit) : never_returns m -> never_returns (invoke m).
Proof.
  intros H w. destruct (H w) as [e He].
  destruct (m w) as [[[]|e'] w'] eqn:E; [discriminate He|].
  rewrite (invoke_raise m w w' e' E). apply unanswered_never.
Qed.

Lemma never_bind {A B} (m : M A) (k : A -> M B) :
  never_returns m -> never_returns (bind m k).
Proof.
  intros H w. destruct (H w) as [e He]. unfold bind.
  destruct (m w) as [[a|e'] w']; [discriminate He|]. now exists e'.
Qed.

Lemma never_then {A B} (m : M A) (k : A -> M B) :
  (forall a, never_returns (k a)) -> never_returns (bind m k).
Proof.
  intros H w. unfold bind. destruct (m w) as [[a|e'] w']; [apply H | now exists e'].
Qed.

Lemma never_respond (p : Payload) : view p = false -> never_returns (_respond p).
Proof. intros H w. rewrite (respond_eq p w H). apply unanswered_never. Qed.

Lemma never_raise {A} (e : Exn) : never_returns (@raise A e).
Proof. intros w. now exists e. Qed.

Lemma lost_answer_eq (p : Payload) (w : World) :
  lost_answer p w
  = if responded w then (Raise no_view_in_followup, w)
    else (Raise no_view_after_response,
          mkWorld (store w)
            (calls w ++ [ESend false p; ESend false (reported no_view_after_response)]) false).
Proof.
  unfold lost_answer.
  destruct w as [st cs d]. destruct d.
  - erewrite invoke_raise by reflexivity. reflexivity.
  - erewrite invoke_raise by reflexivity. unfold unanswered. cbn [responded store calls].
    now rewrite <- app_assoc.
Qed.

Lemma invoke_respond (p : Payload) (w : World) :
  view p = false -> invoke (_respond p) w = lost_answer p w.
Proof. intros H. unfold lost_answer. apply invoke_eq. now apply respond_eq. Qed.

Lemma invoke_respond_then (p : Payload) (k : unit -> M unit) (w : World) :
  view p = false -> invoke (bind (_respond p) k) w = lost_answer p w.
Proof. intros H. unfold lost_answer. apply invoke_eq. now apply respond_then. Qed.

Lemma invoke_after_defer (env : Env) (k : M unit) (st : Store) :
  invoke (bind (_defer env true) (fun _ => k)) (init_world st)
  = invoke k (mkWorld st [EDefer true] (acknowledged env)).
Proof. apply invoke_eq. erewrite bind_ret_eq by apply defer_eq. reflexivity. Qed.

Lemma try_bind_ret_eq {A B} (m : M A) (k : A -> M B) h (w w' : World) (a : A) :
  m w = (Ret a, w') -> try_except (bind m k) h w = try_except (k a) h w'.
Proof. intros H. unfold try_except, bind. now rewrite H. Qed.

(** ** Hierarchy guard and owner immunity *)

Section Guards.

Variables (env : Env) (i : Interaction) (g : Guild) (author member : Member)
  (reason : string) (st : Store).
Hypothesis in_guild : guild i = Some g.
Hypothesis by_member : user i = AsMember author.

Lemma warn_outranked :
  outranked g author member = true ->
  rejects (run env i (Warn member reason) st) st (hierarchy_error "warn").
Proof.
  intros Hout. unfold run, handler, warn.
  rewrite in_guild, by_member, Hout. now apply respond_rejects.
Qed.

Lemma timeout_outranked (duration : Z) :
  outranked g author member = true ->
  rejects (run env i (Timeout member duration reason) st) st (hierarchy_error "timeout").
Proof.
  intros Hout. unfold run, handler, timeout.
  rewrite in_guild, by_member, Hout. now apply respond_rejects.
Qed.

Lemma kick_owner :
  member_is member (owner g) = true ->
  rejects (run env i (Kick member reason) st) st (owner_error "kick").
Proof.
  intros Hown. unfold run, handler, kick.
  rewrite in_guild, by_member, Hown. now apply respond_rejects.
Qed.

Lemma ban_owner :
  member_is member (owner g) = true ->
  rejects (run env i (Ban member reason) st) st (owner_error "ban").
Proof.
  intros Hown. unfold run, handler, ban.
  rewrite in_guild, by_member, Hown. now apply respond_rejects.
Qed.

Lemma kick_outranked :
  member_is member (owner g) = false -> outranked g author member = true ->
  rejects (run env i (Kick member reason) st) st (hierarchy_error "kick").
Proof.
  intros Hown Hout. unfold run, handler, kick.
  rewrite in_guild, by_member, Hown, Hout. now apply respond_rejects.
Qed.

Lemma ban_outranked :
  member_is member (owner g) = false -> outranked g author member = true ->
  rejects (run env i (Ban member reason) st) st (hierarchy_error "ban").
Proof.
  intros Hown Hout. unfold run, handler, ban.
  rewrite in_guild, by_member, Hown, Hout. now apply respond_rejects.
Qed.

End Guards.

(** C1: when the target's highest role is at least the moderator's and
    the moderator is not the guild owner, kick, ban, warn and timeout
    reject: the first call is the error sent to the moderator as the
    initial, ephemeral response, every call of the run is a message on
    the interaction, so no moderation call is made, and the store is
    left as it was, so no warning record and no action-log entry is
    written.  The error is the hierarchy error; for kick and ban
    against a target the guild resolves as its owner, the owner check
    comes first and the error names the owner. *)
Theorem hierarchy_guard_rejects (env : Env) (i : Interaction) (g : Guild)
    (author member : Member) (reason : string) (duration : Z) (st : Store) :
  guild i = Some g -> user i = AsMember author ->
  top_role member >= top_role author -> m_id author <> owner_id g ->
  (rejects (run env i (Warn member reason) st) st (hierarchy_error "warn") /\
   rejects (run env i (Timeout member duration reason) st) st (hierarchy_error "timeout") /\
   rejects (run env i (Kick member reason) st) st
     (if member_is member (owner g) then owner_error "kick" else hierarchy_error "kick") /\
   rejects (run env i (Ban member reason) st) st
     (if member_is member (owner g) then owner_error "ban" else hierarchy_error "ban")) /\
  (forall c,
     In c [Warn member reason; Timeout member duration reason; Kick member reason;
           Ban member reason] ->
     moderation_calls (snd (run env i c st)) = [] /\
     warnings_table (store (snd (run env i c st))) = warnings_table st /\
     action_log (store (snd (run env i c st))) = action_log st).
Proof.
  intros Hg Hu Hr Ho.
  pose proof (outranked_true g author member Hr Ho) as Hout.
  assert (H4 : rejects (run env i (Warn member reason) st) st (hierarchy_error "warn") /\
               rejects (run env i (Timeout member duration reason) st) st
                 (hierarchy_error "timeout") /\
               rejects (run env i (Kick member reason) st) st
                 (if member_is member (owner g) then owner_error "kick"
                  else hierarchy_error "kick") /\
               rejects (run env i (Ban member reason) st) st
                 (if member_is member (owner g) then owner_error "ban"
                  else hierarchy_error "ban")).
  { split; [|split; [|split]].
    - now apply (warn_outranked env i g author).
    - now apply (timeout_outranked env i g author).
    - destruct (member_is member (owner g)) eqn:Hown.
      + now apply (kick_owner env i g author).
      + now apply (kick_outranked env i g author).
    - destruct (member_is member (owner g)) eqn:Hown.
      + now apply (ban_owner env i g author).
      + now apply (ban_outranked env i g author). }
  split; [exact H4|].
  destruct H4 as [Hw [Ht [Hk Hb]]].
  intros c [E|[E|[E|[E|[]]]]]; subst c;
    match goal with
    | H : rejects (run env i ?c st) st _ |- context [run env i ?c st] =>
        pose proof (rejects_quiet _ _ _ H) as Hq; destruct H as [_ [_ Hs]];
        rewrite Hs; repeat split; exact Hq
    end.
Qed.

Lemma hierarchy_guard_rejects_witness :
  rejects (run Sample.calm Sample.by_mod (Warn Sample.peer_m "spam") Sample.empty_store)
          Sample.empty_store (hierarchy_error "warn").
Proof.
  apply (hierarchy_guard_rejects Sample.calm Sample.by_mod Sample.guild0
           Sample.mod_m Sample.peer_m "spam" 10 Sample.empty_store);
    simpl; try reflexivity; lia.
Defined.

(** ** The shape shared by kick, timeout and untimeout *)

Lemma moderation_filter_app (l1 l2 : list Event) :
  forallb not_moderation_call l2 = true ->
  filter is_moderation_call (l1 ++ l2) = filter is_moderation_call l1.
Proof.
  intros H. rewrite filter_app.
  replace (filter is_moderation_call l2) with (@nil Event); [apply app_nil_r|].
  induction l2 as [|x l2 IH]; [reflexivity|].
  simpl in *. apply andb_true_iff in H. destruct H as [Hx Hl].
  unfold not_moderation_call in Hx. apply negb_true_iff in Hx. rewrite Hx. auto.
Qed.

Section LoggedAction.

Variables (env : Env) (g : Guild) (ev : Event) (o : option Exn) (entry : Store -> Store)
  (embed : Embed) (handlers : Exn -> option (M unit)) (on_failure : Exn -> option string).
Hypothesis handlers_answer :
  forall e, handlers e = option_map (fun m => _respond (error_reply m)) (on_failure e).
Hypothesis platform_errors_only :
  forall e, isinstance e HTTPException = false -> on_failure e = None.

(** The platform refused: nothing is written, and the error that is to
    tell the moderator is lost like every answer without a view. *)
Lemma action_refused (e : Exn) (w : World) :
  o = Some e ->
  invoke (try_except (logged_action env g ev o entry embed) handlers) w
  = match on_failure e with
    | Some m => lost_answer (error_reply m)
                  (mkWorld (store w) (calls w ++ [ev]) (responded w))
    | None => unanswered (reported e) (mkWorld (store w) (calls w ++ [ev]) (responded w))
    end.
Proof.
  intros Ho. set (w1 := mkWorld (store w) (calls w ++ [ev]) (responded w)).
  assert (Hrun : try_except (logged_action env g ev o entry embed) handlers w
                 = match handlers e with
                   | Some k => k w1
                   | None => (Raise e, w1)
                   end).
  { unfold logged_action. rewrite platform_first, Ho. reflexivity. }
  rewrite handlers_answer in Hrun.
  destruct (on_failure e) as [m|]; cbn [option_map] in Hrun.
  - rewrite <- (invoke_respond (error_reply m) w1 eq_refl).
    apply invoke_eq. exact Hrun.
  - now apply invoke_raise.
Qed.

(** The platform accepted: the audit row is written, and the public
    answer is lost; the copy for the log channel is never reached. *)
Lemma action_accepted (w : World) :
  o = None -> db_works env OpLogAction ->
  invoke (try_except (logged_action env g ev o entry embed) handlers) w
  = lost_answer (embed_payload embed false)
      (mkWorld (entry (store w)) (calls w ++ [ev]) (responded w)).
Proof.
  intros Ho Hdb. unfold logged_action. rewrite Ho.
  unfold lost_answer. apply invoke_eq.
  erewrite try_bind_ret_eq by reflexivity. tidy.
  erewrite try_bind_ret_eq by (now apply db_write_eq). tidy.
  unfold try_except. rewrite respond_then by reflexivity.
  set (w1 := mkWorld _ _ _).
  destruct (unanswered_raises (A := unit) (embed_payload embed false) w1) as [e [He Hh]].
  destruct (unanswered (embed_payload embed false) w1) as [[[]|e'] w2] eqn:E;
    cbn [fst] in He; [discriminate He|].
  injection He as ->.
  now rewrite handlers_answer, (platform_errors_only e Hh).
Qed.

(** The platform accepted and the store refused the audit row: the
    public answer is not reached, and the exception goes the way of a
    platform error. *)
Lemma action_unlogged (e : Exn) (w : World) :
  o = None -> db_outcome env OpLogAction = DbRaises e ->
  invoke (try_except (logged_action env g ev o entry embed) handlers) w
  = match on_failure e with
    | Some m => lost_answer (error_reply m)
                  (mkWorld (store w) (calls w ++ [ev]) (responded w))
    | None => unanswered (reported e) (mkWorld (store w) (calls w ++ [ev]) (responded w))
    end.
Proof.
  intros Ho Hdb. set (w1 := mkWorld (store w) (calls w ++ [ev]) (responded w)).
  assert (Hrun : try_except (logged_action env g ev o entry embed) handlers w
                 = match handlers e with
                   | Some k => k w1
                   | None => (Raise e, w1)
                   end).
  { unfold logged_action. rewrite platform_first, Ho.
    unfold try_except, bind, answer, ret, db_write. rewrite Hdb. reflexivity. }
  rewrite handlers_answer in Hrun.
  destruct (on_failure e) as [m|]; cbn [option_map] in Hrun.
  - rewrite <- (invoke_respond (error_reply m) w1 eq_refl).
    apply invoke_eq. exact Hrun.
  - now apply invoke_raise.
Qed.

(** Whatever the platform and the store answer, the action is issued
    once and no other moderation call is made. *)
Lemma action_issued_once (w : World) :
  moderation_calls
    (snd (invoke (try_except (logged_action env g ev o entry embed) handlers) w))
  = (moderation_calls w ++ filter is_moderation_call [ev])%list.
Proof.
  assert (Hrun : invoke (try_except (logged_action env g ev o entry embed) handlers) w
                 = invoke (try_except
                             (bind (answer o)
                                (fun _ =>
                                   db_write env OpLogAction entry;;
                                   _respond (embed_payload embed false);;
                                   _post_modlog env g embed)) handlers)
                     (mkWorld (store w) (calls w ++ [ev]) (responded w))).
  { apply invoke_eq. unfold logged_action. apply platform_first. }
  rewrite Hrun. clear Hrun.
  match goal with
  | |- moderation_calls (snd (?m ?w1)) = _ =>
      assert (Hq : emits not_moderation_call m);
      [|destruct (Hq w1) as [l [El Pl]]]
  end.
  { apply emits_invoke; [reflexivity|]. apply emits_try.
    - apply emits_bind; [apply emits_answer|]. intros _. emits_auto.
    - intros e. rewrite handlers_answer. destruct (on_failure e); cbn [option_map]; [|exact I].
      apply emits_respond. reflexivity. }
  unfold moderation_calls. rewrite El. cbn [calls].
  rewrite (moderation_filter_app _ l Pl). apply filter_app.
Qed.

End LoggedAction.

Lemma forbidden_or_http_handlers (forbidden http : string) (e : Exn) :
  (if isinstance e Forbidden then Some (_respond (error_reply forbidden))
   else if isinstance e HTTPException then Some (_respond (error_reply http))
   else None)
  = option_map (fun m => _respond (error_reply m)) (forbidden_or_http forbidden http e).
Proof.
  unfold forbidden_or_http.
  destruct (isinstance e Forbidden); [reflexivity|].
  destruct (isinstance e HTTPException); reflexivity.
Qed.

Lemma forbidden_is_http (e : Exn) :
  isinstance e HTTPException = false -> isinstance e Forbidden = false.
Proof. destruct e as [[] t]; cbn; intros H; try reflexivity; discriminate H. Qed.

Lemma forbidden_or_http_only (forbidden http : string) (e : Exn) :
  isinstance e HTTPException = false -> forbidden_or_http forbidden http e = None.
Proof.
  intros H. unfold forbidden_or_http. now rewrite (forbidden_is_http e H), H.
Qed.

Section Kick.

Variables (env : Env) (i : Interaction) (g : Guild) (author member : Member)
  (reason : string) (st : Store).
Hypothesis in_guild : guild i = Some g.
Hypothesis by_member : user i = AsMember author.
Hypothesis not_owner : member_is member (owner g) = false.
Hypothesis not_outranked : outranked g author member = false.

Lemma kick_past_guards :
  run env i (Kick member reason) st
  = invoke
      (try_except
         (logged_action env g (EKick (m_id member) (reason ++ by_line "Kicked" author))
            (kick_outcome env)
            (Db.log_action (g_id g) "kick" (m_id member) (m_id author) (Some reason))
            (kicked_embed author member reason))
         (fun e =>
            if isinstance e Forbidden then
              Some (_respond (error_reply "I don't have permission to kick this member."))
            else if isinstance e HTTPException then
              Some (_respond (error_reply "Kick failed due to a Discord API error."))
            else None))
      (mkWorld st [EDefer true] (acknowledged env)).
Proof.
  unfold run, handler, kick. rewrite in_guild, by_member, not_owner, not_outranked.
  apply invoke_after_defer.
Qed.

Lemma kick_issued_once :
  moderation_calls (snd (run env i (Kick member reason) st))
  = [EKick (m_id member) (reason ++ by_line "Kicked" author)].
Proof.
  rewrite kick_past_guards.
  erewrite action_issued_once by (intros e; apply forbidden_or_http_handlers).
  reflexivity.
Qed.

End Kick.

(** ** Ban and its confirmation *)

Lemma original_response_eq (env : Env) (w : World) :
  try_except (platform EOriginalResponse (original_response_outcome env) ;; ret true)%cog
             (fun _ => Some (ret false)) w
  = (Ret (prompt_fetched env),
     mkWorld (store w) (calls w ++ [EOriginalResponse]) (responded w)).
Proof. unfold prompt_fetched. destruct (original_response_outcome env); reflexivity. Qed.

Lemma no_ban_calls (l : list Event) :
  forallb not_ban_call l = true -> filter is_ban_call l = [].
Proof.
  induction l as [|ev l IH]; [reflexivity|].
  simpl. unfold not_ban_call at 1. intros H. apply andb_true_iff in H.
  destruct H as [Hev Hl]. apply negb_true_iff in Hev. rewrite Hev. auto.
Qed.

Lemma ban_calls_kept {A} (m : M A) (w : World) :
  emits not_ban_call m -> ban_calls (snd (m w)) = ban_calls w.
Proof.
  intros H. destruct (H w) as [l [El Pl]].
  unfold ban_calls. rewrite El, filter_app, (no_ban_calls l Pl). apply app_nil_r.
Qed.

Lemma keeps_db_write_refused env op f e :
  db_outcome env op = DbRaises e -> keeps_store (db_write env op f).
Proof. intros H w. unfold db_write. now rewrite H. Qed.

Section Ban.

Variables (env : Env) (i : Interaction) (g : Guild) (author member : Member)
  (reason : string) (st : Store).
Hypothesis in_guild : guild i = Some g.
Hypothesis by_member : user i = AsMember author.
Hypothesis not_owner : member_is member (owner g) = false.
Hypothesis not_outranked : outranked g author member = false.

(** Declined or timed out: the prompt is edited into the cancellation
    notice when it could be fetched, and that is all. *)
Lemma ban_not_confirmed :
  confirm_outcome env <> Accepted ->
  run env i (Ban member reason) st
  = (Ret tt,
     mkWorld st
       (ban_prompted member
        ++ if prompt_fetched env then [EEdit (Some "❌ Ban cancelled.") None] else [])
       true).
Proof.
  intros Hc. unfold run, handler, ban.
  rewrite in_guild, by_member, not_owner, not_outranked.
  unfold invoke, try_except.
  erewrite bind_ret_eq by (now apply respond_view_eq). tidy.
  erewrite bind_ret_eq by apply emit_eq. tidy.
  erewrite bind_ret_eq by apply original_response_eq. tidy.
  destruct (confirm_outcome env); [now elim Hc| |];
    destruct (prompt_fetched env); reflexivity.
Qed.

(** Accepted: the ban is issued; what is left is the platform's answer
    and then either the rest of the block or a handler. *)
Lemma ban_confirmed :
  confirm_outcome env = Accepted ->
  exists (k : unit -> M unit) (h : Exn -> option (M unit)),
    run env i (Ban member reason) st
    = invoke (try_except (bind (answer (ban_outcome env)) k) h)
        (mkWorld st (ban_prompted member ++ [ban_call author member reason]) true)
    /\ emits not_ban_call (invoke (try_except (bind (answer (ban_outcome env)) k) h))
    /\ (forall e, ban_outcome env = Some e ->
          keeps_store (invoke (try_except (bind (answer (ban_outcome env)) k) h)))
    /\ (forall e, db_outcome env OpLogAction = DbRaises e ->
          keeps_store (invoke (try_except (bind (answer (ban_outcome env)) k) h)))
    /\ (ban_outcome env = None -> db_works env OpLogAction ->
        forall w, store (snd (invoke (try_except (bind (answer (ban_outcome env)) k) h) w))
                  = Db.log_action (g_id g) "ban" (m_id member) (m_id author) (Some reason)
                      (store w)).
Proof.
  intros Hc. unfold run, handler, ban.
  rewrite in_guild, by_member, not_owner, not_outranked, Hc.
  cbv zeta. eexists _, _. split; [|split; [|split; [|split]]].
  - apply invoke_eq.
    erewrite bind_ret_eq by (now apply respond_view_eq). tidy.
    erewrite bind_ret_eq by apply emit_eq. tidy.
    erewrite bind_ret_eq by apply original_response_eq. tidy.
    rewrite platform_first. reflexivity.
  - apply emits_invoke; [reflexivity|].
    apply emits_try.
    + apply emits_bind; [apply emits_answer|]. intros _. emits_auto.
    + intros e. emits_auto.
  - intros e He. rewrite He. apply keeps_invoke. apply keeps_try.
    + intros w. reflexivity.
    + intros e'. keeps_auto.
  - intros e He. apply keeps_invoke. apply keeps_try.
    + apply keeps_bind; [apply keeps_answer|]. intros _.
      apply keeps_bind; [now apply (keeps_db_write_refused env OpLogAction _ e)|].
      intros _. keeps_auto.
    + intros e'. keeps_auto.
  - intros Ho Hdb w. rewrite Ho.
    erewrite invoke_eq.
    2:{ erewrite try_bind_ret_eq by reflexivity.
        erewrite try_bind_ret_eq by (now apply db_write_eq). reflexivity. }
    match goal with
    | |- store (snd (invoke ?m ?w1)) = _ =>
        assert (Hk : keeps_store (invoke m)) by keeps_auto;
        now rewrite (Hk w1)
    end.
Qed.

End Ban.

(** C4, as the code has it: for a ban that gets past its guards, a
    confirmation that is declined or times out makes no ban call and
    leaves the store as it was; an accepted one makes exactly one ban
    call, and writes exactly one action-log entry, with action "ban",
    when that call returns normally and the store takes the write.
    No entry is written when the platform refuses the ban or the store
    refuses the write. *)
Theorem ban_confirmation_outcomes (env : Env) (i : Interaction) (g : Guild)
    (author member : Member) (reason : string) (st : Store) :
  guild i = Some g -> user i = AsMember author ->
  member_is member (owner g) = false -> outranked g author member = false ->
  let w' := snd (run env i (Ban member reason) st) in
  (confirm_outcome env <> Accepted -> ban_calls w' = [] /\ store w' = st) /\
  (confirm_outcome env = Accepted ->
     ban_calls w' = [ban_call author member reason] /\
     (ban_outcome env = None -> db_works env OpLogAction ->
        action_log (store w') = ban_entry g author member reason :: action_log st /\
        warnings_table (store w') = warnings_table st) /\
     (forall e, ban_outcome env = Some e -> store w' = st) /\
     (forall e, db_outcome env OpLogAction = DbRaises e -> store w' = st)).
Proof.
  intros Hg Hu Hown Hout w'. subst w'. split.
  - intros Hc. rewrite (ban_not_confirmed env i g author member reason st Hg Hu Hown Hout Hc).
    split; [|reflexivity].
    unfold ban_calls, ban_prompted. cbn [snd calls].
    destruct (prompt_fetched env); reflexivity.
  - intros Hc.
    destruct (ban_confirmed env i g author member reason st Hg Hu Hown Hout Hc)
      as [k [h [Hrun [Hq [Hkeep [Hdbr Hlog]]]]]].
    rewrite Hrun. split; [|split; [|split]].
    + rewrite (ban_calls_kept _ _ Hq). reflexivity.
    + intros Ho Hdb. rewrite (Hlog Ho Hdb). split; reflexivity.
    + intros e He. now rewrite (Hkeep e He).
    + intros e He. now rewrite (Hdbr e He).
Qed.

Lemma ban_confirmation_outcomes_witness :
  ban_calls (snd (run Sample.calm Sample.by_mod (Ban Sample.user_m "spam") Sample.empty_store))
  = [EBan 300 "spam | Banned by max (200)"].
Proof.
  apply (ban_confirmation_outcomes Sample.calm Sample.by_mod Sample.guild0
           Sample.mod_m Sample.user_m "spam" Sample.empty_store eq_refl eq_refl eq_refl eq_refl).
  reflexivity.
Defined.

(** C4 as stated fails when the platform refuses the ban: the moderator
    accepted, one ban call was made, and the action log got no entry. *)
Lemma ban_refused_writes_no_entry :
  let env := Sample.with_ban_outcome (Some Sample.missing_permissions) Sample.calm in
  let w' := snd (run env Sample.by_mod (Ban Sample.user_m "spam") Sample.empty_store) in
  confirm_outcome env = Accepted /\
  ban_calls w' = [EBan 300 "spam | Banned by max (200)"] /\
  action_log (store w') = [] /\
  calls w' = [ESend false (ban_prompt Sample.user_m); EConfirmWait; EOriginalResponse;
              EBan 300 "spam | Banned by max (200)";
              EEdit (Some "❌ I don't have permission to ban this member.") None].
Proof. repeat split. Qed.

Lemma member_is_uncached (member : Member) (g : Guild) :
  owner g = None -> member_is member (owner g) = false.
Proof. intros H. now rewrite H. Qed.

Lemma first_call_kept {A} (m : M A) (w : World) (ev : Event) (rest : list Event) :
  emits any_call m -> calls w = ev :: rest -> hd_error (calls (snd (m w))) = Some ev.
Proof. intros H Hw. destruct (H w) as [l [El _]]. now rewrite El, Hw. Qed.

(** Whatever the confirmation and the platform answer, a ban past its
    guards starts with the prompt. *)
Lemma ban_prompts_first (env : Env) (i : Interaction) (g : Guild) (author member : Member)
    (reason : string) (st : Store) :
  guild i = Some g -> user i = AsMember author ->
  member_is member (owner g) = false -> outranked g author member = false ->
  hd_error (calls (snd (run env i (Ban member reason) st)))
  = Some (ESend false (ban_prompt member)).
Proof.
  intros Hg Hu Hown Hout.
  destruct (confirm_outcome env) eqn:Hc.
  - destruct (ban_confirmed env i g author member reason st Hg Hu Hown Hout Hc)
      as [k [h [Hrun [Hq _]]]].
    rewrite Hrun. destruct (Hq (mkWorld st (ban_prompted member ++ [ban_call author member reason])
                                  true)) as [l [El _]].
    rewrite El. reflexivity.
  - rewrite (ban_not_confirmed env i g author member reason st Hg Hu Hown Hout)
      by (rewrite Hc; discriminate).
    reflexivity.
  - rewrite (ban_not_confirmed env i g author member reason st Hg Hu Hown Hout)
      by (rewrite Hc; discriminate).
    reflexivity.
Qed.

(** C2, where the code departs from it: the owner check of kick and
    ban compares the target with [guild.owner], the owner as the member
    cache resolves it.  When the cache does not hold the owner, a
    target whose id is the guild's [owner_id] is not recognised: below
    the moderator's rank, kick calls [member.kick] on the owner, and
    ban shows its prompt and, once accepted, calls [member.ban]; neither
    answers with the owner error. *)
Theorem owner_check_misses_uncached_owner (env : Env) (i : Interaction) (g : Guild)
    (author member : Member) (reason : string) (st : Store) :
  guild i = Some g -> user i = AsMember author ->
  m_id member = owner_id g -> owner g = None -> outranked g author member = false ->
  moderation_calls (snd (run env i (Kick member reason) st))
  = [EKick (owner_id g) (reason ++ by_line "Kicked" author)] /\
  (confirm_outcome env = Accepted ->
   ban_calls (snd (run env i (Ban member reason) st))
   = [EBan (owner_id g) (reason ++ by_line "Banned" author)]) /\
  ~ rejects (run env i (Kick member reason) st) st (owner_error "kick") /\
  ~ rejects (run env i (Ban member reason) st) st (owner_error "ban").
Proof.
  intros Hg Hu Hid Hown Hout.
  pose proof (member_is_uncached member g Hown) as Hnot.
  split; [|split; [|split]].
  - rewrite (kick_issued_once env i g author member reason st Hg Hu Hnot Hout).
    now rewrite Hid.
  - intros Hc.
    destruct (ban_confirmed env i g author member reason st Hg Hu Hnot Hout Hc)
      as [k [h [Hrun [Hq _]]]].
    rewrite Hrun, (ban_calls_kept _ _ Hq). unfold ban_call. now rewrite Hid.
  - intros [Hfirst _].
    assert (Hd : hd_error (calls (snd (run env i (Kick member reason) st)))
                 = Some (EDefer true)).
    { rewrite (kick_past_guards env i g author member reason st Hg Hu Hnot Hout).
      apply (first_call_kept _ _ (EDefer true) []); [|reflexivity].
      apply emits_invoke; [reflexivity|]. apply emits_try.
      - unfold logged_action. emits_auto.
      - intros e. emits_auto. }
    rewrite Hd in Hfirst. discriminate Hfirst.
  - intros [Hfirst _].
    rewrite (ban_prompts_first env i g author member reason st Hg Hu Hnot Hout) in Hfirst.
    discriminate Hfirst.
Qed.

Lemma owner_check_misses_uncached_owner_witness :
  moderation_calls
    (snd (run Sample.calm Sample2.by_mod (Kick Sample2.low_owner "spam") Sample.empty_store))
  = [EKick 100 "spam | Kicked by max (200)"].
Proof.
  apply (owner_check_misses_uncached_owner Sample.calm Sample2.by_mod Sample2.uncached
           Sample.mod_m Sample2.low_owner "spam" Sample.empty_store
           eq_refl eq_refl eq_refl eq_refl eq_refl).
Defined.

(** With the owner in the cache, kick and ban do reject with the owner
    error, whatever the ranks. *)
Lemma owner_rejected_when_cached (env : Env) (i : Interaction) (g : Guild)
    (author member : Member) (reason : string) (st : Store) :
  guild i = Some g -> user i = AsMember author -> member_is member (owner g) = true ->
  rejects (run env i (Kick member reason) st) st (owner_error "kick") /\
  rejects (run env i (Ban member reason) st) st (owner_error "ban").
Proof.
  intros Hg Hu Hown. split.
  - now apply (kick_owner env i g author).
  - now apply (ban_owner env i g author).
Qed.

(** [warn] and [timeout] never look at [guild.owner]. *)
Lemma warn_ignores_owner (env : Env) (g : Guild) (o : option Member) (u : Invoker)
    (ch : Channel) (member : Member) (reason : string) :
  warn env (mkInteraction (Some (mkGuild (g_id g) (g_name g) (owner_id g) o (g_channels g))) u ch)
       member reason
  = warn env (mkInteraction (Some g) u ch) member reason.
Proof. destruct g; reflexivity. Qed.

Lemma timeout_ignores_owner (env : Env) (g : Guild) (o : option Member) (u : Invoker)
    (ch : Channel) (member : Member) (duration : Z) (reason : string) :
  timeout env (mkInteraction (Some (mkGuild (g_id g) (g_name g) (owner_id g) o (g_channels g))) u ch)
          member duration reason
  = timeout env (mkInteraction (Some g) u ch) member duration reason.
Proof. destruct g; reflexivity. Qed.

(** ** Warn and its threshold *)

Lemma warn_is_quiet (env : Env) (i : Interaction) (member : Member) (reason : string) :
  emits not_moderation_call (warn env i member reason).
Proof. unfold warn. emits_auto. Qed.

Lemma warn_never_returns (env : Env) (i : Interaction) (member : Member) (reason : string) :
  never_returns (warn env i member reason).
Proof.
  unfold warn.
  destruct (guild i) as [g|]; [|now apply never_respond].
  destruct (user i) as [uid name|author]; [now apply never_respond|].
  destruct (outranked g author member); [now apply never_respond|].
  apply never_then; intros _. apply never_then; intros _. apply never_then; intros _.
  apply never_then; intros n. cbv zeta.
  apply never_bind. now apply never_respond.
Qed.

(** C3, where the code departs from it: warn makes no moderation call
    at all, whatever the configuration, the threshold and the member's
    count.  Its public answer on line 237 goes through [_respond],
    which hands [view=None] to the library and raises, so the block
    that would apply the configured timeout is never reached. *)
Theorem warn_threshold_never_acts (env : Env) (i : Interaction) (member : Member)
    (reason : string) (st : Store) :
  moderation_calls (snd (run env i (Warn member reason) st)) = [].
Proof.
  unfold run, moderation_calls, handler.
  rewrite (emits_filter not_moderation_call is_moderation_call
             (invoke (warn env i member reason)) (init_world st)).
  - reflexivity.
  - apply emits_invoke; [reflexivity | apply warn_is_quiet].
  - intros ev H. now apply negb_true_iff in H.
Qed.

(** The scenario of the spec: threshold 3, action "timeout", 60
    minutes.  The third warning brings the count to 3 and no timeout
    is applied; neither is one applied by the fourth. *)
Example threshold_three_scenario :
  Db.get_warning_count 1 300 Sample3.w2 = 2 /\
  Db.get_warning_count 1 300 Sample3.w3 = 3 /\
  Sample3.warned (Warn Sample.user_m "spam") Sample3.w2 = [] /\
  Sample3.warned (Warn Sample.user_m "spam") Sample3.w3 = [] /\
  calls (snd (run Sample3.env Sample.by_mod (Warn Sample.user_m "spam") Sample3.w2))
  = [EDefer true].
Proof. repeat split; vm_compute; reflexivity. Qed.

(** C5, where the code departs from it: warn ends with an uncaught
    exception on every invocation and under every configuration, so
    also when the action is "timeout" and no duration is configured.
    The exception is the one [_respond] raises for [view=None]; the
    error handler, which answers through [_respond] too, raises as
    well.  The configuration is never read. *)
Theorem warn_always_raises (env : Env) (i : Interaction) (member : Member)
    (reason : string) (st : Store) :
  exists e, fst (run env i (Warn member reason) st) = Raise e.
Proof.
  unfold run, handler. apply invoke_never, warn_never_returns.
Qed.

(** With [warn_threshold] 1, the action "timeout" and no
    [warn_threshold_timeout_duration]: the warning is recorded, the
    command raises at its answer, and nothing is sent. *)
Example warn_without_duration_scenario :
  run Sample5.env Sample.by_mod (Warn Sample.user_m "spam") Sample.empty_store
  = (Raise no_view_in_followup,
     mkWorld (warned_store Sample.guild0 Sample.mod_m Sample.user_m "spam" Sample.empty_store)
             [EDefer true] true).
Proof. reflexivity. Qed.

(** ** The copy for the log channel *)

Section BanReachesModlog.

Variables (env : Env) (i : Interaction) (g : Guild) (author member : Member)
  (reason : string) (st : Store).
Hypothesis in_guild : guild i = Some g.
Hypothesis by_member : user i = AsMember author.
Hypothesis not_owner : member_is member (owner g) = false.
Hypothesis not_outranked : outranked g author member = false.
Hypothesis accepted : confirm_outcome env = Accepted.
Hypothesis prompt_found : original_response_outcome env = None.
Hypothesis ban_accepted : ban_outcome env = None.
Hypothesis log_written : db_works env OpLogAction.

(** An accepted ban whose prompt could be fetched is the one command
    that gets as far as [_post_modlog]: its result is shown by editing
    the prompt, not through [_respond]. *)
Lemma ban_reaches_modlog :
  exists h : Exn -> option (M unit),
    handler env i (Ban member reason) (init_world st)
    = try_except (_post_modlog env g (banned_embed author member reason)) h
        (banned_world g author member reason st)
    /\ forall e, isinstance e HTTPException = false -> h e = None.
Proof.
  unfold handler, ban.
  rewrite in_guild, by_member, not_owner, not_outranked, accepted.
  eexists. split.
  - erewrite bind_ret_eq by (now apply respond_view_eq). tidy.
    erewrite bind_ret_eq by apply emit_eq. tidy.
    erewrite bind_ret_eq by apply original_response_eq. tidy.
    unfold prompt_fetched. rewrite prompt_found, ban_accepted. cbv zeta.
    erewrite try_bind_ret_eq by reflexivity. tidy.
    erewrite try_bind_ret_eq by (now apply db_write_eq). tidy.
    erewrite try_bind_ret_eq by apply emit_eq. tidy.
    unfold banned_world, ban_prompted, ban_call, banned_embed. cbn [app].
    reflexivity.
  - intros e He. cbv beta. now rewrite (forbidden_is_http e He), He.
Qed.

End BanReachesModlog.

(** C6, where the code departs from it: the settings read of
    [_post_modlog] is outside its [try].  After an accepted ban that
    the platform carried out and the store recorded, with the result
    shown on the prompt, a failing settings read is not ignored: the
    exception leaves [_post_modlog] and the handler, and the error
    handler is called with it.  That the moderator sees no error is
    the doing of [_respond]: after the prompt the report is a followup
    with [view=None], which raises before anything is sent, so the run
    ends with that exception instead of returning. *)
Theorem modlog_store_failure_surfaces (env : Env) (i : Interaction) (g : Guild)
    (author member : Member) (reason : string) (st : Store) (e : Exn) :
  guild i = Some g -> user i = AsMember author ->
  member_is member (owner g) = false -> outranked g author member = false ->
  confirm_outcome env = Accepted -> original_response_outcome env = None ->
  ban_outcome env = None -> db_works env OpLogAction ->
  db_outcome env OpGetServerSettings = DbRaises e -> isinstance e HTTPException = false ->
  handler env i (Ban member reason) (init_world st)
  = (Raise e, banned_world g author member reason st) /\
  run env i (Ban member reason) st
  = (Raise no_view_in_followup, banned_world g author member reason st).
Proof.
  intros Hg Hu Hown Hout Hc Hmsg Hban Hlog Hset He.
  destruct (ban_reaches_modlog env i g author member reason st Hg Hu Hown Hout Hc Hmsg Hban Hlog)
    as [h [Hrun Hh]].
  assert (Hhandler : handler env i (Ban member reason) (init_world st)
                     = (Raise e, banned_world g author member reason st)).
  { rewrite Hrun. unfold try_except.
    rewrite (post_modlog_raises env g _ _ e Hset). now rewrite (Hh e He). }
  split; [exact Hhandler|].
  unfold run. erewrite invoke_raise by exact Hhandler. reflexivity.
Qed.

Lemma modlog_store_failure_surfaces_witness :
  run Sample6.env Sample.by_mod (Ban Sample.user_m "spam") Sample.empty_store
  = (Raise no_view_in_followup,
     banned_world Sample.guild0 Sample.mod_m Sample.user_m "spam" Sample.empty_store).
Proof.
  apply (modlog_store_failure_surfaces Sample6.env Sample.by_mod Sample.guild0
           Sample.mod_m Sample.user_m "spam" Sample.empty_store
           (mkExn OtherException "database is locked")
           eq_refl eq_refl eq_refl eq_refl eq_refl eq_refl eq_refl).
  - intros e. discriminate.
  - reflexivity.
  - reflexivity.
Defined.

(** The same ban over a store whose settings read answers returns
    normally, and so does it when the send in the log channel fails. *)
Lemma ban_with_modlog_returns (env : Env) (i : Interaction) (g : Guild)
    (author member : Member) (reason : string) (st : Store) :
  guild i = Some g -> user i = AsMember author ->
  member_is member (owner g) = false -> outranked g author member = false ->
  confirm_outcome env = Accepted -> original_response_outcome env = None ->
  ban_outcome env = None -> db_works env OpLogAction ->
  db_works env OpGetServerSettings ->
  run env i (Ban member reason) st
  = (Ret tt,
     mkWorld (store (banned_world g author member reason st))
       (calls (banned_world g author member reason st)
        ++ modlog_events g (store (banned_world g author member reason st))
             (banned_embed author member reason))
       true).
Proof.
  intros Hg Hu Hown Hout Hc Hmsg Hban Hlog Hset.
  destruct (ban_reaches_modlog env i g author member reason st Hg Hu Hown Hout Hc Hmsg Hban Hlog)
    as [h [Hrun _]].
  unfold run. apply invoke_ret. rewrite Hrun. unfold try_except.
  now rewrite post_modlog_eq.
Qed.

(** The other failures of the broadcast are ignored: whatever the send
    in the log channel answers, and whether or not the channel resolves,
    [_post_modlog] returns normally once the settings were read. *)
Lemma modlog_send_failure_ignored (env : Env) (g : Guild) (e : Embed) (w : World) :
  db_works env OpGetServerSettings -> fst (_post_modlog env g e w) = Ret tt.
Proof. intros H. now rewrite post_modlog_eq. Qed.

(** ** Removing the latest warning *)

Lemma remove_first_length (p : WarningRecord -> bool) (ws : list WarningRecord) :
  filter p ws <> [] ->
  S (List.length (filter p (Db.remove_first p ws))) = List.length (filter p ws).
Proof.
  induction ws as [|w ws IH]; simpl; [congruence|].
  destruct (p w) eqn:Hp; simpl.
  - reflexivity.
  - rewrite Hp. exact IH.
Qed.

(** Modelled store: the coarse removal takes one warning off the count
    of a member who has any. *)
Lemma remove_warning_count (g m : Z) (st : Store) :
  Db.get_warning_count g m st >= 1 ->
  Db.get_warning_count g m (Db.remove_warning g m st) = Db.get_warning_count g m st - 1.
Proof.
  unfold Db.get_warning_count, Db.member_warnings, Db.remove_warning, Db.with_warnings.
  cbn [warnings_table]. intros H.
  rewrite <- (remove_first_length (Db.of_member g m) (warnings_table st)).
  - lia.
  - intros E. rewrite E in H. simpl in H. lia.
Qed.

Lemma log_action_count (g m : Z) g' action target moderator reason (st : Store) :
  Db.get_warning_count g m (Db.log_action g' action target moderator reason st)
  = Db.get_warning_count g m st.
Proof. reflexivity. Qed.

Lemma capabilities_eq (w : World) :
  db_capabilities w = (Ret (has_delete_warning (store w), has_remove_warning (store w)), w).
Proof. reflexivity. Qed.

Lemma lost_after_deferral (p : Payload) (st : Store) (cs : list Event) :
  lost_answer p (mkWorld st cs true) = (Raise no_view_in_followup, mkWorld st cs true).
Proof. now rewrite lost_answer_eq. Qed.

Lemma lost_keeps_store (p : Payload) (w : World) : store (snd (lost_answer p w)) = store w.
Proof. rewrite lost_answer_eq. now destruct (responded w). Qed.

Lemma acknowledged_true (env : Env) : defer_outcome env = None -> acknowledged env = true.
Proof. intros H. unfold acknowledged. now rewrite H. Qed.

Section Unwarn.

Variables (env : Env) (i : Interaction) (g : Guild) (member : Member) (st : Store).
Hypothesis in_guild : guild i = Some g.
Hypothesis has_warning : Db.get_warning_count (g_id g) (m_id member) st >= 1.
Hypothesis warnings_read : db_works env OpGetWarnings.
Hypothesis no_precise_delete : has_delete_warning st = false.

Lemma some_rows :
  exists latest rest, Db.get_warnings (g_id g) (m_id member) st = latest :: rest.
Proof.
  unfold Db.get_warnings. revert has_warning.
  unfold Db.get_warning_count.
  destruct (Db.member_warnings (g_id g) (m_id member) st) as [|w ws]; simpl; [lia|].
  intros _. now eexists _, _.
Qed.

Lemma unwarn_coarse :
  has_remove_warning st = true ->
  db_works env OpRemoveWarning -> db_works env OpGetWarningCount ->
  db_works env OpLogAction ->
  run env i (Unwarn member) st
  = lost_answer
      (unwarned member
         (Db.get_warning_count (g_id g) (m_id member)
            (Db.remove_warning (g_id g) (m_id member) st)))
      (mkWorld
         (Db.log_action (g_id g) "unwarn" (m_id member) (invoker_id (user i))
            (Some "Removed latest warning")
            (Db.remove_warning (g_id g) (m_id member) st))
         [EDefer true] (acknowledged env)).
Proof.
  intros Hrem Hrm Hcnt Hlog. unfold run, handler, unwarn, lost_answer. rewrite in_guild.
  apply invoke_eq.
  do 2 step.
  destruct some_rows as [latest [rest Hrows]]. rewrite Hrows.
  cbv zeta.
  erewrite bind_ret_eq by apply capabilities_eq. tidy.
  rewrite no_precise_delete, Hrem, andb_false_r.
  do 3 step. now apply respond_eq.
Qed.

Lemma unwarn_unsupported_backend :
  has_remove_warning st = false ->
  run env i (Unwarn member) st
  = lost_answer unwarn_unsupported (mkWorld st [EDefer true] (acknowledged env)).
Proof.
  intros Hrem. unfold run, handler, unwarn, lost_answer. rewrite in_guild.
  apply invoke_eq.
  do 2 step.
  destruct some_rows as [latest [rest Hrows]]. rewrite Hrows.
  cbv zeta.
  erewrite bind_ret_eq by apply capabilities_eq. tidy.
  rewrite no_precise_delete, Hrem, andb_false_r.
  now apply respond_eq.
Qed.

End Unwarn.

(** C7, where the code departs from it: unwarn in a guild against a
    member with at least one warning, over a store that answers.
    The store is treated as the claim says: with only the coarse
    removal the member's count goes down by one and the action
    "unwarn" is logged, and with neither deletion method the store is
    left as it was.  But the command answers through [_respond], which
    raises for [view=None]: once the deferral has gone through, neither
    the success message nor the not-supported error is sent; the only
    call of the run is the deferral, and the run ends with the
    library's exception. *)
Theorem unwarn_capability_probing (env : Env) (i : Interaction) (g : Guild) (member : Member)
    (st : Store) :
  guild i = Some g ->
  Db.get_warning_count (g_id g) (m_id member) st >= 1 ->
  db_works env OpGetWarnings ->
  has_delete_warning st = false ->
  let outcome := run env i (Unwarn member) st in
  let count s := Db.get_warning_count (g_id g) (m_id member) s in
  (has_remove_warning st = true ->
   db_works env OpRemoveWarning -> db_works env OpGetWarningCount ->
   db_works env OpLogAction ->
     count (store (snd outcome)) = count st - 1 /\
     action_log (store (snd outcome))
       = mkAction (g_id g) "unwarn" (m_id member) (invoker_id (user i))
           (Some "Removed latest warning") :: action_log st /\
     (defer_outcome env = None ->
      fst outcome = Raise no_view_in_followup /\ calls (snd outcome) = [EDefer true])) /\
  (has_remove_warning st = false ->
     store (snd outcome) = st /\
     (defer_outcome env = None ->
      outcome = (Raise no_view_in_followup, mkWorld st [EDefer true] true))).
Proof.
  intros Hg Hw Hread Hdel outcome count. split.
  - intros Hrem Hrm Hcnt Hlog. subst outcome.
    rewrite (unwarn_coarse env i g member st Hg Hw Hread Hdel Hrem Hrm Hcnt Hlog).
    rewrite lost_keeps_store. cbn [store]. subst count. cbv beta.
    rewrite log_action_count, (remove_warning_count _ _ _ Hw).
    split; [reflexivity|]. split; [reflexivity|].
    intros Hack. rewrite (acknowledged_true env Hack), lost_after_deferral.
    split; reflexivity.
  - intros Hrem. subst outcome.
    rewrite (unwarn_unsupported_backend env i g member st Hg Hw Hread Hdel Hrem).
    split; [apply lost_keeps_store|].
    intros Hack. now rewrite (acknowledged_true env Hack), lost_after_deferral.
Qed.

Lemma unwarn_capability_probing_witness :
  run Sample.calm Sample.by_mod (Unwarn Sample.user_m) Sample7.no_deletion
  = (Raise no_view_in_followup, mkWorld Sample7.no_deletion [EDefer true] true).
Proof.
  destruct (unwarn_capability_probing Sample.calm Sample.by_mod Sample.guild0 Sample.user_m
              Sample7.no_deletion) as [_ Hnone];
    [reflexivity | vm_compute; congruence | intros e; discriminate | reflexivity |].
  destruct Hnone as [_ Hrun]; [reflexivity|].
  apply Hrun. reflexivity.
Defined.

Example unwarn_scenario :
  run Sample.calm Sample.by_mod (Unwarn Sample.user_m) Sample7.coarse_only
  = (Raise no_view_in_followup,
     mkWorld (mkStore [] [mkAction 1 "unwarn" 300 200 (Some "Removed latest warning")] [] 2
                      false true)
             [EDefer true] true).
Proof. reflexivity. Qed.

(** ** The guild-context guard *)








(** ** Unban and the cleaning of its argument *)

Lemma whitespace_is_space (c : ascii) : Cleaning.is_whitespace c = PyStr.is_space c.
Proof. destruct c as [[] [] [] [] [] [] [] []]; reflexivity. Qed.

Lemma lstrip_drops (s : string) :
  list_ascii_of_string (PyStr.lstrip s) = Cleaning.drop_leading (list_ascii_of_string s).
Proof.
  induction s as [|c s IH]; [reflexivity|].
  cbn [PyStr.lstrip list_ascii_of_string Cleaning.drop_leading].
  rewrite whitespace_is_space. destruct (PyStr.is_space c); [exact IH | reflexivity].
Qed.

Lemma drop_leading_last (l : list ascii) (c : ascii) :
  Cleaning.drop_leading (l ++ [c])%list
  = match Cleaning.drop_leading l with
    | [] => if Cleaning.is_whitespace c then [] else [c]
    | r => (r ++ [c])%list
    end.
Proof.
  induction l as [|x l IH]; cbn [app Cleaning.drop_leading].
  - now destruct (Cleaning.is_whitespace c).
  - destruct (Cleaning.is_whitespace x); [exact IH | reflexivity].
Qed.

Lemma rstrip_drops (s : string) :
  list_ascii_of_string (PyStr.rstrip s)
  = rev (Cleaning.drop_leading (rev (list_ascii_of_string s))).
Proof.
  induction s as [|c s IH]; [reflexivity|].
  cbn [PyStr.rstrip list_ascii_of_string rev].
  rewrite drop_leading_last, whitespace_is_space.
  destruct (PyStr.rstrip s) as [|y r] eqn:Er;
    destruct (Cleaning.drop_leading (rev (list_ascii_of_string s))) as [|z t] eqn:Ed;
    cbn [list_ascii_of_string rev] in IH.
  - now destruct (PyStr.is_space c).
  - apply (f_equal (@List.length ascii)) in IH.
    rewrite length_app in IH. cbn in IH. lia.
  - discriminate IH.
  - cbn [list_ascii_of_string]. rewrite IH, rev_app_distr. reflexivity.
Qed.

(** [str.strip] strips what the claim calls the surrounding whitespace. *)
Lemma strip_spec (s : string) : PyStr.strip s = Cleaning.stripped s.
Proof.
  unfold PyStr.strip, Cleaning.stripped.
  rewrite <- lstrip_drops, <- rstrip_drops. now rewrite string_of_list_ascii_of_string.
Qed.






Lemma digit_not_space (c : ascii) : PyStr.is_digit c = true -> PyStr.is_space c = false.
Proof.
  destruct c as [[] [] [] [] [] [] [] []]; intros H; try reflexivity; discriminate H.
Qed.

Lemma digit_not_c_space (c : ascii) : PyStr.is_digit c = true -> PyStr.is_c_space c = false.
Proof.
  destruct c as [[] [] [] [] [] [] [] []]; intros H; try reflexivity; discriminate H.
Qed.

Lemma digit_not_sign (c : ascii) :
  PyStr.is_digit c = true -> Ascii.eqb c "-" = false /\ Ascii.eqb c "+" = false.
Proof.
  destruct c as [[] [] [] [] [] [] [] []]; intros H; try discriminate H; split; reflexivity.
Qed.

Lemma rstrip_digits (s : string) : PyStr.all_digits s = true -> PyStr.rstrip s = s.
Proof.
  induction s as [|c s IH]; [reflexivity|].
  simpl. intros H. apply andb_true_iff in H. destruct H as [Hc Hs].
  rewrite (IH Hs), (digit_not_space c Hc). now destruct s.
Qed.

Lemma strip_digits (s : string) : PyStr.all_digits s = true -> PyStr.strip s = s.
Proof.
  intros H. unfold PyStr.strip.
  replace (PyStr.lstrip s) with s; [now apply rstrip_digits|].
  destruct s as [|c s]; [reflexivity|].
  simpl in *. apply andb_true_iff in H. destruct H as [Hc _].
  now rewrite (digit_not_space c Hc).
Qed.

Lemma c_lstrip_digits (s : string) : PyStr.all_digits s = true -> PyStr.c_lstrip s = s.
Proof.
  intros H. destruct s as [|c s]; [reflexivity|].
  simpl in *. apply andb_true_iff in H. destruct H as [Hc _].
  now rewrite (digit_not_c_space c Hc).
Qed.

Lemma numeral_span_digits (s : string) :
  PyStr.all_digits s = true -> PyStr.numeral_span s = (s, EmptyString).
Proof.
  induction s as [|c s IH]; [reflexivity|].
  cbn [PyStr.all_digits PyStr.numeral_span]. intros H.
  apply andb_true_iff in H. destruct H as [Hc Hs].
  now rewrite Hc, (IH Hs).
Qed.

Lemma int_body_digits (s : string) (acc : Z) :
  PyStr.all_digits s = true ->
  PyStr.int_body acc true s = Some (PyStr.digits_value acc s).
Proof.
  revert acc. induction s as [|c s IH]; intros acc H; [reflexivity|].
  simpl in *. apply andb_true_iff in H. destruct H as [Hc Hs].
  rewrite Hc. now apply IH.
Qed.

Lemma digit_count_digits (s : string) :
  PyStr.all_digits s = true -> PyStr.digit_count s = String.length s.
Proof.
  induction s as [|c s IH]; [reflexivity|].
  cbn [PyStr.all_digits PyStr.digit_count String.length]. intros H.
  apply andb_true_iff in H. destruct H as [Hc Hs]. now rewrite Hc, IH.
Qed.

(** On a non-empty string of digits [int] fails only by its limit on
    the number of digits. *)
Lemma int_parse_digits (s : string) :
  PyStr.isdigit s = true ->
  PyStr.int_parse s
  = if (PyStr.int_max_str_digits <? String.length s)%nat then
      inl ("Exceeds the limit (4300 digits) for integer string conversion: value has "
           ++ PyStr.of_Z (Z.of_nat (String.length s))
           ++ " digits; use sys.set_int_max_str_digits() to increase the limit")
    else inr (PyStr.digits_value 0 s).
Proof.
  destruct s as [|c s]; [discriminate|].
  unfold PyStr.isdigit. intros H.
  unfold PyStr.int_parse. rewrite (c_lstrip_digits _ H).
  pose proof (digit_count_digits _ H) as Hn.
  pose proof (numeral_span_digits _ H) as Hspan.
  cbn [PyStr.all_digits] in H. apply andb_true_iff in H. destruct H as [Hc Hs].
  destruct (digit_not_sign c Hc) as [Hm Hp].
  assert (Hsign : (match String c s with
                   | String "-" b => (true, b)
                   | String "+" b => (false, b)
                   | _ => (false, String c s)
                   end) = (false, String c s)).
  { destruct c as [[] [] [] [] [] [] [] []]; try reflexivity; discriminate. }
  rewrite Hsign, Hspan.
  assert (Hbody : PyStr.int_body 0 false (String c s)
                  = Some (PyStr.digits_value 0 (String c s))).
  { cbn [PyStr.int_body PyStr.digits_value]. rewrite Hc. now apply int_body_digits. }
  rewrite Hbody, Hn. reflexivity.
Qed.

Lemma int_of_digits (s : string) :
  PyStr.isdigit s = true -> (String.length s <= PyStr.int_max_str_digits)%nat ->
  PyStr.int_of_string s = Some (PyStr.digits_value 0 s).
Proof.
  intros H Hn. unfold PyStr.int_of_string. rewrite (int_parse_digits s H).
  replace (PyStr.int_max_str_digits <? String.length s)%nat with false; [reflexivity|].
  symmetry. apply Nat.ltb_ge. exact Hn.
Qed.

Lemma prefix_empty (s : string) : prefix "" s = true.
Proof. now destruct s. Qed.

(** [replace] with a one-character pattern and nothing to put in its
    place deletes that character wherever it stands. *)
Lemma replace_char (c : ascii) (s : string) :
  PyStr.replace (String c "") "" s = Cleaning.delete_char c s.
Proof.
  unfold PyStr.replace.
  induction s as [|x s IH]; [reflexivity|].
  cbn [PyStr.replace_from Cleaning.delete_char prefix String.length Nat.pred].
  rewrite Ascii.eqb_sym.
  destruct (ascii_dec c x) as [E|E].
  - subst x. rewrite Ascii.eqb_refl, prefix_empty. exact IH.
  - apply Ascii.eqb_neq in E. rewrite E. now rewrite IH.
Qed.

(** [replace] of "<@" by nothing, on a string and on the string behind
    any first character. *)
Lemma replace_mention_both (s : string) :
  PyStr.replace_from "<@" "" 0 s = Cleaning.delete_mention s /\
  forall x, PyStr.replace_from "<@" "" 0 (String x s) = Cleaning.delete_mention (String x s).
Proof.
  induction s as [|y s [IH1 IH2]].
  - split; [reflexivity|]. intros x.
    cbn [PyStr.replace_from prefix Cleaning.delete_mention].
    destruct (ascii_dec "<" x); reflexivity.
  - split; [apply IH2|]. intros x.
    cbn [PyStr.replace_from Cleaning.delete_mention prefix String.length Nat.pred].
    destruct (ascii_dec "<" x) as [Ex|Ex]; [destruct (ascii_dec "@" y) as [Ey|Ey]|].
    + subst x y. rewrite prefix_empty. cbn [Ascii.eqb Bool.eqb andb append]. exact IH1.
    + subst x. apply Ascii.eqb_neq in Ey. rewrite Ascii.eqb_sym in Ey.
      rewrite Ey, andb_false_r. f_equal. apply IH2.
    + apply Ascii.eqb_neq in Ex. rewrite Ascii.eqb_sym in Ex.
      rewrite Ex. cbn [andb]. f_equal. apply IH2.
Qed.

(** The chain of calls in the source deletes what the claim lists. *)
Lemma clean_user_id_spec (s : string) :
  clean_user_id s = Cleaning.decorations_deleted s.
Proof.
  unfold clean_user_id, Cleaning.decorations_deleted.
  rewrite !replace_char, <- strip_spec. f_equal. f_equal.
  apply (proj1 (replace_mention_both _)).
Qed.

Section Unban.

Variables (env : Env) (i : Interaction) (g : Guild) (author : Member) (st : Store).
Hypothesis in_guild : guild i = Some g.
Hypothesis by_member : user i = AsMember author.

Lemma unban_rejects (user_id : string) :
  PyStr.isdigit (clean_user_id user_id) = false ->
  rejects (run env i (Unban user_id) st) st invalid_user_id.
Proof.
  intros H. unfold run, handler, unban. rewrite in_guild, by_member.
  cbv zeta. rewrite H. now apply respond_rejects.
Qed.

(** An accepted identifier: after the deferral, the first call resolves
    the number the digits denote. *)
Lemma unban_proceeds (user_id : string) :
  PyStr.isdigit (clean_user_id user_id) = true ->
  (String.length (clean_user_id user_id) <= PyStr.int_max_str_digits)%nat ->
  exists rest,
    calls (snd (run env i (Unban user_id) st))
    = EDefer true :: EFetchUser (PyStr.digits_value 0 (clean_user_id user_id)) :: rest.
Proof.
  intros H Hn. unfold run, handler, unban. rewrite in_guild, by_member.
  cbv zeta. rewrite H, (int_parse_digits _ H). cbn [negb].
  replace (PyStr.int_max_str_digits <? String.length (clean_user_id user_id))%nat with false
    by (symmetry; apply Nat.ltb_ge; exact Hn).
  unfold invoke. unfold try_except at 1.
  erewrite bind_ret_eq by apply defer_eq. tidy.
  rewrite platform_first.
  match goal with
  | |- context [try_except ?m ?h ?w] =>
      assert (Hq : emits any_call (invoke (try_except m h)))
  end.
  { apply emits_invoke; [reflexivity|]. apply emits_try.
    - apply emits_bind; [apply emits_answer|]. intros _. emits_auto.
    - intros e. emits_auto. }
  match goal with
  | |- context [try_except ?m ?h ?w] => destruct (Hq w) as [l [El _]]
  end.
  exists l. exact El.
Qed.


End Unban.

(** C9: in a guild, invoked by a member, unban cleans "123456789",
    "<@123456789>" and "<@!123456789>" to the same digits and goes on
    to resolve the user 123456789, while "abc" is rejected: the first
    call is the invalid-user-ID error, sent as the initial response,
    no call other than a message on the interaction follows, and the
    store is left as it was. *)
Theorem unban_input_cleaning (env : Env) (i : Interaction) (g : Guild) (author : Member)
    (st : Store) :
  guild i = Some g -> user i = AsMember author ->
  (forall user_id,
     In user_id ["123456789"; "<@123456789>"; "<@!123456789>"] ->
     clean_user_id user_id = "123456789" /\
     exists rest,
       calls (snd (run env i (Unban user_id) st))
       = EDefer true :: EFetchUser 123456789 :: rest) /\
  rejects (run env i (Unban "abc") st) st invalid_user_id.
Proof.
  intros Hg Hu. split.
  - intros user_id Hin.
    assert (Hclean : clean_user_id user_id = "123456789").
    { simpl in Hin. destruct Hin as [E|[E|[E|[]]]]; subst user_id; reflexivity. }
    split; [exact Hclean|].
    destruct (unban_proceeds env i g author st Hg Hu user_id) as [rest Hrest].
    + now rewrite Hclean.
    + rewrite Hclean. cbv. lia.
    + exists rest. rewrite Hrest, Hclean. reflexivity.
  - now apply (unban_rejects env i g author).
Qed.

Lemma unban_input_cleaning_witness :
  rejects (run Sample.calm Sample.by_mod (Unban "abc") Sample.empty_store)
          Sample.empty_store invalid_user_id.
Proof.
  apply (proj2 (unban_input_cleaning Sample.calm Sample.by_mod Sample.guild0 Sample.mod_m
                  Sample.empty_store eq_refl eq_refl)).
Defined.





(** The same cleaning on inputs the claims do not list. *)
Example cleaning_samples :
  clean_user_id "  <@!42>  " = "42" /\
  clean_user_id "12!34>56" = "123456" /\
  clean_user_id "<<@@7" = "<@7" /\
  clean_user_id "<@ 7>" = " 7" /\
  clean_user_id "<@>!" = "" /\
  PyStr.isdigit (clean_user_id "<@>!") = false /\
  PyStr.isdigit (clean_user_id "<@ 7>") = false.
Proof. repeat split. Qed.
(** * Further properties of the cog *)

(** ** Acknowledging an interaction *)

(** X5: [_defer] never raises and never touches the store.  On an
    interaction that already has a response it does nothing; after a
    deferral that went through, a second one does nothing, so the
    interaction is acknowledged once.  A deferral that failed leaves the
    interaction unanswered, and the next [_defer] tries again. *)
Theorem defer_is_idempotent (env : Env) (eph eph' : bool) (w : World) :
  fst (_defer env eph w) = Ret tt /\
  store (snd (_defer env eph w)) = store w /\
  (responded w = true -> _defer env eph w = (Ret tt, w)) /\
  (defer_outcome env = None ->
     bind (_defer env eph) (fun _ => _defer env eph') w = _defer env eph w /\
     responded (snd (_defer env eph w)) = true) /\
  (forall e, defer_outcome env = Some e -> responded w = false ->
     bind (_defer env eph) (fun _ => _defer env eph') w
     = (Ret tt, mkWorld (store w) (calls w ++ [EDefer eph; EDefer eph']) false)).
Proof.
  rewrite defer_eq. cbn [fst snd].
  split; [reflexivity|]. split; [now destruct (responded w)|].
  split; [intros H; now rewrite H|]. split.
  - intros Hd. erewrite bind_ret_eq by apply defer_eq. rewrite defer_eq.
    unfold acknowledged. rewrite Hd.
    destruct (responded w) eqn:Hr; cbn [responded]; [now rewrite Hr|]. split; reflexivity.
  - intros e Hd Hr. erewrite bind_ret_eq by apply defer_eq. rewrite defer_eq.
    unfold acknowledged. rewrite Hd, Hr. cbn [responded store calls].
    now rewrite <- app_assoc.
Qed.

Lemma defer_is_idempotent_witness :
  bind (_defer Sample.calm true) (fun _ => _defer Sample.calm true)
       (init_world Sample.empty_store)
  = _defer Sample.calm true (init_world Sample.empty_store).
Proof.
  destruct (defer_is_idempotent Sample.calm true true (init_world Sample.empty_store))
    as [_ [_ [_ [H _]]]].
  apply H. reflexivity.
Defined.


(** ** Best-effort side channels *)











(** ** A warning is recorded first *)


(** Modelled store: recording a warning raises the member's count by one. *)
Lemma updated_count_succ (g : Guild) (author member : Member) (reason : string) (st : Store) :
  updated_count g author member reason st
  = Db.get_warning_count (g_id g) (m_id member) st + 1.
Proof.
  unfold updated_count, warned_store, Db.get_warning_count, Db.member_warnings,
    Db.log_action, Db.add_warning.
  cbn [warnings_table filter]. unfold Db.of_member at 1. cbn [wr_guild wr_member].
  rewrite !Z.eqb_refl. cbn [andb Datatypes.length]. lia.
Qed.

Lemma keeps_threshold_action (env : Env) (member : Member) (n : Z) :
  keeps_store (threshold_action env member n).
Proof.
  unfold threshold_action, config_item, subscript, timedelta_minutes.
  cbv zeta.
  repeat first
    [ keeps_step
    | match goal with
      | |- keeps_store (if ?b then _ else _) => destruct b
      end ].
Qed.

(** X12: the first thing a warn past its guards does is to record the
    warning and the action.  Once these two writes went through, the
    store is not touched again: whatever the count read, the settings
    read, the log channel, the direct message, the configuration or the
    threshold action do, the store holds exactly the new warning and the
    new "warn" entry, and on the modelled store the member's count is
    one more than before. *)
Theorem warn_records_first (env : Env) (i : Interaction) (g : Guild)
    (author member : Member) (reason : string) (st : Store) :
  guild i = Some g -> user i = AsMember author -> outranked g author member = false ->
  db_works env OpAddWarning -> db_works env OpLogAction ->
  let st' := store (snd (run env i (Warn member reason) st)) in
  st' = warned_store g author member reason st /\
  action_log st'
    = mkAction (g_id g) "warn" (m_id member) (m_id author) (Some reason) :: action_log st /\
  Db.get_warning_count (g_id g) (m_id member) st'
    = Db.get_warning_count (g_id g) (m_id member) st + 1.
Proof.
  intros Hg Hu Hout Hadd Hlog st'.
  assert (Hst : st' = warned_store g author member reason st).
  { subst st'. unfold run, handler, warn. rewrite Hg, Hu, Hout.
    match goal with
    | |- store (snd (invoke (bind _ (fun _ => bind _ (fun _ => bind _ (fun _ => ?rest)))) _)) = _ =>
        assert (Hk : keeps_store (invoke rest));
        [|assert (Hrun : forall m : M unit,
                    m = bind (_defer env true)
                          (fun _ => bind (db_write env OpAddWarning
                                            (Db.add_warning (g_id g) (m_id member)
                                               (m_id author) reason))
                             (fun _ => bind (db_write env OpLogAction
                                               (Db.log_action (g_id g) "warn" (m_id member)
                                                  (m_id author) (Some reason)))
                                (fun _ => rest))) ->
                    invoke m (init_world st)
                    = invoke rest
                        (mkWorld (warned_store g author member reason st) [EDefer true]
                           (acknowledged env)))]
    end.
    - apply keeps_invoke.
      apply keeps_bind; [apply keeps_db_read|]. intros n.
      apply keeps_bind; [apply keeps_respond|]. intros _.
      apply keeps_bind; [apply keeps_post_modlog|]. intros _.
      apply keeps_bind; [|intros _; apply keeps_threshold_action].
      apply keeps_try; [apply keeps_platform | intros _; apply keeps_ret].
    - intros m ->. apply invoke_eq. do 3 step. reflexivity.
    - rewrite (Hrun _ eq_refl). now rewrite Hk. }
  split; [exact Hst|]. rewrite Hst. split; [reflexivity|].
  apply updated_count_succ.
Qed.

Lemma warn_records_first_witness :
  Db.get_warning_count 1 300
    (store (snd (run Sample5.env Sample.by_mod (Warn Sample.user_m "spam") Sample.empty_store)))
  = Db.get_warning_count 1 300 Sample.empty_store + 1.
Proof.
  apply (proj2 (proj2 (warn_records_first Sample5.env Sample.by_mod Sample.guild0 Sample.mod_m
                         Sample.user_m "spam" Sample.empty_store eq_refl eq_refl eq_refl
                         ltac:(intros e; discriminate) ltac:(intros e; discriminate)))).
Defined.


(** ** Bulk deletion *)

Lemma moderation_section_world (env : Env) (w : World) mod_cfg :
  fst (moderation_section env w) = Ret mod_cfg ->
  forall w', moderation_section env w' = (Ret mod_cfg, w').
Proof.
  intros H w'. unfold moderation_section in *.
  destruct (bot_config env) as [c|]; [|simpl in H; now inversion H].
  destruct (Py.or_ c (PyDict [])); try discriminate H.
  destruct (Py.get_default _ _ _); simpl in H; now inversion H.
Qed.

Section Purge.

Variables (env : Env) (i : Interaction) (g : Guild) (st : Store) (amount : Z)
  (mod_cfg : list (string * PyVal)).
Hypothesis in_guild : guild i = Some g.
Hypothesis section_read : fst (moderation_section env (init_world st)) = Ret mod_cfg.

Let max_amount := int_setting mod_cfg "max_purge_amount" 100.

Lemma purge_above_cap :
  amount > max_amount ->
  rejects (run env i (Purge amount) st) st (purge_too_many max_amount).
Proof.
  intros Hgt. unfold run, handler, purge. rewrite in_guild.
  erewrite invoke_eq.
  - apply (respond_rejects (purge_too_many max_amount) st). reflexivity.
  - erewrite bind_ret_eq
      by apply (moderation_section_world env (init_world st) mod_cfg section_read).
    fold max_amount.
    replace (amount >? max_amount) with true by (symmetry; apply Z.gtb_lt; lia).
    reflexivity.
Qed.

Hypothesis within_cap : amount <= max_amount.

Lemma purge_past_cap (w : World) :
  handler env i (Purge amount) w
  = bind (response_defer env true)
      (fun _ =>
         match channel i with
         | ChannelWithPurge channel_id =>
             try_except
               (bind (channel_purge env channel_id amount)
                  (fun deleted =>
                     bind (followup_send
                             (embed_payload
                                (create_success_embed
                                   ("Deleted **" ++ PyStr.of_Z deleted ++ "** messages."))
                                true))
                       (fun _ =>
                          db_write env OpLogAction
                            (Db.log_action (g_id g) "purge" (invoker_id (user i))
                               (invoker_id (user i))
                               (Some ("Purged " ++ PyStr.of_Z deleted ++ " messages"))))))
               (fun e =>
                  if isinstance e Forbidden then
                    Some (followup_send
                            (error_reply "I don't have permission to delete messages here."))
                  else if isinstance e HTTPException then
                    Some (followup_send
                            (error_reply "Failed to delete messages. Messages might be too old."))
                  else None)
         | _ =>
             followup_send (error_reply "This command can only be used in a text-based channel.")
         end) w.
Proof.
  unfold handler, purge. rewrite in_guild.
  erewrite bind_ret_eq
    by apply (moderation_section_world env (init_world st) mod_cfg section_read).
  fold max_amount.
  replace (amount >? max_amount) with false by (rewrite Z.gtb_ltb; symmetry; apply Z.ltb_ge; lia).
  reflexivity.
Qed.

(** The acknowledgement of [purge] is not best-effort: when it fails,
    nothing is deleted and nothing is logged. *)
Lemma purge_unacknowledged (e : Exn) :
  defer_outcome env = Some e ->
  run env i (Purge amount) st
  = unanswered (reported e) (mkWorld st [EDefer true] false).
Proof.
  intros Hd. unfold run. apply invoke_raise. rewrite purge_past_cap.
  unfold bind at 1, response_defer, bind, is_done, platform, bind, emit, answer.
  cbn [responded init_world]. rewrite Hd. reflexivity.
Qed.

Hypothesis acknowledged : defer_outcome env = None.

Lemma response_defer_eq :
  response_defer env true (init_world st) = (Ret tt, mkWorld st [EDefer true] true).
Proof.
  unfold response_defer, bind, is_done, platform, bind, emit, answer. cbn.
  now rewrite acknowledged.
Qed.

(** Outside a channel that can purge, the answer is an error and
    nothing else happens. *)
Lemma purge_wrong_channel :
  (forall c, channel i <> ChannelWithPurge c) ->
  run env i (Purge amount) st
  = (Ret tt,
     mkWorld st
       [EDefer true;
        ESend true (error_reply "This command can only be used in a text-based channel.")]
       true).
Proof.
  intros Hc. unfold run. apply invoke_ret. rewrite purge_past_cap.
  erewrite bind_ret_eq by apply response_defer_eq.
  destruct (channel i) as [|c|c]; try reflexivity. now elim (Hc c).
Qed.

Variable channel_id : Z.
Hypothesis in_channel : channel i = ChannelWithPurge channel_id.

(** The deletion went through: it is reported and logged, with the
    invoker as both target and moderator. *)
Lemma purge_deleted (deleted : Z) :
  purge_outcome env = inr deleted -> db_works env OpLogAction ->
  run env i (Purge amount) st
  = (Ret tt,
     mkWorld
       (Db.log_action (g_id g) "purge" (invoker_id (user i)) (invoker_id (user i))
          (Some ("Purged " ++ PyStr.of_Z deleted ++ " messages")) st)
       [EDefer true; EPurge channel_id amount;
        ESend true
          (embed_payload
             (create_success_embed ("Deleted **" ++ PyStr.of_Z deleted ++ "** messages."))
             true)]
       true).
Proof.
  intros Hp Hdb. unfold run. apply invoke_ret. rewrite purge_past_cap.
  erewrite bind_ret_eq by apply response_defer_eq.
  rewrite in_channel. unfold try_except.
  assert (Hpurge : forall w, channel_purge env channel_id amount w
                             = (Ret deleted,
                                mkWorld (store w) (calls w ++ [EPurge channel_id amount])
                                  (responded w))).
  { intros w. unfold channel_purge, bind, emit. now rewrite Hp. }
  erewrite bind_ret_eq by apply Hpurge. tidy.
  erewrite bind_ret_eq by apply emit_eq. tidy.
  rewrite db_write_eq by assumption. reflexivity.
Qed.

(** The deletion failed: one call was issued, the store is as it was,
    and the answer depends on the kind of failure. *)
Lemma purge_failed (e : Exn) :
  purge_outcome env = inl e ->
  run env i (Purge amount) st
  = match forbidden_or_http "I don't have permission to delete messages here."
            "Failed to delete messages. Messages might be too old." e with
    | Some m =>
        (Ret tt,
         mkWorld st [EDefer true; EPurge channel_id amount; ESend true (error_reply m)] true)
    | None =>
        (Raise no_view_in_followup, mkWorld st [EDefer true; EPurge channel_id amount] true)
    end.
Proof.
  intros Hp.
  assert (Hpurge : forall w, channel_purge env channel_id amount w
                             = (Raise e,
                                mkWorld (store w) (calls w ++ [EPurge channel_id amount])
                                  (responded w))).
  { intros w. unfold channel_purge, bind, emit. now rewrite Hp. }
  unfold run, forbidden_or_http.
  destruct (isinstance e Forbidden) eqn:Hf; [|destruct (isinstance e HTTPException) eqn:Hh].
  - apply invoke_ret. rewrite purge_past_cap.
    erewrite bind_ret_eq by apply response_defer_eq.
    rewrite in_channel. unfold try_except.
    erewrite bind_raise_eq by apply Hpurge. now rewrite Hf.
  - apply invoke_ret. rewrite purge_past_cap.
    erewrite bind_ret_eq by apply response_defer_eq.
    rewrite in_channel. unfold try_except.
    erewrite bind_raise_eq by apply Hpurge. now rewrite Hf, Hh.
  - rewrite (invoke_raise _ _ (mkWorld st [EDefer true; EPurge channel_id amount] true) e);
      [reflexivity|]. rewrite purge_past_cap.
    erewrite bind_ret_eq by apply response_defer_eq.
    rewrite in_channel. unfold try_except.
    erewrite bind_raise_eq by apply Hpurge. now rewrite Hf, Hh.
Qed.

Lemma purge_issued_once :
  filter is_purge_call (calls (snd (run env i (Purge amount) st)))
  = [EPurge channel_id amount].
Proof.
  destruct (purge_outcome env) as [e|deleted] eqn:Hp.
  - rewrite (purge_failed e Hp). now destruct (forbidden_or_http _ _ e).
  - assert (Hq : emits (fun ev => negb (is_purge_call ev))
                   (invoke
                      (try_except
                         (bind (followup_send
                                  (embed_payload
                                     (create_success_embed
                                        ("Deleted **" ++ PyStr.of_Z deleted ++ "** messages."))
                                     true))
                            (fun _ =>
                               db_write env OpLogAction
                                 (Db.log_action (g_id g) "purge" (invoker_id (user i))
                                    (invoker_id (user i))
                                    (Some ("Purged " ++ PyStr.of_Z deleted ++ " messages")))))
                         (fun e =>
                            if isinstance e Forbidden then
                              Some (followup_send
                                      (error_reply
                                         "I don't have permission to delete messages here."))
                            else if isinstance e HTTPException then
                              Some (followup_send
                                      (error_reply
                                         "Failed to delete messages. Messages might be too old."))
                            else None)))).
    { apply emits_invoke; [reflexivity|]. apply emits_try.
      - emits_auto.
      - intros e. destruct (isinstance e Forbidden); [emits_auto|].
        destruct (isinstance e HTTPException); [emits_auto | exact I]. }
    destruct (Hq (mkWorld st [EDefer true; EPurge channel_id amount] true)) as [l [El Pl]].
    unfold run.
    erewrite invoke_eq.
    + rewrite El. cbn [calls app filter is_purge_call].
      f_equal. clear El. induction l as [|ev l IH]; [reflexivity|].
      cbn [forallb] in Pl. apply andb_true_iff in Pl. destruct Pl as [Pev Pl].
      cbn [filter]. apply negb_true_iff in Pev. rewrite Pev. now apply IH.
    + rewrite purge_past_cap.
      erewrite bind_ret_eq by apply response_defer_eq.
      rewrite in_channel. unfold channel_purge.
      unfold try_except at 1. unfold bind at 1. unfold bind at 1.
      rewrite emit_eq, Hp. cbn [ret]. reflexivity.
Qed.

End Purge.

(** X1: in a guild, with the moderation section read from the
    configuration and a [max_purge_amount] that, when it is text, is
    ASCII text, purge issues a bulk deletion exactly when the amount is
    within [max_purge_amount] (100 when not configured or not a
    number), the acknowledgement of the interaction goes through and
    the channel can purge; then it issues one, with the requested
    amount as limit.  A request above the maximum is rejected: the
    first call is the answer that names the maximum, only messages on
    the interaction follow, and the store is left as it was. *)
Theorem purge_deletes_exactly_when (env : Env) (i : Interaction) (g : Guild) (st : Store)
    (amount : Z) (mod_cfg : list (string * PyVal)) :
  guild i = Some g ->
  fst (moderation_section env (init_world st)) = Ret mod_cfg ->
  Py.is_ascii_value (Py.get_default "max_purge_amount" (PyInt 100) mod_cfg) = true ->
  let max_amount := int_setting mod_cfg "max_purge_amount" 100 in
  let outcome := run env i (Purge amount) st in
  filter is_purge_call (calls (snd outcome))
    = match purge_goes_ahead env i max_amount amount with
      | Some c => [EPurge c amount]
      | None => []
      end /\
  (amount > max_amount -> rejects outcome st (purge_too_many max_amount)) /\
  (purge_goes_ahead env i max_amount amount = None -> store (snd outcome) = st).
Proof.
  intros Hg Hs _ max_amount outcome. subst outcome.
  assert (Habove : amount > max_amount ->
                   rejects (run env i (Purge amount) st) st (purge_too_many max_amount)).
  { intros Hgt. now apply (purge_above_cap env i g st amount mod_cfg). }
  unfold purge_goes_ahead.
  destruct (amount >? max_amount) eqn:Hcmp.
  - apply Z.gtb_lt in Hcmp.
    destruct Habove as [_ [Hsends Hstore]]; [lia|].
    split; [|split; [intros _; apply (purge_above_cap env i g st amount mod_cfg Hg Hs); lia|]].
    + induction (calls (snd (run env i (Purge amount) st))) as [|ev l IH]; [reflexivity|].
      cbn [forallb] in Hsends. apply andb_true_iff in Hsends. destruct Hsends as [Hev Hl].
      destruct ev; try discriminate Hev. cbn [filter is_purge_call]. now apply IH.
    + intros _. exact Hstore.
  - assert (Hle : amount <= max_amount).
    { rewrite Z.gtb_ltb in Hcmp. now apply Z.ltb_ge in Hcmp. }
    split; [|split; [exact Habove|]].
    + destruct (defer_outcome env) as [e|] eqn:Hd.
      * rewrite (purge_unacknowledged env i g st amount mod_cfg Hg Hs Hle e Hd).
        reflexivity.
      * destruct (channel i) as [|c|c] eqn:Hc.
        -- rewrite (purge_wrong_channel env i g st amount mod_cfg Hg Hs Hle Hd);
             [reflexivity | intros c; rewrite Hc; discriminate].
        -- rewrite (purge_wrong_channel env i g st amount mod_cfg Hg Hs Hle Hd);
             [reflexivity | intros c'; rewrite Hc; discriminate].
        -- now apply (purge_issued_once env i g st amount mod_cfg).
    + destruct (defer_outcome env) as [e|] eqn:Hd.
      * intros _.
        rewrite (purge_unacknowledged env i g st amount mod_cfg Hg Hs Hle e Hd).
        reflexivity.
      * destruct (channel i) as [|c|c] eqn:Hc; try discriminate; intros _;
          rewrite (purge_wrong_channel env i g st amount mod_cfg Hg Hs Hle Hd);
          try reflexivity; intros c'; rewrite Hc; discriminate.
Qed.

Lemma purge_deletes_exactly_when_witness :
  rejects (run Sample8.env Sample.by_mod (Purge 100) Sample.empty_store)
    Sample.empty_store (purge_too_many 50) /\
  filter is_purge_call (calls (snd (run Sample8.env Sample.by_mod (Purge 50) Sample.empty_store)))
    = [EPurge 7 50].
Proof.
  split.
  - apply (purge_deletes_exactly_when Sample8.env Sample.by_mod Sample.guild0
             Sample.empty_store 100 [("max_purge_amount", PyInt 50)] eq_refl eq_refl eq_refl).
    reflexivity.
  - apply (proj1 (purge_deletes_exactly_when Sample8.env Sample.by_mod Sample.guild0
                    Sample.empty_store 50 [("max_purge_amount", PyInt 50)] eq_refl eq_refl
                    eq_refl)).
Defined.

(** The maximum as [int] reads it from text: blanks around the digits
    are skipped, a separator character is not a blank, and what is not
    a number leaves the default of 100. *)
Example max_purge_amount_from_text :
  int_setting [("max_purge_amount", PyStr " 25 ")] "max_purge_amount" 100 = 25 /\
  int_setting [("max_purge_amount", PyStr "1_0")] "max_purge_amount" 100 = 10 /\
  int_setting [("max_purge_amount", PyStr (String (ascii_of_nat 31) "3"))]
    "max_purge_amount" 100 = 100 /\
  int_setting [("max_purge_amount", PyStr "many")] "max_purge_amount" 100 = 100 /\
  int_setting [("max_purge_amount", PyNone)] "max_purge_amount" 100 = 100 /\
  int_setting [] "max_purge_amount" 100 = 100.
Proof. repeat split. Qed.

(** X2: a purge that goes ahead writes its action-log entry only after
    the deletion returned: the entry names the invoker as target and as
    moderator and carries the number of messages actually deleted, which
    the platform decides.  When the deletion fails, the store is left as
    it was and the answer tells a missing permission from another
    platform error; any other failure is left to the error handler,
    which sends nothing after a deferral. *)
Theorem purge_logs_what_was_deleted (env : Env) (i : Interaction) (g : Guild) (st : Store)
    (amount : Z) (mod_cfg : list (string * PyVal)) (c : Z) :
  guild i = Some g ->
  fst (moderation_section env (init_world st)) = Ret mod_cfg ->
  Py.is_ascii_value (Py.get_default "max_purge_amount" (PyInt 100) mod_cfg) = true ->
  amount <= int_setting mod_cfg "max_purge_amount" 100 ->
  defer_outcome env = None -> channel i = ChannelWithPurge c ->
  let outcome := run env i (Purge amount) st in
  (forall deleted,
     purge_outcome env = inr deleted -> db_works env OpLogAction ->
     action_log (store (snd outcome))
       = mkAction (g_id g) "purge" (invoker_id (user i)) (invoker_id (user i))
           (Some ("Purged " ++ PyStr.of_Z deleted ++ " messages")) :: action_log st /\
     last (calls (snd outcome)) EConfirmWait
       = ESend true
           (embed_payload
              (create_success_embed ("Deleted **" ++ PyStr.of_Z deleted ++ "** messages."))
              true)) /\
  (forall e, purge_outcome env = inl e ->
     store (snd outcome) = st /\
     (isinstance e Forbidden = true ->
      last (calls (snd outcome)) EConfirmWait
        = ESend true (error_reply "I don't have permission to delete messages here.")) /\
     (isinstance e Forbidden = false -> isinstance e HTTPException = true ->
      last (calls (snd outcome)) EConfirmWait
        = ESend true (error_reply "Failed to delete messages. Messages might be too old.")) /\
     (isinstance e HTTPException = false ->
      outcome = (Raise no_view_in_followup, mkWorld st [EDefer true; EPurge c amount] true))).
Proof.
  intros Hg Hs _ Hle Hd Hc outcome. subst outcome. split.
  - intros deleted Hp Hdb.
    rewrite (purge_deleted env i g st amount mod_cfg Hg Hs Hle Hd c Hc deleted Hp Hdb).
    split; reflexivity.
  - intros e Hp.
    rewrite (purge_failed env i g st amount mod_cfg Hg Hs Hle Hd c Hc e Hp).
    unfold forbidden_or_http.
    destruct (isinstance e Forbidden) eqn:Hf.
    + repeat split; try discriminate. intros Hh.
      rewrite (forbidden_is_http e Hh) in Hf. discriminate Hf.
    + destruct (isinstance e HTTPException) eqn:Hh; repeat split; discriminate.
Qed.

Lemma purge_logs_what_was_deleted_witness :
  action_log (store (snd (run Sample9.env Sample.by_mod (Purge 50) Sample.empty_store)))
  = [mkAction 1 "purge" 200 200 (Some "Purged 42 messages")].
Proof.
  apply (proj1 (purge_logs_what_was_deleted Sample9.env Sample.by_mod Sample.guild0
                  Sample.empty_store 50 [("max_purge_amount", PyInt 50)] 7 eq_refl eq_refl
                  eq_refl ltac:(vm_compute; congruence) eq_refl eq_refl) 42 eq_refl
           ltac:(intros e; discriminate)).
Defined.

(** ** Answers that are lost *)

Lemma lost_answer_lost (env : Env) (p : Payload) (st : Store) (cs : list Event) :
  answer_lost env (lost_answer p (mkWorld st (EDefer true :: cs) (acknowledged env))) st cs p.
Proof.
  rewrite lost_answer_eq. unfold answer_lost. cbn [responded store calls].
  destruct (acknowledged env); cbn [fst snd store calls app].
  - split; [reflexivity|]. split; [eexists; reflexivity | reflexivity].
  - split; [reflexivity|]. split; [eexists; reflexivity|].
    eexists. reflexivity.
Qed.

Lemma unanswered_lost (env : Env) (e : Exn) (st : Store) (cs : list Event) :
  answer_lost env
    (unanswered (A := unit) (reported e) (mkWorld st (EDefer true :: cs) (acknowledged env)))
    st cs (reported e).
Proof.
  unfold answer_lost, unanswered. cbn [responded store calls].
  destruct (acknowledged env); cbn [fst snd store calls app].
  - split; [reflexivity|]. split; [eexists; reflexivity | reflexivity].
  - split; [reflexivity|]. split; [eexists; reflexivity|].
    exists []. reflexivity.
Qed.

Lemma failure_lost (env : Env) (on_failure : Exn -> option string) (e : Exn) (st : Store)
    (cs : list Event) :
  answer_lost env
    (match on_failure e with
     | Some m => lost_answer (error_reply m) (mkWorld st (EDefer true :: cs) (acknowledged env))
     | None => unanswered (reported e) (mkWorld st (EDefer true :: cs) (acknowledged env))
     end)
    st cs (failure_reply on_failure e).
Proof.
  unfold failure_reply. destruct (on_failure e); [apply lost_answer_lost | apply unanswered_lost].
Qed.

(** After a deferral that went through, a lost answer leaves the
    deferral and the calls made before it, and nothing else. *)
Lemma answer_lost_acknowledged (env : Env) (outcome : Result unit * World) (st : Store)
    (cs : list Event) (p : Payload) :
  defer_outcome env = None -> answer_lost env outcome st cs p ->
  calls (snd outcome) = EDefer true :: cs.
Proof.
  intros Hd [_ [_ H]]. now rewrite (acknowledged_true env Hd) in H.
Qed.

(** ** Listing and clearing warnings *)

Lemma warning_fields_names (rows : list (list (string * PyVal))) (k : nat) :
  map fst (warning_fields (Z.of_nat k) rows)
  = map (fun j => "Warning " ++ PyStr.of_Z (Z.of_nat j)) (seq k (List.length rows)).
Proof.
  revert k. induction rows as [|r rows IH]; intros k; [reflexivity|].
  cbn [warning_fields map seq Datatypes.length]. unfold warning_field at 1. cbn [fst].
  f_equal. replace (Z.of_nat k + 1) with (Z.of_nat (S k)) by lia. apply IH.
Qed.

Lemma db_call_ok {A} (env : Env) (op : DbOp) (f : Store -> A * Store) (w : World) :
  db_outcome env op = DbOk ->
  _db_call env op f w
  = (Ret (fst (f (store w))), mkWorld (snd (f (store w))) (calls w) (responded w)).
Proof. intros H. unfold _db_call. rewrite H. now destruct (f (store w)). Qed.

Lemma db_call_slow {A} (env : Env) (op : DbOp) (f : Store -> A * Store) (w : World) :
  db_outcome env op = DbSlow -> _db_call env op f w = (Raise (mkExn TimeoutError ""), w).
Proof. intros H. unfold _db_call. now rewrite H. Qed.

Lemma try_fetch_ret {A B} (m : M A) (f : A -> B) h (w w' : World) (a : A) :
  m w = (Ret a, w') -> try_except (bind m (fun x => ret (f x))) h w = (Ret (f a), w').
Proof. intros H. unfold try_except, bind. now rewrite H. Qed.

Lemma try_fetch_raise {A B} (m : M A) (k : A -> M B) h (w w' : World) (e : Exn) :
  m w = (Raise e, w') ->
  try_except (bind m k) h w = match h e with Some r => r w' | None => (Raise e, w') end.
Proof. intros H. unfold try_except, bind. now rewrite H. Qed.

Lemma bind_unanswered {A B} (p : Payload) (k : A -> M B) (w : World) :
  bind (unanswered p) k w = unanswered p w.
Proof. unfold bind, unanswered. now destruct (responded w). Qed.

Section Listing.

Variables (env : Env) (i : Interaction) (g : Guild) (member : Member) (st : Store).
Hypothesis in_guild : guild i = Some g.

Lemma warnings_fetched :
  db_outcome env OpGetWarnings = DbOk ->
  run env i (Warnings member) st
  = lost_answer
      (match Db.get_warnings (g_id g) (m_id member) st with
       | [] => no_warnings_reply member
       | rows =>
           embed_payload
             (mkEmbed (Some ("Warnings for " ++ m_name member))
                (Some ("Total warnings: " ++ PyStr.of_Z (Z.of_nat (List.length rows))))
                Orange (warning_fields 1 (firstn 10 rows)))
             true
       end)
      (mkWorld st [EDefer true] (acknowledged env)).
Proof.
  intros Hok. unfold run, handler, warnings. rewrite in_guild.
  rewrite invoke_after_defer. unfold lost_answer. apply invoke_eq.
  erewrite bind_ret_eq by (apply (try_fetch_ret _ (@Some _)); now apply db_call_ok).
  tidy. cbn [fst snd].
  destruct (Db.get_warnings (g_id g) (m_id member) st); now apply respond_eq.
Qed.

Lemma warnings_timed_out :
  db_outcome env OpGetWarnings = DbSlow ->
  run env i (Warnings member) st
  = lost_answer (error_reply "DB timed out while fetching warnings. Try again.")
      (mkWorld st [EDefer true] (acknowledged env)).
Proof.
  intros Hslow. unfold run, handler, warnings. rewrite in_guild.
  rewrite invoke_after_defer. unfold lost_answer. apply invoke_eq.
  unfold bind at 1.
  rewrite (try_fetch_raise _ _ _ _ _ _ (db_call_slow env _ _ _ Hslow)).
  change (isinstance (mkExn TimeoutError EmptyString) TimeoutError) with true. cbv iota.
  rewrite respond_then by reflexivity.
  unfold unanswered. now destruct (responded _).
Qed.

Lemma clearwarnings_cleared :
  db_outcome env OpClearWarnings = DbOk ->
  run env i (ClearWarnings member) st
  = lost_answer (cleared_reply member (Db.get_warning_count (g_id g) (m_id member) st))
      (mkWorld (snd (Db.clear_warnings (g_id g) (m_id member) st)) [EDefer true]
         (acknowledged env)).
Proof.
  intros Hok. unfold run, handler, clearwarnings. rewrite in_guild.
  rewrite invoke_after_defer. unfold lost_answer. apply invoke_eq.
  erewrite bind_ret_eq by (apply (try_fetch_ret _ (@Some _)); now apply db_call_ok).
  now apply respond_eq.
Qed.

Lemma clearwarnings_timed_out :
  db_outcome env OpClearWarnings = DbSlow ->
  run env i (ClearWarnings member) st
  = lost_answer (error_reply "DB timed out while clearing warnings. Try again.")
      (mkWorld st [EDefer true] (acknowledged env)).
Proof.
  intros Hslow. unfold run, handler, clearwarnings. rewrite in_guild.
  rewrite invoke_after_defer. unfold lost_answer. apply invoke_eq.
  unfold bind at 1.
  rewrite (try_fetch_raise _ _ _ _ _ _ (db_call_slow env _ _ _ Hslow)).
  change (isinstance (mkExn TimeoutError EmptyString) TimeoutError) with true. cbv iota.
  rewrite respond_then by reflexivity.
  unfold unanswered. now destruct (responded _).
Qed.

End Listing.

(** X3: in a guild, with the store answering in time, the warnings
    command prepares its answer for the invoker alone: a plain notice
    when the member has no warning, and otherwise one embed that gives
    the total number of warnings and lists the first ten at most,
    numbered from 1 in the store's order; when the read takes longer
    than the ten seconds allowed, the time-out error.  The answer goes
    through [_respond], which passes [view=None], so it is lost: the
    store is left as it was and the command ends with an exception;
    after a deferral that went through nothing is sent, and after one
    that failed the answer is handed over as the initial response. *)
Theorem warnings_lists_first_ten (env : Env) (i : Interaction) (g : Guild) (member : Member)
    (st : Store) :
  guild i = Some g ->
  let rows := Db.get_warnings (g_id g) (m_id member) st in
  let outcome := run env i (Warnings member) st in
  (db_outcome env OpGetWarnings = DbOk -> rows = [] ->
     answer_lost env outcome st [] (no_warnings_reply member)) /\
  (db_outcome env OpGetWarnings = DbOk -> rows <> [] ->
     exists e,
       answer_lost env outcome st [] (embed_payload e true) /\
       description e
         = Some ("Total warnings: "
                 ++ PyStr.of_Z (Db.get_warning_count (g_id g) (m_id member) st)) /\
       map fst (fields e) = warning_names (Nat.min 10 (List.length rows)) /\
       map snd (fields e) = map snd (warning_fields 1 (firstn 10 rows))) /\
  (db_outcome env OpGetWarnings = DbSlow ->
     answer_lost env outcome st []
       (error_reply "DB timed out while fetching warnings. Try again.")).
Proof.
  intros Hg rows outcome. subst outcome. split; [|split].
  - intros Hok Hrows. rewrite (warnings_fetched env i g member st Hg Hok).
    fold rows. rewrite Hrows. apply lost_answer_lost.
  - intros Hok Hrows. rewrite (warnings_fetched env i g member st Hg Hok).
    fold rows. destruct rows as [|r rest] eqn:Erows; [now elim Hrows|].
    eexists. split; [apply lost_answer_lost|]. cbn [description fields]. split; [|split].
    + unfold Db.get_warning_count. unfold rows, Db.get_warnings in Erows.
      rewrite <- (length_map Db.row), Erows. reflexivity.
    + change 1 with (Z.of_nat 1).
      rewrite warning_fields_names, length_firstn. reflexivity.
    + reflexivity.
  - intros Hslow. rewrite (warnings_timed_out env i g member st Hg Hslow).
    apply lost_answer_lost.
Qed.

Lemma warnings_lists_first_ten_witness :
  answer_lost Sample.calm
    (run Sample.calm Sample.by_mod (Warnings Sample.user_m) Sample.empty_store)
    Sample.empty_store [] (no_warnings_reply Sample.user_m).
Proof.
  apply (proj1 (warnings_lists_first_ten Sample.calm Sample.by_mod Sample.guild0 Sample.user_m
                  Sample.empty_store eq_refl)); reflexivity.
Defined.

(** Twelve warnings on record and a deferral that failed: the listing
    handed over counts twelve and shows ten.  After a deferral that
    went through, nothing is sent. *)
Example warnings_of_twelve :
  (exists e rest,
     calls (snd (run Sample10.undeferred Sample.by_mod (Warnings Sample.user_m)
                     (Sample10.warned_times 12)))
       = EDefer true :: ESend false (embed_payload e true) :: rest /\
     description e = Some "Total warnings: 12" /\
     map fst (fields e) = warning_names 10 /\
     nth 0 (map snd (fields e)) "" = "**Reason:** spam
**By:** <@200>
**Date:** 12") /\
  run Sample.calm Sample.by_mod (Warnings Sample.user_m) (Sample10.warned_times 12)
  = (Raise no_view_in_followup, mkWorld (Sample10.warned_times 12) [EDefer true] true).
Proof. split; [eexists; eexists; repeat split | reflexivity]. Qed.

Lemma cleared_count (g m : Z) (st : Store) :
  Db.get_warning_count g m (snd (Db.clear_warnings g m st)) = 0.
Proof.
  unfold Db.clear_warnings, Db.get_warning_count, Db.member_warnings, Db.with_warnings.
  cbn [snd warnings_table].
  induction (warnings_table st) as [|w ws IH]; [reflexivity|].
  cbn [filter]. destruct (Db.of_member g m w) eqn:E; cbn [negb]; [exact IH|].
  cbn [filter]. rewrite E. exact IH.
Qed.

Lemma cleared_others (g m g' m' : Z) (st : Store) :
  g' <> g \/ m' <> m ->
  Db.get_warning_count g' m' (snd (Db.clear_warnings g m st)) = Db.get_warning_count g' m' st.
Proof.
  intros Hne.
  unfold Db.clear_warnings, Db.get_warning_count, Db.member_warnings, Db.with_warnings.
  cbn [snd warnings_table]. f_equal. f_equal.
  induction (warnings_table st) as [|w ws IH]; [reflexivity|].
  cbn [filter]. destruct (Db.of_member g m w) eqn:E; cbn [negb].
  - destruct (Db.of_member g' m' w) eqn:E'; [|exact IH].
    unfold Db.of_member in E, E'.
    apply andb_true_iff in E. apply andb_true_iff in E'.
    destruct E as [E1 E2]. destruct E' as [E3 E4].
    apply Z.eqb_eq in E1, E2, E3, E4. lia.
  - cbn [filter]. destruct (Db.of_member g' m' w); [now rewrite IH | exact IH].
Qed.

(** X4: in a guild, with the store answering in time, clearwarnings
    clears before it answers.  On the modelled store the member's count
    is 0 afterwards, the counts of every other member and guild are as
    before, and the action log is untouched: clearing is not logged.
    The answer, which names the number of warnings the member had, goes
    through [_respond] and is lost, so the command ends with an
    exception although the warnings are gone.  When the store takes
    longer than ten seconds nothing is cleared, and the time-out error
    is lost the same way. *)
Theorem clearwarnings_resets_member (env : Env) (i : Interaction) (g : Guild) (member : Member)
    (st : Store) :
  guild i = Some g ->
  let outcome := run env i (ClearWarnings member) st in
  let st' := store (snd outcome) in
  (db_outcome env OpClearWarnings = DbOk ->
     answer_lost env outcome (snd (Db.clear_warnings (g_id g) (m_id member) st)) []
       (cleared_reply member (Db.get_warning_count (g_id g) (m_id member) st)) /\
     Db.get_warning_count (g_id g) (m_id member) st' = 0 /\
     (forall g' m', g' <> g_id g \/ m' <> m_id member ->
        Db.get_warning_count g' m' st' = Db.get_warning_count g' m' st) /\
     action_log st' = action_log st) /\
  (db_outcome env OpClearWarnings = DbSlow ->
     answer_lost env outcome st []
       (error_reply "DB timed out while clearing warnings. Try again.")).
Proof.
  intros Hg outcome st'. subst st' outcome. split.
  - intros Hok. rewrite (clearwarnings_cleared env i g member st Hg Hok).
    split; [apply lost_answer_lost|].
    rewrite lost_keeps_store. cbn [store].
    split; [apply cleared_count|].
    split; [intros g' m' Hne; now apply cleared_others|].
    reflexivity.
  - intros Hslow. rewrite (clearwarnings_timed_out env i g member st Hg Hslow).
    apply lost_answer_lost.
Qed.

Lemma clearwarnings_resets_member_witness :
  Db.get_warning_count 1 300
    (store (snd (run Sample.calm Sample.by_mod (ClearWarnings Sample.user_m)
                     (Sample10.warned_times 3))))
  = 0.
Proof.
  apply (proj1 (clearwarnings_resets_member Sample.calm Sample.by_mod Sample.guild0
                  Sample.user_m (Sample10.warned_times 3) eq_refl) eq_refl).
Defined.

(** ** Actions that are logged: kick, timeout, untimeout *)

Section LoggedOutcomes.

Variables (env : Env) (g : Guild) (ev : Event) (o : option Exn) (entry : Store -> Store)
  (embed : Embed) (handlers : Exn -> option (M unit)) (forbidden http : string)
  (st : Store) (cs : list Event).
Hypothesis handlers_answer :
  forall e,
    handlers e
    = option_map (fun m => _respond (error_reply m)) (forbidden_or_http forbidden http e).

Let outcome :=
  invoke (try_except (logged_action env g ev o entry embed) handlers)
    (mkWorld st (EDefer true :: cs) (acknowledged env)).

(** The three ways a logged action ends, each with its answer lost. *)
Lemma logged_outcomes :
  (o = None -> db_works env OpLogAction ->
     answer_lost env outcome (entry st) (cs ++ [ev]) (embed_payload embed false)) /\
  (forall e, o = None -> db_outcome env OpLogAction = DbRaises e ->
     answer_lost env outcome st (cs ++ [ev])
       (failure_reply (forbidden_or_http forbidden http) e)) /\
  (forall e, o = Some e ->
     answer_lost env outcome st (cs ++ [ev])
       (failure_reply (forbidden_or_http forbidden http) e)).
Proof.
  subst outcome. split; [|split].
  - intros Ho Hdb.
    rewrite (action_accepted env g ev o entry embed handlers _ handlers_answer
               (forbidden_or_http_only forbidden http) _ Ho Hdb).
    cbn [store calls responded]. rewrite <- app_comm_cons. apply lost_answer_lost.
  - intros e Ho Hdb.
    rewrite (action_unlogged env g ev o entry embed handlers _ handlers_answer e _ Ho Hdb).
    cbn [store calls responded]. rewrite <- app_comm_cons. apply failure_lost.
  - intros e Ho.
    rewrite (action_refused env g ev o entry embed handlers _ handlers_answer e _ Ho).
    cbn [store calls responded]. rewrite <- app_comm_cons. apply failure_lost.
Qed.

End LoggedOutcomes.

(** X7: a kick that gets past its guards issues exactly one moderation
    call, the kick with the reason followed by the moderator's name and
    id, whatever the platform and the store answer.  The action-log
    entry is written only after the platform accepted the kick, and the
    public "Member Kicked" answer is given only after the entry was
    written: when the store refuses the write or the platform refuses
    the kick, the store is left as it was and the answer prepared is
    the error.  Every one of these answers goes through [_respond] and
    is lost, so the command ends with an exception even when the member
    was kicked and the entry written. *)
Theorem kick_is_logged_after_success (env : Env) (i : Interaction) (g : Guild)
    (author member : Member) (reason : string) (st : Store) :
  guild i = Some g -> user i = AsMember author ->
  member_is member (owner g) = false -> outranked g author member = false ->
  let outcome := run env i (Kick member reason) st in
  let call := EKick (m_id member) (reason ++ by_line "Kicked" author) in
  let failures := forbidden_or_http "I don't have permission to kick this member."
                                    "Kick failed due to a Discord API error." in
  moderation_calls (snd outcome) = [call] /\
  (kick_outcome env = None -> db_works env OpLogAction ->
     answer_lost env outcome
       (Db.log_action (g_id g) "kick" (m_id member) (m_id author) (Some reason) st)
       [call] (embed_payload (kicked_embed author member reason) false)) /\
  (forall e, kick_outcome env = None -> db_outcome env OpLogAction = DbRaises e ->
     answer_lost env outcome st [call] (failure_reply failures e)) /\
  (forall e, kick_outcome env = Some e ->
     answer_lost env outcome st [call] (failure_reply failures e)).
Proof.
  intros Hg Hu Hown Hout outcome call failures. subst outcome failures.
  split; [now apply (kick_issued_once env i g author member reason st)|].
  rewrite (kick_past_guards env i g author member reason st Hg Hu Hown Hout).
  fold call.
  apply (logged_outcomes env g call (kick_outcome env) _ _ _
           "I don't have permission to kick this member."
           "Kick failed due to a Discord API error." st []).
  intros e. apply forbidden_or_http_handlers.
Qed.

Lemma kick_is_logged_after_success_witness :
  moderation_calls (snd (run Sample.calm Sample.by_mod (Kick Sample.user_m "spam")
                             Sample.empty_store))
  = [EKick 300 "spam | Kicked by max (200)"].
Proof.
  apply (proj1 (kick_is_logged_after_success Sample.calm Sample.by_mod Sample.guild0
                  Sample.mod_m Sample.user_m "spam" Sample.empty_store
                  eq_refl eq_refl eq_refl eq_refl)).
Defined.

(** The kick goes through and the deferral was acknowledged: the member
    is kicked, the entry is written, nothing is sent. *)
Example kick_scenario :
  run Sample.calm Sample.by_mod (Kick Sample.user_m "spam") Sample.empty_store
  = (Raise no_view_in_followup,
     mkWorld (Db.log_action 1 "kick" 300 200 (Some "spam") Sample.empty_store)
       [EDefer true; EKick 300 "spam | Kicked by max (200)"] true).
Proof. reflexivity. Qed.

Lemma timedelta_eq (d : Z) (w : World) :
  - 999999999 <= d / 1440 <= 999999999 -> timedelta_minutes (PyInt d) w = (Ret d, w).
Proof.
  intros H. unfold timedelta_minutes.
  replace ((d / 1440 <? - 2 ^ 31) || (2 ^ 31 - 1 <? d / 1440)) with false
    by (symmetry; apply orb_false_iff; split; apply Z.ltb_ge; lia).
  replace (Z.abs (d / 1440) <=? 999999999) with true by (symmetry; apply Z.leb_le; lia).
  reflexivity.
Qed.

Section Timeout.

Variables (env : Env) (i : Interaction) (g : Guild) (author member : Member)
  (duration : Z) (reason : string) (st : Store).
Hypothesis in_guild : guild i = Some g.
Hypothesis by_member : user i = AsMember author.
Hypothesis not_outranked : outranked g author member = false.

Lemma timeout_in_range :
  - 999999999 <= duration / 1440 <= 999999999 ->
  run env i (Timeout member duration reason) st
  = invoke
      (try_except
         (logged_action env g
            (ETimeout (m_id member) (Some duration) (reason ++ by_line "Timed out" author))
            (timeout_outcome env)
            (Db.log_action (g_id g) "timeout" (m_id member) (m_id author) (Some reason))
            (timed_out_embed author member duration reason))
         (fun e =>
            if isinstance e Forbidden then
              Some (_respond (error_reply "I don't have permission to timeout this member."))
            else if isinstance e HTTPException then
              Some (_respond (error_reply "Timeout failed due to a Discord API error."))
            else None))
      (mkWorld st [EDefer true] (acknowledged env)).
Proof.
  intros Hr. unfold run, handler, timeout. rewrite in_guild, by_member, not_outranked.
  rewrite invoke_after_defer. apply invoke_eq.
  erewrite try_bind_ret_eq by (now apply timedelta_eq). reflexivity.
Qed.

Lemma timeout_raises (e : Exn) :
  (forall w, timedelta_minutes (PyInt duration) w = (Raise e, w)) ->
  isinstance e HTTPException = false ->
  run env i (Timeout member duration reason) st
  = unanswered (reported e) (mkWorld st [EDefer true] (acknowledged env)).
Proof.
  intros Htd He. unfold run, handler, timeout. rewrite in_guild, by_member, not_outranked.
  rewrite invoke_after_defer. apply invoke_raise.
  unfold try_except. erewrite bind_raise_eq by apply Htd.
  now rewrite (forbidden_is_http e He), He.
Qed.

Lemma timeout_beyond_c_int :
  duration / 1440 < - 2 ^ 31 \/ 2 ^ 31 - 1 < duration / 1440 ->
  run env i (Timeout member duration reason) st
  = unanswered (reported (mkExn OverflowError "Python int too large to convert to C int"))
      (mkWorld st [EDefer true] (acknowledged env)).
Proof.
  intros Hr. apply timeout_raises; [|reflexivity].
  intros w. unfold timedelta_minutes.
  replace ((duration / 1440 <? - 2 ^ 31) || (2 ^ 31 - 1 <? duration / 1440)) with true;
    [reflexivity|].
  symmetry. apply orb_true_iff. destruct Hr; [left | right]; apply Z.ltb_lt; lia.
Qed.

Lemma timeout_beyond_days :
  - 2 ^ 31 <= duration / 1440 <= 2 ^ 31 - 1 -> 999999999 < Z.abs (duration / 1440) ->
  run env i (Timeout member duration reason) st
  = unanswered
      (reported (mkExn OverflowError
                   ("days=" ++ PyStr.of_Z (duration / 1440)
                    ++ "; must have magnitude <= 999999999")))
      (mkWorld st [EDefer true] (acknowledged env)).
Proof.
  intros Hc Hr. apply timeout_raises; [|reflexivity].
  intros w. unfold timedelta_minutes.
  replace ((duration / 1440 <? - 2 ^ 31) || (2 ^ 31 - 1 <? duration / 1440)) with false
    by (symmetry; apply orb_false_iff; split; apply Z.ltb_ge; lia).
  replace (Z.abs (duration / 1440) <=? 999999999) with false
    by (symmetry; apply Z.leb_gt; lia).
  reflexivity.
Qed.

End Timeout.

(** X8: a timeout that gets past its guards builds the duration with
    [timedelta(minutes=duration)] before it calls the platform.  With
    at most 999999999 days either way it calls the timeout of that many
    minutes once and nothing else, writes the action-log entry only
    after the platform accepted it, and writes nothing when the
    platform refuses; its answer is lost like every answer given
    through [_respond].  Outside that range [timedelta] raises
    [OverflowError]: no call is made and nothing is written.  The
    message is the range of the days when they fit a C [int], and
    "Python int too large to convert to C int" when they do not. *)
Theorem timeout_respects_duration_range (env : Env) (i : Interaction) (g : Guild)
    (author member : Member) (duration : Z) (reason : string) (st : Store) :
  guild i = Some g -> user i = AsMember author -> outranked g author member = false ->
  let outcome := run env i (Timeout member duration reason) st in
  let call := ETimeout (m_id member) (Some duration) (reason ++ by_line "Timed out" author) in
  let days := duration / 1440 in
  (- 999999999 <= days <= 999999999 ->
     moderation_calls (snd outcome) = [call] /\
     (timeout_outcome env = None -> db_works env OpLogAction ->
        answer_lost env outcome
          (Db.log_action (g_id g) "timeout" (m_id member) (m_id author) (Some reason) st)
          [call] (embed_payload (timed_out_embed author member duration reason) false)) /\
     (forall e, timeout_outcome env = Some e -> store (snd outcome) = st)) /\
  (999999999 < Z.abs days -> - 2 ^ 31 <= days <= 2 ^ 31 - 1 ->
     answer_lost env outcome st []
       (text_payload ("❌ Error: days=" ++ PyStr.of_Z days
                      ++ "; must have magnitude <= 999999999") true)) /\
  (days < - 2 ^ 31 \/ 2 ^ 31 - 1 < days ->
     answer_lost env outcome st []
       (text_payload "❌ Error: Python int too large to convert to C int" true)).
Proof.
  intros Hg Hu Hout outcome call days. subst outcome days. split; [|split].
  - intros Hr.
    rewrite (timeout_in_range env i g author member duration reason st Hg Hu Hout Hr).
    fold call. split.
    + erewrite action_issued_once by (intros e; apply forbidden_or_http_handlers).
      reflexivity.
    + destruct (logged_outcomes env g call (timeout_outcome env)
                  (Db.log_action (g_id g) "timeout" (m_id member) (m_id author) (Some reason))
                  (timed_out_embed author member duration reason) _
                  "I don't have permission to timeout this member."
                  "Timeout failed due to a Discord API error." st []
                  (fun e => forbidden_or_http_handlers _ _ e))
        as [Hok [_ Hrefused]].
      split; [exact Hok|].
      intros e Ho. destruct (Hrefused e Ho) as [Hst _]. exact Hst.
  - intros Hr Hc.
    rewrite (timeout_beyond_days env i g author member duration reason st Hg Hu Hout Hc Hr).
    apply (unanswered_lost env
             (mkExn OverflowError
                ("days=" ++ PyStr.of_Z (duration / 1440)
                 ++ "; must have magnitude <= 999999999")) st []).
  - intros Hr.
    rewrite (timeout_beyond_c_int env i g author member duration reason st Hg Hu Hout Hr).
    apply (unanswered_lost env
             (mkExn OverflowError "Python int too large to convert to C int") st []).
Qed.

Lemma timeout_respects_duration_range_witness :
  moderation_calls (snd (run Sample.calm Sample.by_mod (Timeout Sample.user_m 40320 "spam")
                             Sample.empty_store))
  = [ETimeout 300 (Some 40320) "spam | Timed out by max (200)"].
Proof.
  apply (proj1 (timeout_respects_duration_range Sample.calm Sample.by_mod Sample.guild0
                  Sample.mod_m Sample.user_m 40320 "spam" Sample.empty_store
                  eq_refl eq_refl eq_refl)).
  vm_compute. split; discriminate.
Defined.

(** Durations the slash command accepts and [timedelta] does not: the
    largest integer of the platform, and two million years.  With the
    deferral failed, the error is what is handed over. *)
Example timeout_overflow_scenario :
  run Sample.calm Sample.by_mod (Timeout Sample.user_m (2 ^ 53) "spam") Sample.empty_store
  = (Raise no_view_in_followup, mkWorld Sample.empty_store [EDefer true] true) /\
  hd_error
    (tl (calls (snd (run Sample10.undeferred Sample.by_mod (Timeout Sample.user_m (2 ^ 53) "spam")
                         Sample.empty_store))))
  = Some (ESend false
            (text_payload "❌ Error: Python int too large to convert to C int" true)) /\
  hd_error
    (tl (calls (snd (run Sample10.undeferred Sample.by_mod
                         (Timeout Sample.user_m (1440 * 1000000000) "spam")
                         Sample.empty_store))))
  = Some (ESend false
            (text_payload "❌ Error: days=1000000000; must have magnitude <= 999999999" true)).
Proof. repeat split. Qed.

(** X9: untimeout has no hierarchy guard: in a guild, invoked by a
    member, it issues exactly one moderation call whatever the ranks of
    moderator and target, the removal of the timeout, with the
    moderator's name and id as reason.  The action-log entry, which
    carries no reason, is written only after the platform accepted the
    call; when the platform refuses, nothing is written.  The answer
    prepared, the "Timeout Removed" embed or the error, is lost. *)
Theorem untimeout_has_no_hierarchy_guard (env : Env) (i : Interaction) (g : Guild)
    (author member : Member) (st : Store) :
  guild i = Some g -> user i = AsMember author ->
  let outcome := run env i (Untimeout member) st in
  let call := ETimeout (m_id member) None
                ("Timeout removed by " ++ m_name author ++ " ("
                 ++ PyStr.of_Z (m_id author) ++ ")") in
  let failures := forbidden_or_http "I don't have permission to remove timeout."
                                    "Untimeout failed due to a Discord API error." in
  moderation_calls (snd outcome) = [call] /\
  (timeout_outcome env = None -> db_works env OpLogAction ->
     answer_lost env outcome
       (Db.log_action (g_id g) "untimeout" (m_id member) (m_id author) None st)
       [call] (embed_payload (timeout_removed_embed author member) false)) /\
  (forall e, timeout_outcome env = None -> db_outcome env OpLogAction = DbRaises e ->
     answer_lost env outcome st [call] (failure_reply failures e)) /\
  (forall e, timeout_outcome env = Some e ->
     answer_lost env outcome st [call] (failure_reply failures e)).
Proof.
  intros Hg Hu outcome call failures. subst outcome failures.
  assert (Hrun : run env i (Untimeout member) st
                 = invoke
                     (try_except
                        (logged_action env g call (timeout_outcome env)
                           (Db.log_action (g_id g) "untimeout" (m_id member) (m_id author) None)
                           (timeout_removed_embed author member))
                        (fun e =>
                           if isinstance e Forbidden then
                             Some (_respond (error_reply
                                               "I don't have permission to remove timeout."))
                           else if isinstance e HTTPException then
                             Some (_respond (error_reply
                                               "Untimeout failed due to a Discord API error."))
                           else None))
                     (mkWorld st [EDefer true] (acknowledged env))).
  { unfold run, handler, untimeout. rewrite Hg, Hu. apply invoke_after_defer. }
  rewrite Hrun. split.
  - erewrite action_issued_once by (intros e; apply forbidden_or_http_handlers). reflexivity.
  - apply (logged_outcomes env g call (timeout_outcome env) _ _ _
             "I don't have permission to remove timeout."
             "Untimeout failed due to a Discord API error." st []).
    intros e. apply forbidden_or_http_handlers.
Qed.

Lemma untimeout_has_no_hierarchy_guard_witness :
  moderation_calls (snd (run Sample.calm Sample.by_mod (Untimeout Sample.owner_m)
                             Sample.empty_store))
  = [ETimeout 100 None "Timeout removed by max (200)"].
Proof.
  apply (proj1 (untimeout_has_no_hierarchy_guard Sample.calm Sample.by_mod Sample.guild0
                  Sample.mod_m Sample.owner_m Sample.empty_store eq_refl eq_refl)).
Defined.

(** ** Failures of unban *)

Lemma unban_handlers (e : Exn) :
  (if isinstance e NotFound then Some (_respond (error_reply "User not found or not banned."))
   else if isinstance e Forbidden then
     Some (_respond (error_reply "I don't have permission to unban users."))
   else if isinstance e HTTPException then
     Some (_respond (error_reply "Unban failed due to a Discord API error."))
   else None)
  = option_map (fun m => _respond (error_reply m)) (unban_failures e).
Proof.
  unfold unban_failures.
  destruct (isinstance e NotFound); [reflexivity|].
  destruct (isinstance e Forbidden); [reflexivity|].
  destruct (isinstance e HTTPException); reflexivity.
Qed.

Lemma unban_failures_only (e : Exn) :
  isinstance e HTTPException = false -> unban_failures e = None.
Proof.
  intros H. unfold unban_failures. rewrite (forbidden_is_http e H), H.
  destruct e as [[] t]; cbn in *; try reflexivity; discriminate H.
Qed.

Lemma platform_ok (ev : Event) (w : World) :
  platform ev None w = (Ret tt, mkWorld (store w) (calls w ++ [ev]) (responded w)).
Proof. reflexivity. Qed.

Section UnbanFailures.

Variables (env : Env) (i : Interaction) (g : Guild) (author : Member) (st : Store)
  (user_id : string).
Hypothesis in_guild : guild i = Some g.
Hypothesis by_member : user i = AsMember author.
Hypothesis accepted : PyStr.isdigit (clean_user_id user_id) = true.
Hypothesis short : (String.length (clean_user_id user_id) <= PyStr.int_max_str_digits)%nat.

Let uid := PyStr.digits_value 0 (clean_user_id user_id).

Let handlers (e : Exn) : option (M unit) :=
  if isinstance e NotFound then
    Some (_respond (error_reply "User not found or not banned."))
  else if isinstance e Forbidden then
    Some (_respond (error_reply "I don't have permission to unban users."))
  else if isinstance e HTTPException then
    Some (_respond (error_reply "Unban failed due to a Discord API error."))
  else None.

Lemma unban_past_guards :
  run env i (Unban user_id) st
  = invoke
      (try_except
         (bind (platform (EFetchUser uid) (fetch_user_outcome env))
            (fun _ =>
               logged_action env g (EUnban uid) (unban_outcome env)
                 (Db.log_action (g_id g) "unban" uid (m_id author) None)
                 (unbanned_embed author uid)))
         handlers)
      (mkWorld st [EDefer true] (acknowledged env)).
Proof.
  unfold run, handler, unban. rewrite in_guild, by_member.
  cbv zeta. rewrite accepted, (int_parse_digits _ accepted). cbn [negb].
  replace (PyStr.int_max_str_digits <? String.length (clean_user_id user_id))%nat with false
    by (symmetry; apply Nat.ltb_ge; exact short).
  apply invoke_after_defer.
Qed.

Lemma unban_not_fetched (e : Exn) :
  fetch_user_outcome env = Some e ->
  run env i (Unban user_id) st
  = match unban_failures e with
    | Some m => lost_answer (error_reply m)
                  (mkWorld st [EDefer true; EFetchUser uid] (acknowledged env))
    | None => unanswered (reported e)
                (mkWorld st [EDefer true; EFetchUser uid] (acknowledged env))
    end.
Proof.
  intros Hf. rewrite unban_past_guards, Hf.
  set (w1 := mkWorld st [EDefer true; EFetchUser uid] (acknowledged env)).
  assert (Hrun : forall k : unit -> M unit,
             try_except (bind (platform (EFetchUser uid) (Some e)) k) handlers
               (mkWorld st [EDefer true] (acknowledged env))
             = match handlers e with
               | Some r => r w1
               | None => (Raise e, w1)
               end).
  { intros k. rewrite platform_first. reflexivity. }
  unfold handlers in Hrun at 2. rewrite unban_handlers in Hrun.
  destruct (unban_failures e) as [m|]; cbn [option_map] in Hrun.
  - rewrite <- (invoke_respond (error_reply m) w1 eq_refl).
    apply invoke_eq. apply Hrun.
  - apply invoke_raise. apply Hrun.
Qed.

Lemma unban_fetched :
  fetch_user_outcome env = None ->
  run env i (Unban user_id) st
  = invoke
      (try_except
         (logged_action env g (EUnban uid) (unban_outcome env)
            (Db.log_action (g_id g) "unban" uid (m_id author) None)
            (unbanned_embed author uid))
         handlers)
      (mkWorld st [EDefer true; EFetchUser uid] (acknowledged env)).
Proof.
  intros Hf. rewrite unban_past_guards, Hf. apply invoke_eq.
  erewrite try_bind_ret_eq by apply platform_ok. reflexivity.
Qed.

Lemma unban_refused (e : Exn) :
  fetch_user_outcome env = None -> unban_outcome env = Some e ->
  run env i (Unban user_id) st
  = match unban_failures e with
    | Some m => lost_answer (error_reply m)
                  (mkWorld st [EDefer true; EFetchUser uid; EUnban uid] (acknowledged env))
    | None => unanswered (reported e)
                (mkWorld st [EDefer true; EFetchUser uid; EUnban uid] (acknowledged env))
    end.
Proof.
  intros Hf Ho. rewrite (unban_fetched Hf).
  now rewrite (action_refused env g (EUnban uid) (unban_outcome env) _ _ handlers
                 unban_failures unban_handlers e _ Ho).
Qed.

Lemma unban_lifted :
  fetch_user_outcome env = None -> unban_outcome env = None -> db_works env OpLogAction ->
  run env i (Unban user_id) st
  = lost_answer (embed_payload (unbanned_embed author uid) false)
      (mkWorld (Db.log_action (g_id g) "unban" uid (m_id author) None st)
         [EDefer true; EFetchUser uid; EUnban uid] (acknowledged env)).
Proof.
  intros Hf Ho Hdb. rewrite (unban_fetched Hf).
  now rewrite (action_accepted env g (EUnban uid) (unban_outcome env) _ _ handlers
                 unban_failures unban_handlers unban_failures_only _ Ho Hdb).
Qed.

End UnbanFailures.

(** X10: unban with an accepted identifier of ASCII characters and at
    most 4300 digits first resolves the user and only then lifts the
    ban.  When the user cannot be resolved no unban call is made; when
    either call fails nothing is written, and the answer prepared is
    the error chosen by the first handler that matches: not-found
    before missing permission before any other platform error.  When
    both calls go through, the action-log entry, which carries no
    reason, is written.  In every case the answer goes through
    [_respond] and is lost. *)
Theorem unban_failure_kinds (env : Env) (i : Interaction) (g : Guild) (author : Member)
    (st : Store) (user_id : string) :
  guild i = Some g -> user i = AsMember author ->
  PyStr.is_ascii user_id = true ->
  PyStr.isdigit (clean_user_id user_id) = true ->
  (String.length (clean_user_id user_id) <= 4300)%nat ->
  let uid := PyStr.digits_value 0 (clean_user_id user_id) in
  let outcome := run env i (Unban user_id) st in
  (forall e, fetch_user_outcome env = Some e ->
     answer_lost env outcome st [EFetchUser uid] (failure_reply unban_failures e)) /\
  (forall e, fetch_user_outcome env = None -> unban_outcome env = Some e ->
     answer_lost env outcome st [EFetchUser uid; EUnban uid]
       (failure_reply unban_failures e)) /\
  (fetch_user_outcome env = None -> unban_outcome env = None -> db_works env OpLogAction ->
     answer_lost env outcome (Db.log_action (g_id g) "unban" uid (m_id author) None st)
       [EFetchUser uid; EUnban uid] (embed_payload (unbanned_embed author uid) false)) /\
  (forall e, isinstance e NotFound = true ->
     failure_reply unban_failures e = error_reply "User not found or not banned.").
Proof.
  intros Hg Hu _ Hacc Hshort uid outcome. subst outcome. split; [|split; [|split]].
  - intros e Hf. rewrite (unban_not_fetched env i g author st user_id Hg Hu Hacc Hshort e Hf).
    apply failure_lost.
  - intros e Hf Ho.
    rewrite (unban_refused env i g author st user_id Hg Hu Hacc Hshort e Hf Ho).
    apply failure_lost.
  - intros Hf Ho Hdb.
    rewrite (unban_lifted env i g author st user_id Hg Hu Hacc Hshort Hf Ho Hdb).
    apply lost_answer_lost.
  - intros e He. unfold failure_reply, unban_failures. now rewrite He.
Qed.

Lemma unban_failure_kinds_witness :
  answer_lost Sample11.env
    (run Sample11.env Sample.by_mod (Unban "<@123456789>") Sample.empty_store)
    Sample.empty_store [EFetchUser 123456789]
    (error_reply "User not found or not banned.").
Proof.
  apply (proj1 (unban_failure_kinds Sample11.env Sample.by_mod Sample.guild0 Sample.mod_m
                  Sample.empty_store "<@123456789>" eq_refl eq_refl eq_refl eq_refl
                  ltac:(vm_compute; lia))
           Sample11.unknown_user eq_refl).
Defined.

(** ** Identifiers as they are written *)

Lemma numeral_digits (d : Decimal.uint) :
  PyStr.all_digits (NilEmpty.string_of_uint d) = true.
Proof. induction d; simpl; auto. Qed.

Lemma numeral_value (d : Decimal.uint) (acc : Z) :
  PyStr.digits_value acc (NilEmpty.string_of_uint d) = uint_value acc d.
Proof.
  revert acc. induction d; intros acc; cbn [NilEmpty.string_of_uint PyStr.digits_value uint_value];
    try reflexivity; rewrite IHd; f_equal; unfold PyStr.digit_value; simpl; lia.
Qed.

Lemma uint_value_acc (d : Decimal.uint) (acc : positive) :
  uint_value (Z.pos acc) d = Z.pos (Pos.of_uint_acc d acc).
Proof.
  revert acc. induction d; intros acc; cbn [uint_value Pos.of_uint_acc]; try reflexivity;
    rewrite <- IHd; f_equal; lia.
Qed.

Lemma uint_value_of_uint (d : Decimal.uint) :
  uint_value 0 d = Z.of_N (Pos.of_uint d).
Proof.
  induction d; cbn [uint_value Pos.of_uint]; try reflexivity; try exact IHd;
    cbn [Z.mul Z.add Z.of_N]; apply uint_value_acc.
Qed.

(** [str] of a number that is not negative is a non-empty string of
    digits, and it denotes the number. *)
Lemma of_Z_digits (z : Z) :
  0 <= z ->
  PyStr.isdigit (PyStr.of_Z z) = true /\ PyStr.digits_value 0 (PyStr.of_Z z) = z.
Proof.
  intros Hz. unfold PyStr.of_Z. destruct z as [|p|p]; [split; reflexivity| |lia].
  cbn [Z.to_int NilZero.string_of_int Pos.to_int].
  pose proof (DecimalPos.Unsigned.to_uint_nonnil p) as Hnil.
  pose proof (DecimalPos.Unsigned.of_to p) as Hof.
  unfold NilZero.string_of_uint.
  destruct (Pos.to_uint p) as [|d|d|d|d|d|d|d|d|d|d] eqn:E; [now elim Hnil| | | | | | | | | |];
    (split; [apply (numeral_digits (_ d)) | rewrite numeral_value, uint_value_of_uint, Hof;
                                            reflexivity]).
Qed.

Lemma delete_char_digits (c : ascii) (s : string) :
  PyStr.is_digit c = false -> PyStr.all_digits s = true -> Cleaning.delete_char c s = s.
Proof.
  intros Hc. induction s as [|x s IH]; [reflexivity|].
  cbn [PyStr.all_digits Cleaning.delete_char]. intros H.
  apply andb_true_iff in H. destruct H as [Hx Hs].
  destruct (Ascii.eqb x c) eqn:E.
  - apply Ascii.eqb_eq in E. subst x. congruence.
  - now rewrite IH.
Qed.

Lemma delete_char_last (c : ascii) (s : string) :
  PyStr.is_digit c = false -> PyStr.all_digits s = true ->
  Cleaning.delete_char c (s ++ String c "") = s.
Proof.
  intros Hc. induction s as [|x s IH].
  - intros _. cbn. now rewrite Ascii.eqb_refl.
  - cbn [PyStr.all_digits Cleaning.delete_char append]. intros H.
    apply andb_true_iff in H. destruct H as [Hx Hs].
    destruct (Ascii.eqb x c) eqn:E.
    + apply Ascii.eqb_eq in E. subst x. congruence.
    + now rewrite IH.
Qed.

Lemma digit_not_lt (x : ascii) : PyStr.is_digit x = true -> Ascii.eqb x "<" = false.
Proof.
  destruct x as [[] [] [] [] [] [] [] []]; intros H; try reflexivity; discriminate H.
Qed.

Lemma delete_mention_digits (s tail : string) :
  PyStr.all_digits s = true ->
  Cleaning.delete_mention (s ++ String ">" tail) = s ++ Cleaning.delete_mention (String ">" tail) /\
  Cleaning.delete_mention s = s.
Proof.
  induction s as [|x s IH]; [intros _; split; reflexivity|].
  cbn [PyStr.all_digits]. intros H. apply andb_true_iff in H. destruct H as [Hx Hs].
  destruct (IH Hs) as [IH1 IH2]. split.
  - cbn [append]. change (Cleaning.delete_mention (String x (s ++ String ">" tail)))
      with (match s ++ String ">" tail with
            | String y s'' =>
                if Ascii.eqb x "<" && Ascii.eqb y "@" then Cleaning.delete_mention s''
                else String x (Cleaning.delete_mention (s ++ String ">" tail))
            | EmptyString => String x EmptyString
            end).
    rewrite (digit_not_lt x Hx). cbn [andb]. rewrite IH1.
    destruct s; reflexivity.
  - change (Cleaning.delete_mention (String x s))
      with (match s with
            | String y s'' =>
                if Ascii.eqb x "<" && Ascii.eqb y "@" then Cleaning.delete_mention s''
                else String x (Cleaning.delete_mention s)
            | EmptyString => String x EmptyString
            end).
    rewrite (digit_not_lt x Hx). cbn [andb]. rewrite IH2. now destruct s.
Qed.

Lemma rstrip_closed (s : string) : PyStr.rstrip (s ++ ">") = s ++ ">".
Proof.
  induction s as [|x s IH]; [reflexivity|].
  cbn [append PyStr.rstrip]. rewrite IH. now destruct s.
Qed.

(** The three ways of writing an identifier clean to its digits. *)
(** The three ways of writing an identifier clean to its digits. *)
Lemma written_ids_clean (uid : Z) (s : string) :
  0 <= uid -> In s (written_ids uid) -> clean_user_id s = PyStr.of_Z uid.
Proof.
  intros Hz Hin. rewrite clean_user_id_spec. unfold Cleaning.decorations_deleted.
  rewrite <- strip_spec.
  destruct (of_Z_digits uid Hz) as [Hd _].
  assert (Hall : PyStr.all_digits (PyStr.of_Z uid) = true).
  { unfold PyStr.isdigit in Hd. now destruct (PyStr.of_Z uid). }
  destruct (delete_mention_digits (PyStr.of_Z uid) "" Hall) as [Hm1 Hm2].
  change (Cleaning.delete_mention ">") with ">" in Hm1.
  unfold written_ids in Hin. cbn [In] in Hin.
  destruct Hin as [E|[E|[E|[]]]]; subst s.
  - rewrite (strip_digits _ Hall), Hm2.
    rewrite (delete_char_digits ">" _ eq_refl Hall).
    now apply delete_char_digits.
  - assert (Hs : PyStr.strip ("<@" ++ PyStr.of_Z uid ++ ">") = "<@" ++ PyStr.of_Z uid ++ ">").
    { unfold PyStr.strip. cbn [append PyStr.lstrip]. change (PyStr.is_space "<") with false.
      cbv iota. apply (rstrip_closed (String "<" (String "@" (PyStr.of_Z uid)))). }
    rewrite Hs. cbn [append].
    change (Cleaning.delete_mention (String "<" (String "@" (PyStr.of_Z uid ++ ">"))))
      with (Cleaning.delete_mention (PyStr.of_Z uid ++ ">")).
    rewrite Hm1, (delete_char_last ">") by (assumption || reflexivity).
    now apply delete_char_digits.
  - assert (Hs : PyStr.strip ("<@!" ++ PyStr.of_Z uid ++ ">") = "<@!" ++ PyStr.of_Z uid ++ ">").
    { unfold PyStr.strip. cbn [append PyStr.lstrip]. change (PyStr.is_space "<") with false.
      cbv iota. apply (rstrip_closed (String "<" (String "@" (String "!" (PyStr.of_Z uid))))). }
    rewrite Hs. cbn [append].
    change (Cleaning.delete_mention
              (String "<" (String "@" (String "!" (PyStr.of_Z uid ++ ">")))))
      with (Cleaning.delete_mention (String "!" (PyStr.of_Z uid ++ ">"))).
    assert (Hbang : Cleaning.delete_mention (String "!" (PyStr.of_Z uid ++ ">"))
                    = String "!" (PyStr.of_Z uid ++ ">")).
    { change (Cleaning.delete_mention (String "!" (PyStr.of_Z uid ++ ">")))
        with (match PyStr.of_Z uid ++ ">" with
              | String y s'' =>
                  if Ascii.eqb "!" "<" && Ascii.eqb y "@" then Cleaning.delete_mention s''
                  else String "!" (Cleaning.delete_mention (PyStr.of_Z uid ++ ">"))
              | EmptyString => String "!" EmptyString
              end).
      rewrite Hm1. destruct (PyStr.of_Z uid); reflexivity. }
    rewrite Hbang. cbn [Cleaning.delete_char]. change (Ascii.eqb "!" ">") with false. cbv iota.
    rewrite (delete_char_last ">") by (assumption || reflexivity).
    cbn [Cleaning.delete_char]. rewrite Ascii.eqb_refl.
    now apply delete_char_digits.
Qed.

(** X14: unban resolves every identifier the way it is written: for
    every user id that is not negative and has at most 4300 digits, the
    bare number, the mention "<@id>" and the nickname mention "<@!id>"
    all clean to the digits of the id, and the first call after the
    deferral fetches exactly that user. *)
Theorem unban_resolves_written_ids (env : Env) (i : Interaction) (g : Guild) (author : Member)
    (st : Store) (uid : Z) (s : string) :
  guild i = Some g -> user i = AsMember author ->
  0 <= uid -> (String.length (PyStr.of_Z uid) <= 4300)%nat -> In s (written_ids uid) ->
  clean_user_id s = PyStr.of_Z uid /\
  exists rest,
    calls (snd (run env i (Unban s) st)) = EDefer true :: EFetchUser uid :: rest.
Proof.
  intros Hg Hu Hz Hshort Hin.
  pose proof (written_ids_clean uid s Hz Hin) as Hclean.
  destruct (of_Z_digits uid Hz) as [Hd Hv].
  split; [exact Hclean|].
  destruct (unban_proceeds env i g author st Hg Hu s) as [rest Hrest].
  - now rewrite Hclean.
  - now rewrite Hclean.
  - exists rest. now rewrite Hrest, Hclean, Hv.
Qed.

Lemma unban_resolves_written_ids_witness :
  clean_user_id "<@!987654321>" = "987654321".
Proof.
  apply (unban_resolves_written_ids Sample.calm Sample.by_mod Sample.guild0 Sample.mod_m
           Sample.empty_store 987654321 "<@!987654321>" eq_refl eq_refl).
  - lia.
  - vm_compute. lia.
  - right. right. left. reflexivity.
Defined.

(** ** Commands that never return *)

Lemma never_try {A} (m : M A) (h : Exn -> option (M A)) :
  never_returns m ->
  (forall e, match h e with Some k => never_returns k | None => True end) ->
  never_returns (try_except m h).
Proof.
  intros Hm Hh w. unfold try_except. destruct (Hm w) as [e He].
  destruct (m w) as [[a|e'] w']; [discriminate He|].
  specialize (Hh e'). destruct (h e') as [k|]; [apply Hh | now exists e'].
Qed.

(** A guarded read, [try: rows = ... except TimeoutError: return
    _respond(...)], gives its rows or does not return. *)
Lemma fetched_or_raised {A} (m : M A) (h : Exn -> option (M (option A))) (w : World) :
  (forall e, match h e with Some k => never_returns k | None => True end) ->
  match fst (try_except (bind m (fun x => ret (Some x))) h w) with
  | Ret None => False
  | _ => True
  end.
Proof.
  intros Hh. unfold try_except, bind.
  destruct (m w) as [[a|e] w']; [exact I|].
  specialize (Hh e). destruct (h e) as [k|]; [|exact I].
  destruct (Hh w') as [e' He']. now rewrite He'.
Qed.

Lemma never_after_fetch {A} (m : M A) (h : Exn -> option (M (option A)))
    (k : option A -> M unit) :
  (forall e, match h e with Some r => never_returns r | None => True end) ->
  (forall a, never_returns (k (Some a))) ->
  never_returns (bind (try_except (bind m (fun x => ret (Some x))) h) k).
Proof.
  intros Hh Hk w. pose proof (fetched_or_raised m h w Hh) as Hf. unfold bind at 1.
  destruct (try_except _ h w) as [[[a|]|e] w']; cbn [fst] in Hf.
  - apply Hk.
  - contradiction.
  - now exists e.
Qed.

Ltac never_step :=
  match goal with
  | |- never_returns (_respond _) => apply never_respond; reflexivity
  | |- never_returns (raise _) => apply never_raise
  | |- never_returns (bind (_respond _) _) => apply never_bind
  | |- never_returns (bind (try_except (bind _ (fun x => ret (Some x))) _) _) =>
      apply never_after_fetch; [intros|intros]
  | |- never_returns (bind _ _) => apply never_then; intros
  | |- never_returns (try_except _ _) => apply never_try; [|intros]
  | |- never_returns (match ?x with _ => _ end) => destruct x
  | |- match (if ?b then _ else _) with _ => _ end => destruct b
  | |- match Some _ with _ => _ end => cbv beta iota
  | |- match None with _ => _ end => exact I
  | |- True => exact I
  end.

Ltac never_auto := cbv zeta; repeat never_step.

(** X13: no command other than ban and purge ever returns.  Every path
    of kick, unban, warn, warnings, clearwarnings, timeout, untimeout,
    unwarn and features ends in [_respond] without a view, which
    raises, or in an exception raised before; mute and unmute call a
    [Command] object, which raises.  The error handler answers through
    [_respond] as well, so every invocation of these commands ends with
    an exception, whatever the interaction, the store and the
    platform. *)
Theorem only_ban_and_purge_return (env : Env) (i : Interaction) (c : Command) (st : Store) :
  ends_in_respond c = true -> exists e, fst (run env i c st) = Raise e.
Proof.
  intros Hc. unfold run. apply invoke_never.
  destruct c; try discriminate Hc;
    unfold handler, kick, unban, warnings, clearwarnings, timeout, untimeout, mute, unmute,
      unwarn, features;
    try apply warn_never_returns; never_auto.
Qed.

Lemma only_ban_and_purge_return_witness :
  exists e, fst (run Sample.calm Sample.by_mod Features Sample.empty_store) = Raise e.
Proof.
  apply (only_ban_and_purge_return Sample.calm Sample.by_mod Features Sample.empty_store).
  reflexivity.
Defined.

(** Ban and purge do return: a ban that was confirmed, and a purge
    that went through. *)
Example ban_and_purge_return :
  fst (run Sample.calm Sample.by_mod (Ban Sample.user_m "spam") Sample.empty_store) = Ret tt /\
  fst (run Sample9.env Sample.by_mod (Purge 50) Sample.empty_store) = Ret tt.
Proof. split; reflexivity. Qed.
Lemma row_after_update (g g' : Z) (k : SettingKey) (value : Z) (rows : list (Z * ServerSettings)) :
  row_of g' (SettingsDb.update_rows g k value rows)
  = if g' =? g then SettingsDb.set_field k value (row_of g rows) else row_of g' rows.
Proof.
  unfold row_of.
  induction rows as [|r rows IH]; cbn [SettingsDb.update_rows find fst snd].
  - rewrite (Z.eqb_sym g g'). now destruct (g' =? g).
  - destruct (Z.eqb_spec (fst r) g) as [E|E].
    + cbn [find fst snd]. rewrite (Z.eqb_sym g g').
      destruct (Z.eqb_spec g' g) as [E'|E'].
      * reflexivity.
      * destruct (Z.eqb_spec (fst r) g') as [E2|E2]; [congruence | reflexivity].
    + cbn [find]. destruct (Z.eqb_spec (fst r) g') as [E2|E2].
      * destruct (Z.eqb_spec g' g) as [E'|E']; [congruence | reflexivity].
      * exact IH.
Qed.

Lemma settings_after_update (g g' : Z) (k : SettingKey) (value : Z) (st : Store) :
  Db.get_server_settings g' (SettingsDb.update_server_setting g k value st)
  = if g' =? g then SettingsDb.set_field k value (Db.get_server_settings g st)
    else Db.get_server_settings g' st.
Proof. exact (row_after_update g g' k value (settings_table st)). Qed.

Lemma field_after_update (k : SettingKey) (value : Z) (s : ServerSettings) :
  field_of k (SettingsDb.set_field k value s) = Some value /\
  field_of (other_key k) (SettingsDb.set_field k value s) = field_of (other_key k) s.
Proof. destruct k; split; reflexivity. Qed.

Lemma setup_defer_eq (env : Env) (eph : bool) (w : World) :
  SetupCog._defer env eph w =
  (Ret tt, if responded w then w
           else mkWorld (store w) (calls w ++ [EDefer eph]) (acknowledged env)).
Proof. exact (defer_eq env eph w). Qed.

Lemma setup_error_eq (e : Exn) (w : World) :
  SetupCog.cog_app_command_error e w =
  (Ret tt,
   mkWorld (store w)
           (calls w ++ [ESend (responded w)
                          (error_reply (if isinstance e MissingPermissions
                                        then "You need Administrator permission."
                                        else ex_text e))])
           true).
Proof.
  unfold SetupCog.cog_app_command_error, bind, is_done, followup_send, emit, set_done, error_reply.
  destruct w as [st cs d]; cbn [store calls responded].
  destruct (isinstance e MissingPermissions), d; reflexivity.
Qed.

Section SetupRuns.

Variables (env : Env) (update : DbOutcome) (i : Interaction) (g : Guild) (st : Store).
Hypothesis in_guild : guild i = Some g.

Lemma setup_written (k : SettingKey) (channel : Z) :
  (forall e, update <> DbRaises e) ->
  SetupCog.run env update true i (SetupCog.command_of k channel) st
  = (Ret tt,
     mkWorld (SettingsDb.update_server_setting (g_id g) k channel st)
             [EDefer true; ESend true (SetupCog.confirmation k channel)]
             (acknowledged env)).
Proof.
  intros Hup.
  assert (Hw : forall w, SetupCog.update_server_setting update (g_id g) k channel w
                         = (Ret tt, mkWorld (SettingsDb.update_server_setting (g_id g) k channel
                                               (store w)) (calls w) (responded w))).
  { intros w. unfold SetupCog.update_server_setting.
    destruct update as [| |e]; try reflexivity. now elim (Hup e). }
  unfold SetupCog.run, try_except, SetupCog.has_permissions.
  destruct k; cbn [SetupCog.command_of SetupCog.handler];
    unfold SetupCog.setup_logchannel, SetupCog.setup_welcomechannel, SetupCog.guild_id;
    rewrite in_guild;
    (erewrite bind_ret_eq by reflexivity);
    (erewrite bind_ret_eq by apply setup_defer_eq); tidy;
    (erewrite bind_ret_eq by reflexivity);
    (erewrite bind_ret_eq by apply Hw); tidy;
    reflexivity.
Qed.

Lemma setup_not_written (k : SettingKey) (channel : Z) (e : Exn) :
  update = DbRaises e ->
  SetupCog.run env update true i (SetupCog.command_of k channel) st
  = SetupCog.cog_app_command_error e
      (mkWorld st [EDefer true] (acknowledged env)).
Proof.
  intros Hup.
  unfold SetupCog.run, try_except, SetupCog.has_permissions.
  destruct k; cbn [SetupCog.command_of SetupCog.handler];
    unfold SetupCog.setup_logchannel, SetupCog.setup_welcomechannel, SetupCog.guild_id;
    rewrite in_guild;
    (erewrite bind_ret_eq by reflexivity);
    (erewrite bind_ret_eq by apply setup_defer_eq); tidy;
    (erewrite bind_ret_eq by reflexivity);
    (erewrite bind_raise_eq by (unfold SetupCog.update_server_setting; rewrite Hup; reflexivity));
    reflexivity.
Qed.


End SetupRuns.

Lemma setup_outside (env : Env) (update : DbOutcome) (i : Interaction) (st : Store)
    (c : SetupCog.Command) :
  guild i = None ->
  SetupCog.run env update true i c st
  = SetupCog.cog_app_command_error
      (mkExn AttributeError "'NoneType' object has no attribute 'id'")
      (mkWorld st [EDefer true] (acknowledged env)).
Proof.
  intros Hg.
  unfold SetupCog.run, try_except, SetupCog.has_permissions.
  destruct c; cbn [SetupCog.handler];
    unfold SetupCog.setup_logchannel, SetupCog.setup_welcomechannel, SetupCog.setup_config,
           SetupCog.guild_id;
    rewrite Hg;
    (erewrite bind_ret_eq by reflexivity);
    (erewrite bind_ret_eq by apply setup_defer_eq); tidy;
    first [ reflexivity
          | (erewrite bind_raise_eq by reflexivity); reflexivity ].
Qed.

(** X15: a setup command that sets a channel round-trips through the
    settings: in a guild, with a store that takes the update, the
    field the command names reads back as the channel, the other field
    and every other guild's settings read as before, warnings and the
    action log are untouched, and the platform sees the deferral and
    one confirmation sent as a followup. *)
Theorem setup_channel_round_trip (env : Env) (update : DbOutcome) (i : Interaction) (g : Guild)
    (st : Store) (k : SettingKey) (channel : Z) :
  guild i = Some g ->
  (forall e, update <> DbRaises e) ->
  let w := snd (SetupCog.run env update true i (SetupCog.command_of k channel) st) in
  field_of k (Db.get_server_settings (g_id g) (store w)) = Some channel /\
  field_of (other_key k) (Db.get_server_settings (g_id g) (store w))
  = field_of (other_key k) (Db.get_server_settings (g_id g) st) /\
  (forall g', g' <> g_id g ->
              Db.get_server_settings g' (store w) = Db.get_server_settings g' st) /\
  warnings_table (store w) = warnings_table st /\
  action_log (store w) = action_log st /\
  calls w = [EDefer true; ESend true (SetupCog.confirmation k channel)].
Proof.
  intros Hg Hup w. subst w. rewrite (setup_written env update i g st Hg k channel Hup).
  tidy. rewrite settings_after_update, Z.eqb_refl.
  destruct (field_after_update k channel (Db.get_server_settings (g_id g) st)) as [F1 F2].
  repeat split; try assumption.
  intros g' Hne. rewrite settings_after_update.
  now destruct (Z.eqb_spec g' (g_id g)).
Qed.

Lemma setup_channel_round_trip_witness :
  field_of WelcomeChannelKey
    (Db.get_server_settings 1
       (store (snd (SetupCog.run Sample.calm DbOk true Sample13.by_admin
                      (SetupCog.WelcomeChannel 56) Sample.empty_store))))
  = Some 56.
Proof.
  apply (setup_channel_round_trip Sample.calm DbOk Sample13.by_admin Sample13.guild2
           Sample.empty_store WelcomeChannelKey 56 eq_refl).
  intros e. discriminate.
Defined.

(** X16: what [setup logchannel] stores is what the moderation cog's
    [_post_modlog] uses: after the command, a log embed posted for the
    guild goes to that channel exactly when the channel is not 0 and
    the guild resolves it, and to no channel otherwise; a failure of
    that send is dropped.  [setup welcomechannel] does not move the
    log. *)
Theorem setup_logchannel_feeds_modlog (env env' : Env) (update : DbOutcome) (i : Interaction)
    (g : Guild) (st : Store) (channel : Z) (e : Embed) (cs : list Event) (d : bool) :
  guild i = Some g ->
  (forall ex, update <> DbRaises ex) ->
  db_works env' OpGetServerSettings ->
  let after c := store (snd (SetupCog.run env update true i c st)) in
  _post_modlog env' g e (mkWorld (after (SetupCog.LogChannel channel)) cs d)
  = (Ret tt,
     mkWorld (after (SetupCog.LogChannel channel))
             (cs ++ if negb (channel =? 0) && existsb (Z.eqb channel) (g_channels g)
                    then [EChannelSend channel e] else [])
             d) /\
  modlog_events g (after (SetupCog.WelcomeChannel channel)) e = modlog_events g st e.
Proof.
  intros Hg Hup Hdb after. subst after. cbv beta.
  pose proof (setup_written env update i g st Hg LogChannelKey channel Hup) as Hlog.
  pose proof (setup_written env update i g st Hg WelcomeChannelKey channel Hup) as Hwel.
  cbn [SetupCog.command_of] in Hlog, Hwel. rewrite Hlog, Hwel.
  tidy. split.
  - rewrite post_modlog_eq by assumption. tidy.
    unfold modlog_events. rewrite settings_after_update, Z.eqb_refl.
    cbn [SettingsDb.set_field log_channel].
    destruct (channel =? 0); [reflexivity|].
    cbn [negb andb]. now destruct (existsb _ _).
  - unfold modlog_events. rewrite settings_after_update, Z.eqb_refl. reflexivity.
Qed.

Lemma setup_logchannel_feeds_modlog_witness :
  _post_modlog Sample.calm Sample13.guild2 (create_success_embed "kicked")
    (mkWorld (store (snd (SetupCog.run Sample.calm DbOk true Sample13.by_admin
                            (SetupCog.LogChannel 56) Sample.empty_store))) [] true)
  = (Ret tt,
     mkWorld (store (snd (SetupCog.run Sample.calm DbOk true Sample13.by_admin
                            (SetupCog.LogChannel 56) Sample.empty_store)))
             [EChannelSend 56 (create_success_embed "kicked")] true).
Proof.
  apply (setup_logchannel_feeds_modlog Sample.calm Sample.calm DbOk Sample13.by_admin
           Sample13.guild2 Sample.empty_store 56 (create_success_embed "kicked") [] true eq_refl).
  - intros ex. discriminate.
  - intros ex. discriminate.
Defined.





(** X18: without the administrator permission no setup command
    reaches its handler: whatever the command, the store and the
    surroundings, the only call is the initial response, an ephemeral
    error embed "You need Administrator permission.", and the store is
    as it was. *)
Theorem setup_requires_administrator (env : Env) (update : DbOutcome) (i : Interaction)
    (c : SetupCog.Command) (st : Store) :
  SetupCog.run env update false i c st
  = (Ret tt, mkWorld st [ESend false (error_reply "You need Administrator permission.")] true).
Proof.
  unfold SetupCog.run, try_except, SetupCog.has_permissions.
  erewrite bind_raise_eq by reflexivity.
  rewrite setup_error_eq. reflexivity.
Qed.

(** X19: a store that raises in [update_server_setting] is reported,
    not hidden: the settings are not written, no confirmation is sent,
    and the invoker gets one ephemeral error embed carrying the text of
    the exception, as a followup when the deferral went through and as
    the initial response when it did not. *)
Theorem setup_store_failure_is_reported (env : Env) (i : Interaction) (g : Guild) (st : Store)
    (k : SettingKey) (channel : Z) (e : Exn) :
  guild i = Some g ->
  isinstance e MissingPermissions = false ->
  SetupCog.run env (DbRaises e) true i (SetupCog.command_of k channel) st
  = (Ret tt,
     mkWorld st [EDefer true; ESend (acknowledged env) (error_reply (ex_text e))] true).
Proof.
  intros Hg He.
  rewrite (setup_not_written env (DbRaises e) i g st Hg k channel e eq_refl).
  rewrite setup_error_eq, He. reflexivity.
Qed.

Lemma setup_store_failure_is_reported_witness :
  SetupCog.run Sample.calm (DbRaises Sample13.store_down) true Sample13.by_admin
    (SetupCog.LogChannel 55) Sample.empty_store
  = (Ret tt,
     mkWorld Sample.empty_store
       [EDefer true; ESend true (error_reply "database is locked")] true).
Proof.
  apply (setup_store_failure_is_reported Sample.calm Sample13.by_admin Sample13.guild2
           Sample.empty_store LogChannelKey 55 Sample13.store_down eq_refl eq_refl).
Defined.

(** X20: the setup handlers do not check for a guild themselves: run
    outside a guild, each of the three fails on [interaction.guild.id]
    after the deferral, nothing is written, and the invoker is shown
    the text of the AttributeError. *)
Theorem setup_outside_guild (env : Env) (update : DbOutcome) (i : Interaction) (st : Store)
    (c : SetupCog.Command) :
  guild i = None ->
  SetupCog.run env update true i c st
  = (Ret tt,
     mkWorld st
       [EDefer true;
        ESend (acknowledged env) (error_reply "'NoneType' object has no attribute 'id'")]
       true).
Proof.
  intros Hg. rewrite (setup_outside env update i st c Hg).
  rewrite setup_error_eq. reflexivity.
Qed.

Lemma setup_outside_guild_witness :
  SetupCog.run Sample.calm DbOk true Sample.in_dm SetupCog.Config Sample.empty_store
  = (Ret tt,
     mkWorld Sample.empty_store
       [EDefer true;
        ESend true (error_reply "'NoneType' object has no attribute 'id'")]
       true).
Proof.
  apply (setup_outside_guild Sample.calm DbOk Sample.in_dm Sample.empty_store SetupCog.Config
           eq_refl).
Defined.

(** ** Registration at load *)

Lemma sync_guilds_until (sync_outcome : nat -> option Exn) (ids : list Z) :
  forall (m n : nat),
    (forall k, (k < n)%nat -> sync_outcome (m + k)%nat = None) ->
    ((n < List.length ids)%nat -> sync_outcome (m + n)%nat <> None) ->
    sync_guilds sync_outcome m (map PyInt ids) = map SyncGuild (firstn (S n) ids).
Proof.
  induction ids as [|id rest IH]; intros m n Hok Hfail; [reflexivity|].
  cbn [map sync_guilds Py.int firstn]. f_equal.
  destruct n as [|n].
  - assert (H : sync_outcome (m + 0)%nat <> None) by (apply Hfail; cbn; lia).
    rewrite Nat.add_0_r in H. destruct (sync_outcome m); [now destruct rest | congruence].
  - assert (H : sync_outcome (m + 0)%nat = None) by (apply Hok; lia).
    rewrite Nat.add_0_r in H. rewrite H. apply IH.
    + intros k Hk. replace (S m + k)%nat with (m + S k)%nat by lia. apply Hok. lia.
    + intros Hn. replace (S m + n)%nat with (m + S n)%nat by lia. apply Hfail. cbn. lia.
Qed.

Lemma sync_guilds_local (sync_outcome : nat -> option Exn) (guild_ids : list PyVal) :
  forall n, forallb (fun c => negb (is_global c)) (sync_guilds sync_outcome n guild_ids) = true.
Proof.
  induction guild_ids as [|gid rest IH]; intros n; [reflexivity|].
  cbn [sync_guilds]. destruct (Py.int gid); [|reflexivity].
  cbn [forallb is_global negb andb].
  destruct (sync_outcome n); [reflexivity | apply IH].
Qed.

(** X21: with the sync enabled and a list of guilds configured,
    [cog_load] registers guild by guild in the configured order and
    gives up at the first sync that fails: when the first [n] syncs
    succeed and the next one, if there is one, fails, the calls are the
    syncs of the first [n+1] configured guilds and nothing else; so all
    guilds are synced when no sync fails, and there is never a global
    sync. *)
Theorem cog_load_syncs_until_failure (env : Env) (sync_outcome : nat -> option Exn)
    (ids : list Z) (n : nat) :
  bot_config env = Some (sync_config ids) ->
  ids <> [] ->
  (forall k, (k < n)%nat -> sync_outcome k = None) ->
  ((n < List.length ids)%nat -> sync_outcome n <> None) ->
  cog_load env sync_outcome = map SyncGuild (firstn (S n) ids).
Proof.
  intros Hcfg Hne Hok Hfail.
  unfold cog_load. rewrite Hcfg. unfold sync_config.
  destruct ids as [|id rest]; [congruence|].
  cbn [Py.or_ Py.truthy].
  change (Py.get_default "discord" (PyDict [])
            [("discord", PyDict [("sync_app_commands", PyBool true);
                                 ("sync_guild_ids", PyList (map PyInt (id :: rest)))])])
    with (PyDict [("sync_app_commands", PyBool true);
                  ("sync_guild_ids", PyList (map PyInt (id :: rest)))]).
  change (Py.get "sync_app_commands"
            [("sync_app_commands", PyBool true);
             ("sync_guild_ids", PyList (map PyInt (id :: rest)))])
    with (PyBool true).
  change (Py.get "sync_guild_ids"
            [("sync_app_commands", PyBool true);
             ("sync_guild_ids", PyList (map PyInt (id :: rest)))])
    with (PyList (map PyInt (id :: rest))).
  cbn [Py.truthy negb map].
  apply (sync_guilds_until sync_outcome (id :: rest) 0 n); assumption.
Qed.

Lemma cog_load_syncs_until_failure_witness :
  cog_load (Sample.with_config (sync_config [10; 20; 30]) Sample.calm)
           (fun k => if Nat.eqb k 1 then Some Sample.missing_permissions else None)
  = [SyncGuild 10; SyncGuild 20].
Proof.
  apply (cog_load_syncs_until_failure
           (Sample.with_config (sync_config [10; 20; 30]) Sample.calm)
           (fun k => if Nat.eqb k 1 then Some Sample.missing_permissions else None)
           [10; 20; 30] 1 eq_refl).
  - discriminate.
  - intros k Hk. destruct k as [|k]; [reflexivity | lia].
  - intros _. discriminate.
Defined.

(** X22: [cog_load] syncs nothing unless it is told to: whenever it
    issues a call, the configuration is a mapping whose "discord"
    section is a mapping with a true "sync_app_commands"; and a global
    sync is never combined with another sync. *)
Theorem cog_load_off_unless_enabled (env : Env) (sync_outcome : nat -> option Exn) :
  (cog_load env sync_outcome <> [] ->
   exists kvs d,
     bot_config env = Some (PyDict kvs) /\
     Py.lookup "discord" kvs = Some (PyDict d) /\
     Py.truthy (Py.get "sync_app_commands" d) = true) /\
  (In SyncGlobal (cog_load env sync_outcome) -> cog_load env sync_outcome = [SyncGlobal]).
Proof.
  unfold cog_load. split.
  - destruct (bot_config env) as [cfg|]; [|intros H; now elim H].
    destruct cfg as [| b | z | s | xs | kvs]; unfold Py.or_; cbn [Py.truthy];
      try (intros H; now elim H).
    + destruct b; intros H; now elim H.
    + destruct (negb (z =? 0)); intros H; now elim H.
    + destruct (negb (String.eqb s "")); intros H; now elim H.
    + destruct xs; intros H; now elim H.
    + destruct kvs as [|kv kvs]; [intros H; now elim H|].
      unfold Py.get_default.
      destruct (Py.lookup "discord" (kv :: kvs)) as [sec|] eqn:L; [|intros H; now elim H].
      destruct sec as [| b | z | s | xs | d]; try (intros H; now elim H).
      destruct (Py.truthy (Py.get "sync_app_commands" d)) eqn:T; [|intros H; now elim H].
      intros _. exists (kv :: kvs), d. now repeat split.
  - set (cfg := match bot_config env with Some c => Py.or_ c (PyDict []) | None => PyDict [] end).
    destruct (match cfg with
              | PyDict kvs => Py.get_default "discord" (PyDict []) kvs
              | _ => PyDict []
              end) as [| b | z | s | xs | d]; try (intros []).
    destruct (negb (Py.truthy (Py.get "sync_app_commands" d))); [intros []|].
    destruct (Py.get "sync_guild_ids" d) as [| b | z | s | xs | d']; try reflexivity.
    destruct xs as [|gid rest]; [reflexivity|].
    intros Hin.
    pose proof (sync_guilds_local sync_outcome (gid :: rest) 0) as Hl.
    rewrite forallb_forall in Hl. apply Hl in Hin. discriminate Hin.
Qed.

Lemma cog_load_off_unless_enabled_witness :
  exists kvs d,
    bot_config (Sample.with_config (sync_config [10]) Sample.calm) = Some (PyDict kvs) /\
    Py.lookup "discord" kvs = Some (PyDict d) /\
    Py.truthy (Py.get "sync_app_commands" d) = true.
Proof.
  apply (proj1 (cog_load_off_unless_enabled
                  (Sample.with_config (sync_config [10]) Sample.calm) (fun _ => None))).
  vm_compute. discriminate.
Defined.

(** ** The embed factory *)

Lemma cased_lower (c : ascii) :
  PyTitle.is_cased (PyStr.lower_char c) = PyTitle.is_cased c /\
  PyStr.lower_char (PyStr.lower_char c) = PyStr.lower_char c /\
  PyTitle.upper_char (PyStr.lower_char c) = PyTitle.upper_char c.
Proof. destruct c as [[] [] [] [] [] [] [] []]; repeat split; reflexivity. Qed.

Lemma cased_upper (c : ascii) :
  PyTitle.is_cased (PyTitle.upper_char c) = PyTitle.is_cased c /\
  PyStr.lower_char (PyTitle.upper_char c) = PyStr.lower_char c /\
  PyTitle.upper_char (PyTitle.upper_char c) = PyTitle.upper_char c.
Proof. destruct c as [[] [] [] [] [] [] [] []]; repeat split; reflexivity. Qed.

Lemma uncased_kept (c : ascii) :
  PyTitle.is_cased c = false -> PyStr.lower_char c = c /\ PyTitle.upper_char c = c.
Proof.
  destruct c as [[] [] [] [] [] [] [] []]; intros H; try discriminate H; split; reflexivity.
Qed.

Lemma title_of_lower (s : string) :
  forall b, PyTitle.title_from b (PyStr.lower s) = PyTitle.title_from b s.
Proof.
  induction s as [|c s IH]; intros b; [reflexivity|].
  cbn [PyStr.lower PyTitle.title_from].
  destruct (cased_lower c) as [H1 [H2 H3]]. rewrite H1, H2, H3, !IH.
  destruct (PyTitle.is_cased c) eqn:E; [reflexivity|].
  now rewrite (proj1 (uncased_kept c E)).
Qed.

Lemma title_of_upper (s : string) :
  forall b, PyTitle.title_from b (upper s) = PyTitle.title_from b s.
Proof.
  induction s as [|c s IH]; intros b; [reflexivity|].
  cbn [upper PyTitle.title_from].
  destruct (cased_upper c) as [H1 [H2 H3]]. rewrite H1, H2, H3, !IH.
  destruct (PyTitle.is_cased c) eqn:E; [reflexivity|].
  now rewrite (proj2 (uncased_kept c E)).
Qed.

Lemma title_of_title (s : string) :
  forall b, PyTitle.title_from b (PyTitle.title_from b s) = PyTitle.title_from b s.
Proof.
  induction s as [|c s IH]; intros b; [reflexivity|].
  cbn [PyTitle.title_from].
  destruct (PyTitle.is_cased c) eqn:E; cbn [PyTitle.title_from].
  - destruct (cased_lower c) as [H1 [H2 H3]]. destruct (cased_upper c) as [U1 [U2 U3]].
    destruct b; rewrite ?H1, ?U1, E, ?H2, ?U3, IH; reflexivity.
  - now rewrite E, IH.
Qed.

(** X23: the moderation embed names the action the same way however
    its letters are cased: the lowered, the raised and the already
    titled action give the same embed as the action itself.  Its Reason
    field is present exactly when a non-empty reason is given, it
    carries that reason and is not inline, and the Target and
    Moderator fields come first whatever the reason. *)
Theorem mod_embed_ignores_case (action : string) (moderator target : Member)
    (reason : option string) :
  create_mod_embed (PyStr.lower action) moderator target reason
  = create_mod_embed action moderator target reason /\
  create_mod_embed (upper action) moderator target reason
  = create_mod_embed action moderator target reason /\
  create_mod_embed (PyTitle.title action) moderator target reason
  = create_mod_embed action moderator target reason /\
  (forall value inline,
     In ("Reason", value, inline) (fe_fields (create_mod_embed action moderator target reason))
     <-> reason = Some value /\ value <> "" /\ inline = false) /\
  firstn 2 (fe_fields (create_mod_embed action moderator target reason))
  = [("Target", mention (m_id target), true); ("Moderator", mention (m_id moderator), true)].
Proof.
  unfold create_mod_embed, EmbedFactory.moderation_action, PyTitle.title.
  rewrite title_of_lower, title_of_upper, title_of_title.
  split; [reflexivity|]. split; [reflexivity|]. split; [reflexivity|].
  split; [|reflexivity].
  intros value inline. cbn [fe_fields app In]. split.
  - intros [Hin|[Hin|Hin]]; try discriminate Hin.
    destruct reason as [r|]; [|now elim Hin].
    destruct (String.eqb_spec r "") as [E|E]; [now elim Hin|].
    destruct Hin as [Hin|[]]. inversion Hin. subst. now repeat split.
  - intros [Hr [Hv Hi]]. subst reason inline.
    right. right. destruct (String.eqb_spec value ""); [contradiction | now left].
Qed.

Example mod_embed_of_shouted_kick :
  fe_title (create_mod_embed "KICK user" Sample.mod_m Sample.user_m (Some ""))
  = Some "Moderation: Kick User" /\
  List.length (fe_fields (create_mod_embed "KICK user" Sample.mod_m Sample.user_m (Some ""))) = 2%nat.
Proof. split; reflexivity. Qed.
